(** * The FAP evaluator (fap_interpreter/runtime_checker.py, environment.py)

    A shallow embedding of [RuntimeChecker] and [Environment], and the
    properties of the specification checked against it; with them the two
    passes over the source text that come before the evaluator,
    [extract_debug_directives_and_clean_code] of main.py and
    [SyntaxChecker.preprocess_code] of syntax_checker.py.

    Conventions of the embedding.
    - The abstract syntax is the Lark tree the grammar of parser.py builds,
      one constructor per rule, with the children Lark keeps (anonymous
      literals such as ["->"], ["and"] or ["int"] are filtered out of the
      tree; named terminals are kept).
    - [self.visit(node)] is [visit]: a dispatch on the node kind whose body
      runs one level deeper; the depth is bounded by a fuel, so a visitor
      table [visitors_at fuel] stands for [self.visit].  Methods called
      directly ([self.visit_block(...)], [self.visit_func_call(...)]) are
      plain calls.
    - The interpreter state is passed explicitly; Python exceptions are the
      [Raise] outcome and carry [str(e)].
    - Python's floats, and the text form of containers, are the host's: they
      are the fields of [HostFloat] and [HostText].
    - Debug tracing ([_add_debug_output], [_add_method_call] and the prints
      guarded by [debug_mode]) only appends to a trace nothing else reads and
      is left out; [debug_mode]/[debug_plus_mode] are kept because
      [_add_error] formats its message from them. *)

From stdpp Require Import gmap strings list pretty.
From Stdlib Require Import ZArith String Ascii Lia.

Set Warnings "-register-all".

Open Scope string_scope.
Open Scope list_scope.
Open Scope Z_scope.

(** ** Text helpers (Python [str] methods used by the source) *)

(** [needle in hay] *)
Fixpoint contains (needle hay : string) : bool :=
  String.prefix needle hay ||
  match hay with
  | EmptyString => false
  | String _ rest => contains needle rest
  end.

Definition is_digit_char (c : ascii) : bool :=
  let n := nat_of_ascii c in (48 <=? n)%nat && (n <=? 57)%nat.

Fixpoint all_digits (s : string) : bool :=
  match s with
  | EmptyString => true
  | String c rest => is_digit_char c && all_digits rest
  end.

(** [s.isdigit()]: non-empty and made of decimal digits. *)
Definition isdigit (s : string) : bool :=
  match s with
  | EmptyString => false
  | _ => all_digits s
  end.

(** [s.startswith(p)] *)
Definition startswith (p s : string) : bool := String.prefix p s.

(** [s[1:]] *)
Definition tail_str (s : string) : string :=
  match s with
  | EmptyString => EmptyString
  | String _ rest => rest
  end.

(** [s[1:-1]] *)
Definition strip_ends (s : string) : string :=
  String.substring 1 (String.length s - 2) s.

Definition is_space_char (c : ascii) : bool :=
  let n := nat_of_ascii c in
  ((9 <=? n)%nat && (n <=? 13)%nat) || ((28 <=? n)%nat && (n <=? 32)%nat).

Fixpoint lstrip (s : string) : string :=
  match s with
  | String c rest => if is_space_char c then lstrip rest else s
  | EmptyString => EmptyString
  end.

(** [s.rstrip()] *)
Definition rstrip (s : string) : string := String.rev (lstrip (String.rev s)).

(** [s.strip()] *)
Definition strip (s : string) : string := lstrip (rstrip s).

Fixpoint digits_value (s : string) (acc : Z) : Z :=
  match s with
  | EmptyString => acc
  | String c rest => digits_value rest (10 * acc + (Z.of_nat (nat_of_ascii c) - 48))
  end.

(** [int(s)] on the texts the source hands to it: an optional ["-"] and
    decimal digits.  [None] is Python's [ValueError]. *)
Definition parse_int (s : string) : option Z :=
  if isdigit s then Some (digits_value s 0)
  else if startswith "-" s && isdigit (tail_str s) then Some (- digits_value (tail_str s) 0)
  else None.

(** [s * n] *)
Fixpoint repeat_str (s : string) (n : nat) : string :=
  match n with
  | O => EmptyString
  | S n' => s +:+ repeat_str s n'
  end.

Definition esc : string := String "027"%char EmptyString.

(** ** Abstract syntax: the trees of parser.py *)

(** [type_name] is an alias rule: the tree is [Tree(type_int | type_float |
    type_str, children)].  The keyword is an anonymous literal, so Lark
    leaves [children] empty; the field keeps whatever tokens a tree carries. *)
Record type_node := TypeNode { tn_data : string; tn_children : list string }.

Inductive expr :=
  | Expr (first : term) (rest : list (string * term))
      (** [expr: term (ADD_OP term)*] *)
with term :=
  | Term (first : factor) (rest : list (string * factor))
      (** [term: factor (MUL_OP factor)*] *)
with factor :=
  | FNumber (text : string)                        (** [NUMBER] *)
  | FString (text : string)                        (** [STRING], quotes included *)
  | FIdent (name : string)                         (** [IDENT] *)
  | FMember (obj attr : string)                    (** [member_access_expr] *)
  | FInput (prompt : string)                       (** [input_call] *)
  | FMath (name : string) (args : list expr)       (** [math_func_call] *)
  | FListLit (elems : list (option expr))          (** [list_literal] *)
  | FListAccess (name : string) (index : expr)     (** [list_access] *)
  | FAbs (inner : expr)                            (** [abs_expr] *)
  | FCall (name : string) (args : option (list expr))
      (** [func_call: IDENT "(" func_args? ")"] *)
  | FParen (inner : expr).                         (** ["(" expr ")"] *)

(** [condition: expr COMPARISON_OP expr] *)
Record condition := Condition { c_left : expr; c_op : string; c_right : expr }.

(** [logic_op: "and"i | "or"i]: the tokens the tree kept (none, with this
    grammar). *)
Record logic_op := LogicOp { lo_children : list string }.

(** [conditions: condition (logic_op condition)*] *)
Record conditions := Conditions { cs_first : condition; cs_rest : list (logic_op * condition) }.

(** [param: type_name IDENT] *)
Record param := Param { p_type : type_node; p_name : string }.

Inductive stmt :=
  | SConstDef (ty : type_node) (name : string) (init : expr)
  | SVarDef (ty : type_node) (name : string) (init : option expr)
  | SAssignment (name : string) (value : expr)
  | SCause (conds : conditions) (if_block : list stmt) (or_block : option (list stmt))
  | SOutput (obj attr : string) (args : option (list expr))
  | SInputCall (prompt : string)
  | SAgain (times : expr) (repeat_var : option string) (body : list stmt)
  | SRepStop
  | SListMethodCall (name : string) (arg : option expr)
  | SListDef (name : string) (literal : list (option expr))
  | SFuncDef (name : string) (params : list (option param)) (body : list stmt)
  | SFuncCallStmt (name : string) (args : option (list expr))
  | SBackStmt (value : option expr).

(** A [block] is the list of its [statement] children, in order; the
    [NEWLINE] tokens between them are skipped by [visit_block]. *)
Abbreviation block := (list stmt).

(** A child of [start]: a statement (with [meta.line] when the tree carries
    positions) or a [NEWLINE] token. *)
Inductive top_item :=
  | TopStatement (meta_line : option Z) (s : stmt)
  | TopNewline.

(** ** Values *)

(** Python's [float] and the operations the evaluator applies to it. *)
Class HostFloat := {
  pyfloat : Type;
  float_of_int : Z -> option pyfloat;
    (** [float(n)]; [None]: OverflowError *)
  float_parse : string -> option pyfloat;
    (** [float(text)]; [None]: ValueError *)
  float_repr : pyfloat -> string;
  float_is_integer : pyfloat -> bool;
  float_to_int : pyfloat -> string + Z;
    (** [int(x)]; [inl msg]: infinity or NaN *)
  float_add : pyfloat -> pyfloat -> pyfloat;
  float_sub : pyfloat -> pyfloat -> pyfloat;
  float_mul : pyfloat -> pyfloat -> pyfloat;
  float_div : pyfloat -> pyfloat -> pyfloat;
    (** on a non-zero divisor *)
  int_truediv : Z -> Z -> option pyfloat;
    (** [a / b] on integers, [b] non-zero; [None]: OverflowError *)
  float_compare : pyfloat -> pyfloat -> option comparison;
    (** [None]: unordered (NaN) *)
  float_compare_int : pyfloat -> Z -> option comparison;
  float_abs : pyfloat -> pyfloat;
  float_sqrt : pyfloat -> pyfloat;
    (** [math.sqrt] on a value that is not below zero *)
  float_pow : pyfloat -> pyfloat -> option (string + pyfloat);
    (** [x ** y]; [None]: the result is a complex number *)
  int_of_text : string -> option Z;
    (** [int(text)] on arbitrary text; [None]: ValueError *)
}.

Declare Scope eval_scope.
Delimit Scope eval_scope with eval.

(** ** Outcomes *)

Inductive stop_reason :=
  | OutOfFuel      (** the visit depth exceeded the fuel *)
  | Unmodelled.    (** host behaviour the embedding does not describe *)

Inductive outcome (A : Type) :=
  | Ok (a : A)
  | Raise (msg : string)       (** a Python exception, with [str(e)] *)
  | Stop (r : stop_reason).
Arguments Ok {A} a.
Arguments Raise {A} msg.
Arguments Stop {A} r.

Inductive channel := Stdout | Stderr.

Section Evaluator.
Context `{HostFloat}.

(** The function dictionary [{'params', 'body', 'env'}] of
    [Environment.define_func]; [f_env] is the index of the captured
    environment. *)
Record func_info := FuncInfo {
  f_params : list (string * string);   (* name, type *)
  f_body : block;
  f_env : nat;
}.

Inductive value :=
  | VNone
  | VInt (z : Z)
  | VFloat (x : pyfloat)
  | VStr (s : string)
  | VList (ref : nat)                 (** a list object, by reference *)
  | VObj (members : gmap string string)
      (** one of the dictionaries bound to [out], [rep], [now], [back] *)
  | VFunc (f : func_info).            (** what [get_value] returns for a function *)

(** [type(v).__name__] *)
Definition type_name_of (v : value) : string :=
  match v with
  | VNone => "NoneType"
  | VInt _ => "int"
  | VFloat _ => "float"
  | VStr _ => "str"
  | VList _ => "list"
  | VObj _ | VFunc _ => "dict"
  end.

Definition is_number (v : value) : bool :=
  match v with VInt _ | VFloat _ => true | _ => false end.

Definition is_str (v : value) : bool :=
  match v with VStr _ => true | _ => false end.

(** ** Environment (environment.py) *)

Record Environment := Env {
  variables : gmap string value;
  constants : gmap string value;
  functions : gmap string func_info;
  parent : option nat;
}.

(** The environments live in a store, [self.env] and every [parent] and
    closure reference being an index into it. *)
Abbreviation env_store := (list Environment).

Definition has_key {A} (m : gmap string A) (k : string) : bool :=
  match m !! k with Some _ => true | None => false end.

Fixpoint is_defined_from (depth : nat) (E : env_store) (e : nat) (name : string) : bool :=
  match depth with
  | O => false
  | S depth' =>
      match E !! e with
      | None => false
      | Some env =>
          if has_key (variables env) name || has_key (constants env) name
             || has_key (functions env) name
          then true
          else match parent env with
               | Some p => is_defined_from depth' E p name
               | None => false
               end
      end
  end.

(** [Environment.is_defined] *)
Definition is_defined (E : env_store) (e : nat) (name : string) : bool :=
  is_defined_from (List.length E) E e name.

(** [Environment.is_constant]: the local table only. *)
Definition is_constant (E : env_store) (e : nat) (name : string) : bool :=
  match E !! e with
  | Some env => has_key (constants env) name
  | None => false
  end.

Fixpoint get_func_from (depth : nat) (E : env_store) (e : nat) (name : string)
  : option func_info :=
  match depth with
  | O => None
  | S depth' =>
      match E !! e with
      | None => None
      | Some env =>
          match functions env !! name with
          | Some f => Some f
          | None => match parent env with
                    | Some p => get_func_from depth' E p name
                    | None => None
                    end
          end
      end
  end.

(** [Environment.get_func] *)
Definition get_func (E : env_store) (e : nat) (name : string) : option func_info :=
  get_func_from (List.length E) E e name.

(** [Environment.is_function] *)
Definition is_function (E : env_store) (e : nat) (name : string) : bool :=
  match get_func E e name with Some _ => true | None => false end.

Fixpoint get_value_from (depth : nat) (E : env_store) (e : nat) (name : string)
  : option value :=
  match depth with
  | O => None
  | S depth' =>
      match E !! e with
      | None => None
      | Some env =>
          match constants env !! name with
          | Some v => Some v
          | None =>
              match variables env !! name with
              | Some v => Some v
              | None =>
                  match functions env !! name with
                  | Some f => Some (VFunc f)
                  | None => match parent env with
                            | Some p => get_value_from depth' E p name
                            | None => None
                            end
                  end
              end
          end
      end
  end.

(** [Environment.get_value]; [None] is [ValueError("Variable not defined")]. *)
Definition get_value (E : env_store) (e : nat) (name : string) : option value :=
  get_value_from (List.length E) E e name.

Definition put_var (name : string) (v : value) (env : Environment) : Environment :=
  Env (<[name := v]> (variables env)) (constants env) (functions env) (parent env).

(** [Environment.define_var] *)
Definition define_var (E : env_store) (e : nat) (name : string) (v : value) : env_store :=
  match E !! e with
  | Some env => <[e := put_var name v env]> E
  | None => E
  end.

(** [Environment.define_const] *)
Definition define_const (E : env_store) (e : nat) (name : string) (v : value) : env_store :=
  match E !! e with
  | Some env =>
      <[e := Env (variables env) (<[name := v]> (constants env)) (functions env) (parent env)]> E
  | None => E
  end.

(** [Environment.define_func] *)
Definition define_func (E : env_store) (e : nat) (name : string) (f : func_info) : env_store :=
  match E !! e with
  | Some env =>
      <[e := Env (variables env) (constants env) (<[name := f]> (functions env)) (parent env)]> E
  | None => E
  end.

(** [self.env.variables.pop(name, None)] *)
Definition pop_var (E : env_store) (e : nat) (name : string) : env_store :=
  match E !! e with
  | Some env =>
      <[e := Env (delete name (variables env)) (constants env) (functions env) (parent env)]> E
  | None => E
  end.

Fixpoint set_value_from (depth : nat) (E : env_store) (e : nat) (name : string) (v : value)
  : string + env_store :=
  match depth with
  | O => inl ("Variable not defined: " +:+ name)
  | S depth' =>
      match E !! e with
      | None => inl ("Variable not defined: " +:+ name)
      | Some env =>
          if has_key (constants env) name then inl ("Cannot modify constant: " +:+ name)
          else if has_key (variables env) name then inr (<[e := put_var name v env]> E)
          else match parent env with
               | Some p =>
                   if is_defined E p name then set_value_from depth' E p name v
                   else inl ("Variable not defined: " +:+ name)
               | None => inl ("Variable not defined: " +:+ name)
               end
      end
  end.

(** [Environment.set_value]; [inl msg] is the [ValueError] it raises. *)
Definition set_value (E : env_store) (e : nat) (name : string) (v : value)
  : string + env_store :=
  set_value_from (List.length E) E e name v.

(** [Environment.create_child_env]: a new environment at the end of the
    store. *)
Definition create_child_env (E : env_store) (p : nat) : env_store * nat :=
  (E ++ [Env ∅ ∅ ∅ (Some p)], List.length E).


(** ** Interpreter state ([RuntimeChecker.__init__]) *)

(** [str(v)] of a list, a built-in dictionary or a function record, given
    the list objects. *)
Class HostText := {
  container_str : list (list value) -> value -> string;
}.
Context `{HostText}.

Record state := State {
  envs : env_store;
  env : nat;
  lists : list (list value);
  used_variables : gset string;
  defined_vars : gset string;
  assigned_vars : gset string;
  warned_vars : gset string;
  errors : list string;
  error_vars_list : list string;
  has_output : bool;
  debug_mode : bool;
  debug_plus_mode : bool;
  original_lines : list string;
  current_line_num : Z;
  should_break : bool;
  return_value : value;
  should_return : bool;
  stdin : list string;
  printed : list (channel * string);
}.

Definition set_envs (x : env_store) (s : state) : state :=
  State x (env s) (lists s) (used_variables s) (defined_vars s) (assigned_vars s) (warned_vars s) (errors s) (error_vars_list s) (has_output s) (debug_mode s) (debug_plus_mode s) (original_lines s) (current_line_num s) (should_break s) (return_value s) (should_return s) (stdin s) (printed s).

Definition set_env (x : nat) (s : state) : state :=
  State (envs s) x (lists s) (used_variables s) (defined_vars s) (assigned_vars s) (warned_vars s) (errors s) (error_vars_list s) (has_output s) (debug_mode s) (debug_plus_mode s) (original_lines s) (current_line_num s) (should_break s) (return_value s) (should_return s) (stdin s) (printed s).

Definition set_lists (x : list (list value)) (s : state) : state :=
  State (envs s) (env s) x (used_variables s) (defined_vars s) (assigned_vars s) (warned_vars s) (errors s) (error_vars_list s) (has_output s) (debug_mode s) (debug_plus_mode s) (original_lines s) (current_line_num s) (should_break s) (return_value s) (should_return s) (stdin s) (printed s).

Definition set_used_variables (x : gset string) (s : state) : state :=
  State (envs s) (env s) (lists s) x (defined_vars s) (assigned_vars s) (warned_vars s) (errors s) (error_vars_list s) (has_output s) (debug_mode s) (debug_plus_mode s) (original_lines s) (current_line_num s) (should_break s) (return_value s) (should_return s) (stdin s) (printed s).

Definition set_defined_vars (x : gset string) (s : state) : state :=
  State (envs s) (env s) (lists s) (used_variables s) x (assigned_vars s) (warned_vars s) (errors s) (error_vars_list s) (has_output s) (debug_mode s) (debug_plus_mode s) (original_lines s) (current_line_num s) (should_break s) (return_value s) (should_return s) (stdin s) (printed s).

Definition set_assigned_vars (x : gset string) (s : state) : state :=
  State (envs s) (env s) (lists s) (used_variables s) (defined_vars s) x (warned_vars s) (errors s) (error_vars_list s) (has_output s) (debug_mode s) (debug_plus_mode s) (original_lines s) (current_line_num s) (should_break s) (return_value s) (should_return s) (stdin s) (printed s).

Definition set_warned_vars (x : gset string) (s : state) : state :=
  State (envs s) (env s) (lists s) (used_variables s) (defined_vars s) (assigned_vars s) x (errors s) (error_vars_list s) (has_output s) (debug_mode s) (debug_plus_mode s) (original_lines s) (current_line_num s) (should_break s) (return_value s) (should_return s) (stdin s) (printed s).

Definition set_errors (x : list string) (s : state) : state :=
  State (envs s) (env s) (lists s) (used_variables s) (defined_vars s) (assigned_vars s) (warned_vars s) x (error_vars_list s) (has_output s) (debug_mode s) (debug_plus_mode s) (original_lines s) (current_line_num s) (should_break s) (return_value s) (should_return s) (stdin s) (printed s).

Definition set_error_vars_list (x : list string) (s : state) : state :=
  State (envs s) (env s) (lists s) (used_variables s) (defined_vars s) (assigned_vars s) (warned_vars s) (errors s) x (has_output s) (debug_mode s) (debug_plus_mode s) (original_lines s) (current_line_num s) (should_break s) (return_value s) (should_return s) (stdin s) (printed s).

Definition set_has_output (x : bool) (s : state) : state :=
  State (envs s) (env s) (lists s) (used_variables s) (defined_vars s) (assigned_vars s) (warned_vars s) (errors s) (error_vars_list s) x (debug_mode s) (debug_plus_mode s) (original_lines s) (current_line_num s) (should_break s) (return_value s) (should_return s) (stdin s) (printed s).

Definition set_debug_mode (x : bool) (s : state) : state :=
  State (envs s) (env s) (lists s) (used_variables s) (defined_vars s) (assigned_vars s) (warned_vars s) (errors s) (error_vars_list s) (has_output s) x (debug_plus_mode s) (original_lines s) (current_line_num s) (should_break s) (return_value s) (should_return s) (stdin s) (printed s).

Definition set_debug_plus_mode (x : bool) (s : state) : state :=
  State (envs s) (env s) (lists s) (used_variables s) (defined_vars s) (assigned_vars s) (warned_vars s) (errors s) (error_vars_list s) (has_output s) (debug_mode s) x (original_lines s) (current_line_num s) (should_break s) (return_value s) (should_return s) (stdin s) (printed s).

Definition set_original_lines (x : list string) (s : state) : state :=
  State (envs s) (env s) (lists s) (used_variables s) (defined_vars s) (assigned_vars s) (warned_vars s) (errors s) (error_vars_list s) (has_output s) (debug_mode s) (debug_plus_mode s) x (current_line_num s) (should_break s) (return_value s) (should_return s) (stdin s) (printed s).

Definition set_current_line_num (x : Z) (s : state) : state :=
  State (envs s) (env s) (lists s) (used_variables s) (defined_vars s) (assigned_vars s) (warned_vars s) (errors s) (error_vars_list s) (has_output s) (debug_mode s) (debug_plus_mode s) (original_lines s) x (should_break s) (return_value s) (should_return s) (stdin s) (printed s).

Definition set_should_break (x : bool) (s : state) : state :=
  State (envs s) (env s) (lists s) (used_variables s) (defined_vars s) (assigned_vars s) (warned_vars s) (errors s) (error_vars_list s) (has_output s) (debug_mode s) (debug_plus_mode s) (original_lines s) (current_line_num s) x (return_value s) (should_return s) (stdin s) (printed s).

Definition set_return_value (x : value) (s : state) : state :=
  State (envs s) (env s) (lists s) (used_variables s) (defined_vars s) (assigned_vars s) (warned_vars s) (errors s) (error_vars_list s) (has_output s) (debug_mode s) (debug_plus_mode s) (original_lines s) (current_line_num s) (should_break s) x (should_return s) (stdin s) (printed s).

Definition set_should_return (x : bool) (s : state) : state :=
  State (envs s) (env s) (lists s) (used_variables s) (defined_vars s) (assigned_vars s) (warned_vars s) (errors s) (error_vars_list s) (has_output s) (debug_mode s) (debug_plus_mode s) (original_lines s) (current_line_num s) (should_break s) (return_value s) x (stdin s) (printed s).

Definition set_stdin (x : list string) (s : state) : state :=
  State (envs s) (env s) (lists s) (used_variables s) (defined_vars s) (assigned_vars s) (warned_vars s) (errors s) (error_vars_list s) (has_output s) (debug_mode s) (debug_plus_mode s) (original_lines s) (current_line_num s) (should_break s) (return_value s) (should_return s) x (printed s).

Definition set_printed (x : list (channel * string)) (s : state) : state :=
  State (envs s) (env s) (lists s) (used_variables s) (defined_vars s) (assigned_vars s) (warned_vars s) (errors s) (error_vars_list s) (has_output s) (debug_mode s) (debug_plus_mode s) (original_lines s) (current_line_num s) (should_break s) (return_value s) (should_return s) (stdin s) x.

(** The list object behind a reference. *)
Definition list_at (s : state) (r : nat) : list value :=
  default [] (lists s !! r).

(** [str(v)] *)
Definition py_str (s : state) (v : value) : string :=
  match v with
  | VNone => "None"
  | VInt z => pretty z
  | VFloat x => float_repr x
  | VStr t => t
  | VList _ | VObj _ | VFunc _ => container_str (lists s) v
  end.

(** ** The evaluation monad *)

Definition M (A : Type) : Type := state -> outcome A * state.

Definition ret {A} (a : A) : M A := fun s => (Ok a, s).

Definition bind {A B} (m : M A) (k : A -> M B) : M B :=
  fun s =>
    match m s with
    | (Ok a, s') => k a s'
    | (Raise e, s') => (Raise e, s')
    | (Stop r, s') => (Stop r, s')
    end.

Definition raise {A} (msg : string) : M A := fun s => (Raise msg, s).
Definition stop {A} (r : stop_reason) : M A := fun s => (Stop r, s).
Definition gets {A} (f : state -> A) : M A := fun s => (Ok (f s), s).
Definition modify (f : state -> state) : M unit := fun s => (Ok tt, f s).

Notation "x <- m ;; k" := (bind m (fun x => k))
  (at level 20, m at level 99, k at level 200, only parsing) : eval_scope.
Notation "m ;; k" := (bind m (fun _ => k))
  (at level 100, k at level 200, only parsing) : eval_scope.
Open Scope eval_scope.

(** [if c: m] *)
Definition when (c : bool) (m : M unit) : M unit := if c then m else ret tt.

(** A [string + A] result of a host operation, its [inl] raised. *)
Definition lift_exn {A} (r : string + A) : M A :=
  match r with
  | inl msg => raise msg
  | inr a => ret a
  end.

(** ** Diagnostics *)

Definition line_content (s : state) (line_num : Z) : string :=
  if (0 <? line_num) && (line_num <=? Z.of_nat (List.length (original_lines s)))
  then rstrip (nth (Z.to_nat (line_num - 1)) (original_lines s) "")
  else "".

Definition full_error_msg (s : state) (error_msg : string) (line_num : Z) : string :=
  if debug_plus_mode s then
    esc +:+ "[33m[Line " +:+ pretty line_num +:+ ": " +:+ line_content s line_num +:+ "]"
    +:+ esc +:+ "[0m " +:+ esc +:+ "[91m[ERROR] " +:+ error_msg +:+ esc +:+ "[0m"
  else if debug_mode s then
    esc +:+ "[33m[Line " +:+ pretty line_num +:+ "]"
    +:+ esc +:+ "[0m " +:+ esc +:+ "[91m[ERROR] " +:+ error_msg +:+ esc +:+ "[0m"
  else esc +:+ "[91m[ERROR] " +:+ error_msg +:+ esc +:+ "[0m".

Definition record_error (error_msg : string) (line_num : Z) (s : state) : state :=
  let full := full_error_msg s error_msg line_num in
  if bool_decide (full ∈ errors s) then s else set_errors (errors s ++ [full]) s.

(** [RuntimeChecker._add_error] *)
Definition _add_error (error_msg : string) (line_num : Z) : M unit :=
  modify (record_error error_msg line_num).

(** [self.error_vars_list.append(name)] *)
Definition poison (name : string) : M unit :=
  modify (fun s => set_error_vars_list (error_vars_list s ++ [name]) s).

Definition is_poisoned (s : state) (name : string) : bool :=
  bool_decide (name ∈ error_vars_list s).

Definition mark_used (name : string) : M unit :=
  modify (fun s => set_used_variables ({[name]} ∪ used_variables s) s).
Definition mark_defined (name : string) : M unit :=
  modify (fun s => set_defined_vars ({[name]} ∪ defined_vars s) s).
Definition mark_assigned (name : string) : M unit :=
  modify (fun s => set_assigned_vars ({[name]} ∪ assigned_vars s) s).
Definition mark_warned (name : string) : M unit :=
  modify (fun s => set_warned_vars ({[name]} ∪ warned_vars s) s).

(** [print(text)] / [print(text, file=sys.stderr)] *)
Definition print (c : channel) (text : string) : M unit :=
  modify (fun s => set_printed (printed s ++ [(c, text)]) s).

(** ** Environment access through [self.env] *)

Definition env_is_defined (name : string) : M bool :=
  gets (fun s => is_defined (envs s) (env s) name).

Definition env_is_constant (name : string) : M bool :=
  gets (fun s => is_constant (envs s) (env s) name).

Definition env_get_value (name : string) : M value :=
  v <- gets (fun s => get_value (envs s) (env s) name) ;;
  match v with
  | Some v => ret v
  | None => raise ("Variable not defined: " +:+ name)
  end.

Definition env_define_var (name : string) (v : value) : M unit :=
  modify (fun s => set_envs (define_var (envs s) (env s) name v) s).

Definition env_define_const (name : string) (v : value) : M unit :=
  modify (fun s => set_envs (define_const (envs s) (env s) name v) s).

Definition env_define_func (name : string) (f : func_info) : M unit :=
  modify (fun s => set_envs (define_func (envs s) (env s) name f) s).

Definition env_pop_var (name : string) : M unit :=
  modify (fun s => set_envs (pop_var (envs s) (env s) name) s).

Definition env_set_value (name : string) (v : value) : M unit :=
  r <- gets (fun s => set_value (envs s) (env s) name v) ;;
  match r with
  | inl msg => raise msg
  | inr E => modify (set_envs E)
  end.

(** A new list object. *)
Definition new_list (l : list value) : M value :=
  fun s => (Ok (VList (List.length (lists s))), set_lists (lists s ++ [l]) s).

(** In-place update of a list object ([append], [clear]). *)
Definition update_list (r : nat) (f : list value -> list value) : M unit :=
  modify (fun s => set_lists (<[r := f (list_at s r)]> (lists s)) s).


(** ** Python operators on values *)

Definition dquote : string := String (ascii_of_nat 34) EmptyString.

Definition unsupported (op : string) (a b : value) : string :=
  "unsupported operand type(s) for " +:+ op +:+ ": '" +:+ type_name_of a
  +:+ "' and '" +:+ type_name_of b +:+ "'".

(** The implicit [float(n)] of mixed arithmetic. *)
Definition as_float (z : Z) : M pyfloat :=
  match float_of_int z with
  | Some x => ret x
  | None => raise "int too large to convert to float"
  end.

Definition is_eq (c : option comparison) : bool :=
  match c with Some Eq => true | _ => false end.

(** [a == b].  [None]: a comparison between two list objects or two
    function records, which the embedding leaves to the host. *)
Definition py_eq (a b : value) : option bool :=
  match a, b with
  | VNone, VNone => Some true
  | VInt x, VInt y => Some (x =? y)
  | VInt x, VFloat y => Some (is_eq (float_compare_int y x))
  | VFloat x, VInt y => Some (is_eq (float_compare_int x y))
  | VFloat x, VFloat y => Some (is_eq (float_compare x y))
  | VStr x, VStr y => Some (String.eqb x y)
  | VObj x, VObj y => Some (bool_decide (x = y))
  | VList _, VList _ => None
  | VFunc _, VFunc _ => None
  | _, _ => Some false
  end.

(** [v == 0] *)
Definition is_zero (v : value) : bool :=
  match v with
  | VInt z => z =? 0
  | VFloat x => is_eq (float_compare_int x 0)
  | _ => false
  end.

(** [a + b] *)
Definition py_add (a b : value) : M value :=
  match a, b with
  | VInt x, VInt y => ret (VInt (x + y))
  | VInt x, VFloat y => fx <- as_float x ;; ret (VFloat (float_add fx y))
  | VFloat x, VInt y => fy <- as_float y ;; ret (VFloat (float_add x fy))
  | VFloat x, VFloat y => ret (VFloat (float_add x y))
  | VStr x, VStr y => ret (VStr (x +:+ y))
  | VList r1, VList r2 =>
      l1 <- gets (fun s => list_at s r1) ;;
      l2 <- gets (fun s => list_at s r2) ;;
      new_list (l1 ++ l2)
  | VStr _, _ =>
      raise ("can only concatenate str (not " +:+ dquote +:+ type_name_of b +:+ dquote
             +:+ ") to str")
  | VList _, _ =>
      raise ("can only concatenate list (not " +:+ dquote +:+ type_name_of b +:+ dquote
             +:+ ") to list")
  | _, _ => raise (unsupported "+" a b)
  end.

(** [a - b] *)
Definition py_sub (a b : value) : M value :=
  match a, b with
  | VInt x, VInt y => ret (VInt (x - y))
  | VInt x, VFloat y => fx <- as_float x ;; ret (VFloat (float_sub fx y))
  | VFloat x, VInt y => fy <- as_float y ;; ret (VFloat (float_sub x fy))
  | VFloat x, VFloat y => ret (VFloat (float_sub x y))
  | _, _ => raise (unsupported "-" a b)
  end.

Definition repeat_list (l : list value) (n : Z) : list value :=
  List.concat (List.repeat l (Z.to_nat n)).

(** [a * b]: a product of numbers, or a text or a list repeated. *)
Definition py_mul (a b : value) : M value :=
  match a, b with
  | VInt x, VInt y => ret (VInt (x * y))
  | VInt x, VFloat y => fx <- as_float x ;; ret (VFloat (float_mul fx y))
  | VFloat x, VInt y => fy <- as_float y ;; ret (VFloat (float_mul x fy))
  | VFloat x, VFloat y => ret (VFloat (float_mul x y))
  | VStr t, VInt n | VInt n, VStr t => ret (VStr (repeat_str t (Z.to_nat n)))
  | VList r, VInt n | VInt n, VList r =>
      l <- gets (fun s => list_at s r) ;;
      new_list (repeat_list l n)
  | VStr _, _ | VList _, _ =>
      raise ("can't multiply sequence by non-int of type '" +:+ type_name_of b +:+ "'")
  | _, VStr _ | _, VList _ =>
      raise ("can't multiply sequence by non-int of type '" +:+ type_name_of a +:+ "'")
  | _, _ => raise (unsupported "*" a b)
  end.

(** [a / b] *)
Definition py_truediv (a b : value) : M value :=
  match a, b with
  | VInt x, VInt y =>
      if y =? 0 then raise "division by zero"
      else match int_truediv x y with
           | Some q => ret (VFloat q)
           | None => raise "integer division result too large for a float"
           end
  | VInt x, VFloat y =>
      fx <- as_float x ;;
      if is_zero b then raise "float division by zero" else ret (VFloat (float_div fx y))
  | VFloat x, VInt y =>
      fy <- as_float y ;;
      if is_zero b then raise "float division by zero" else ret (VFloat (float_div x fy))
  | VFloat x, VFloat y =>
      if is_zero b then raise "float division by zero" else ret (VFloat (float_div x y))
  | _, _ => raise (unsupported "/" a b)
  end.

(** The order between two values, when Python defines one. *)
Inductive order_result :=
  | Ordered (c : option comparison)   (** [None]: unordered (NaN) *)
  | OrderTypeError
  | OrderUnmodelled.                  (** two list objects *)

Definition py_order (a b : value) : order_result :=
  match a, b with
  | VInt x, VInt y => Ordered (Some (x ?= y))
  | VInt x, VFloat y => Ordered (option_map CompOpp (float_compare_int y x))
  | VFloat x, VInt y => Ordered (float_compare_int x y)
  | VFloat x, VFloat y => Ordered (float_compare x y)
  | VStr x, VStr y => Ordered (Some (String.compare x y))
  | VList _, VList _ => OrderUnmodelled
  | _, _ => OrderTypeError
  end.

(** Whether [a op b] holds for [op] among [>], [<], [>=], [<=]. *)
Definition holds (op : string) (c : option comparison) : bool :=
  match c with
  | Some Lt => String.eqb op "<" || String.eqb op "<="
  | Some Gt => String.eqb op ">" || String.eqb op ">="
  | Some Eq => String.eqb op "<=" || String.eqb op ">="
  | None => false
  end.

(** [item in obj] for a text [item] *)
Definition py_contains (item : string) (obj : value) : M bool :=
  match obj with
  | VObj m => ret (has_key m item)
  | VFunc _ => ret (bool_decide (item ∈ ["params"; "body"; "env"]))
  | VStr t => ret (contains item t)
  | VList r =>
      l <- gets (fun s => list_at s r) ;;
      ret (existsb (fun v => match v with VStr t => String.eqb t item | _ => false end) l)
  | _ => raise ("argument of type '" +:+ type_name_of obj +:+ "' is not iterable")
  end.

(** [obj[key]] for a text [key] *)
Definition py_getitem (obj : value) (key : string) : M value :=
  match obj with
  | VObj m =>
      match m !! key with
      | Some t => ret (VStr t)
      | None => raise ("'" +:+ key +:+ "'")
      end
  | VFunc _ => stop Unmodelled
  | VStr _ => raise "string indices must be integers, not 'str'"
  | VList _ => raise "list indices must be integers or slices, not str"
  | _ => raise ("'" +:+ type_name_of obj +:+ "' object is not subscriptable")
  end.

Definition lower_char (c : ascii) : ascii :=
  let n := nat_of_ascii c in
  if (65 <=? n)%nat && (n <=? 90)%nat then ascii_of_nat (n + 32) else c.

(** [s.lower()] *)
Fixpoint lower (s : string) : string :=
  match s with
  | EmptyString => EmptyString
  | String c rest => String (lower_char c) (lower rest)
  end.

(** ** [RuntimeChecker.cast_type] *)

Inductive cast_result :=
  | CastOk (v : value)
  | CastError (e : string)     (** a [ValueError] or [TypeError], caught *)
  | CastEscapes (e : string)   (** another exception, not caught *)
  | CastUnsupported.

Definition cast_attempt (s : state) (v : value) (type_name : string) : cast_result :=
  if String.eqb type_name "int" then
    match v with
    | VStr t =>
        if isdigit t || (startswith "-" t && isdigit (tail_str t)) then
          match parse_int t with
          | Some z => CastOk (VInt z)
          | None => CastError ("invalid literal for int() with base 10: '" +:+ t +:+ "'")
          end
        else CastError ("String '" +:+ t +:+ "' cannot be converted to int")
    | VFloat x =>
        if float_is_integer x then
          match float_to_int x with
          | inr z => CastOk (VInt z)
          | inl e => CastError e
          end
        else CastError ("Float '" +:+ float_repr x
                        +:+ "' cannot be converted to int without loss of precision")
    | VInt z => CastOk (VInt z)
    | _ => CastError ("int() argument must be a string, a bytes-like object or a real number, not '"
                      +:+ type_name_of v +:+ "'")
    end
  else if String.eqb type_name "float" then
    match v with
    | VStr t =>
        match float_parse t with
        | Some x => CastOk (VFloat x)
        | None => CastError ("String '" +:+ t +:+ "' cannot be converted to float")
        end
    | VInt z =>
        match float_of_int z with
        | Some x => CastOk (VFloat x)
        | None => CastEscapes "int too large to convert to float"
        end
    | VFloat x => CastOk (VFloat x)
    | _ => CastError ("float() argument must be a string or a real number, not '"
                      +:+ type_name_of v +:+ "'")
    end
  else if String.eqb type_name "str" then CastOk (VStr (py_str s v))
  else CastUnsupported.

Definition for_variable (var_name : string) : string :=
  if String.eqb var_name "" then "" else " for variable '" +:+ var_name +:+ "'".

Definition cast_type (v : value) (type_name var_name : string) : M value :=
  poisoned <- gets (fun s => is_poisoned s var_name) ;;
  if negb (String.eqb var_name "") && poisoned then ret VNone
  else
    r <- gets (fun s => cast_attempt s v type_name) ;;
    match r with
    | CastOk v' => ret v'
    | CastEscapes e => raise e
    | CastError e =>
        text <- gets (fun s => py_str s v) ;;
        _add_error ("Cannot cast '" +:+ text +:+ "' to type '" +:+ type_name +:+ "'"
                    +:+ for_variable var_name
                    +:+ (if String.eqb e "" then "" else " - " +:+ e)) 0 ;;
        when (negb (String.eqb var_name "")) (poison var_name) ;;
        ret VNone
    | CastUnsupported =>
        _add_error ("Unsupported type: '" +:+ type_name +:+ "'" +:+ for_variable var_name) 0 ;;
        when (negb (String.eqb var_name "")) (poison var_name) ;;
        ret VNone
    end.


(** ** [RuntimeChecker.visit] *)

Definition has_marker (msg : string) : bool :=
  contains "Tree(" msg || contains "Token(" msg || contains "visit_" msg.

(** The [try]/[except] of [visit] around the method it dispatches to. *)
Definition visit {A} (m : M A) : M A :=
  fun s =>
    match m s with
    | (Raise e, s') =>
        if has_marker e then (Raise "Invalid statement", s') else (Raise e, s')
    | r => r
    end.

(** [try: m except Exception as e: h e] *)
Definition try_except {A} (m : M A) (h : string -> M A) : M A :=
  fun s =>
    match m s with
    | (Raise e, s') => h e s'
    | r => r
    end.

(** What [self.visit] does on each kind of subtree, one level down. *)
Record visitors := Visitors {
  v_expr : expr -> M value;
  v_term : term -> M value;
  v_factor : factor -> M value;
  v_statement : stmt -> M unit;      (** [Tree('statement', [kind])] *)
  v_kind : stmt -> M unit;           (** the child of a [statement] *)
  v_block : block -> M unit;
  v_conditions : conditions -> M bool;
  v_condition : condition -> M bool;
  v_list_literal : list (option expr) -> M value;
}.

Section Visit.
Variable V : visitors.

Definition visit_STRING (text : string) : M value := ret (VStr (strip_ends text)).

Definition visit_NUMBER (text : string) : M value :=
  if contains "." text then
    match float_parse text with
    | Some x => ret (VFloat x)
    | None => raise ("could not convert string to float: '" +:+ text +:+ "'")
    end
  else
    match parse_int text with
    | Some z => ret (VInt z)
    | None => raise ("invalid literal for int() with base 10: '" +:+ text +:+ "'")
    end.

Definition warn_line (text : string) : string :=
  esc +:+ "[93m[WARN] " +:+ text +:+ esc +:+ "[0m".

Definition visit_IDENT (var_name : string) : M value :=
  mark_used var_name ;;
  defined <- env_is_defined var_name ;;
  if negb defined then
    _add_error ("Variable '" +:+ var_name +:+ "' not defined") 0 ;;
    poisoned <- gets (fun s => is_poisoned s var_name) ;;
    when (negb poisoned) (poison var_name) ;;
    ret VNone
  else
    value <- env_get_value var_name ;;
    unassigned <- gets (fun s =>
      bool_decide (var_name ∈ defined_vars s)
      && negb (bool_decide (var_name ∈ assigned_vars s))
      && negb (is_constant (envs s) (env s) var_name)
      && negb (bool_decide (var_name ∈ warned_vars s))
      && negb (is_poisoned s var_name)) ;;
    when unassigned (
      text <- gets (fun s => py_str s value) ;;
      quiet <- gets (fun s => debug_mode s || debug_plus_mode s) ;;
      when (negb quiet)
        (print Stderr (warn_line ("Variable '" +:+ var_name
           +:+ "' used without assignment, using default value: " +:+ text))) ;;
      mark_warned var_name) ;;
    ret value.

(** The [+] of [visit_expr]. *)
Definition add_values (left right : value) : M value :=
  if is_str left || is_str right then
    l <- gets (fun s => py_str s left) ;;
    r <- gets (fun s => py_str s right) ;;
    ret (VStr (l +:+ r))
  else py_add left right.

(** The loop of [visit_expr] over [(op, term)] pairs. *)
Fixpoint expr_loop (rest : list (string * term)) (left : value) : M value :=
  match rest with
  | [] => ret left
  | (op, t) :: rest' =>
      right <- v_term V t ;;
      if String.eqb op "+" then
        left' <- add_values left right ;; expr_loop rest' left'
      else if String.eqb op "-" then
        left' <- py_sub left right ;; expr_loop rest' left'
      else if String.eqb op "*" then
        left' <- py_mul left right ;; expr_loop rest' left'
      else if String.eqb op "/" then
        if is_zero right then _add_error "Division by zero" 0 ;; ret (VInt 0)
        else left' <- py_truediv left right ;; expr_loop rest' left'
      else expr_loop rest' left
  end.

Definition visit_expr (e : expr) : M value :=
  match e with
  | Expr first [] => v_term V first
  | Expr first rest => left <- v_term V first ;; expr_loop rest left
  end.

(** The loop of [visit_term] over [(op, factor)] pairs. *)
Fixpoint term_loop (rest : list (string * factor)) (left : value) : M value :=
  match rest with
  | [] => ret left
  | (op, f) :: rest' =>
      right <- v_factor V f ;;
      if String.eqb op "*" then
        left' <- py_mul left right ;; term_loop rest' left'
      else if String.eqb op "/" then
        if is_zero right then _add_error "Division by zero" 0 ;; ret (VInt 0)
        else left' <- py_truediv left right ;; term_loop rest' left'
      else term_loop rest' left
  end.

Definition visit_term (t : term) : M value :=
  match t with
  | Term first [] => v_factor V first
  | Term first rest => left <- v_factor V first ;; term_loop rest left
  end.

(** [[self.visit(x) for x in xs]] *)
Fixpoint visit_all {A B} (f : A -> M B) (xs : list A) : M (list B) :=
  match xs with
  | [] => ret []
  | x :: xs' => y <- f x ;; ys <- visit_all f xs' ;; ret (y :: ys)
  end.

(** *** Function calls *)

(** [param_types[name]] of a dictionary built from the parameter list: the
    last parameter of that name decides. *)
Definition param_type (params : list (string * string)) (name : string) : string :=
  default "int" (list_to_map (M := gmap string string) (rev params) !! name).

(** The loop casting each argument into its parameter's type; [None] when a
    cast failed. *)
Fixpoint cast_args (func_name : string) (params : list (string * string))
    (i : Z) (names : list string) (args : list value)
  : M (option (list (string * value))) :=
  match names, args with
  | param_name :: names', arg_value :: args' =>
      let ty := param_type params param_name in
      casted <- cast_type arg_value ty (func_name +:+ " argument " +:+ pretty (i + 1)) ;;
      match casted with
      | VNone =>
          _add_error ("Argument " +:+ pretty (i + 1) +:+ " of function '" +:+ func_name
                      +:+ "' cannot be cast to type '" +:+ ty +:+ "'") 0 ;;
          ret None
      | _ =>
          more <- cast_args func_name params (i + 1) names' args' ;;
          ret (option_map (cons (param_name, casted)) more)
      end
  | _, _ => ret (Some [])
  end.

(** The state in which the body of [f] runs: a child of the captured
    environment holding the parameters, and neutral return flags. *)
Definition enter_call (f : func_info) (bound : list (string * value)) (s : state) : state :=
  let '(E, func_env) := create_child_env (envs s) (f_env f) in
  let E := fold_left (fun E '(name, v) => define_var E func_env name v) bound E in
  set_should_return false (set_return_value VNone (set_env func_env (set_envs E s))).

(** The caller's environment and return flags put back. *)
Definition leave_call (caller s : state) : state :=
  set_should_return (should_return caller)
    (set_return_value (return_value caller) (set_env (env caller) s)).

(** The tail of [visit_func_call]: the body run in its own frame, the
    caller's frame restored whether or not the body raised. *)
Definition call_function (f : func_info) (bound : list (string * value)) : M value :=
  fun s =>
    match v_block V (f_body f) (enter_call f bound s) with
    | (Ok _, s') => (Ok (return_value s'), leave_call s s')
    | (Raise e, s') => (Raise e, leave_call s s')
    | (Stop r, s') => (Stop r, leave_call s s')
    end.

Definition visit_func_call (func_name : string) (arg_nodes : list expr) : M value :=
  mark_used func_name ;;
  poisoned <- gets (fun s => is_poisoned s func_name) ;;
  if poisoned then ret VNone
  else
    known <- gets (fun s => is_function (envs s) (env s) func_name) ;;
    if negb known then
      _add_error ("Function '" +:+ func_name +:+ "' is not defined") 0 ;;
      poison func_name ;;
      ret VNone
    else
      found <- gets (fun s => get_func (envs s) (env s) func_name) ;;
      match found with
      | None =>
          _add_error ("Function '" +:+ func_name +:+ "' not found") 0 ;; ret VNone
      | Some f =>
          args <- visit_all (v_expr V) arg_nodes ;;
          let expected_params := map fst (f_params f) in
          if negb (List.length args =? List.length expected_params)%nat then
            _add_error ("Function '" +:+ func_name +:+ "' expects "
                        +:+ pretty (Z.of_nat (List.length expected_params))
                        +:+ " arguments but got "
                        +:+ pretty (Z.of_nat (List.length args))) 0 ;;
            ret VNone
          else
            casted <- cast_args func_name (f_params f) 0 expected_params args ;;
            match casted with
            | None => ret VNone
            | Some bound => call_function f bound
            end
      end.

(** *** Built-in mathematics *)

Inductive pow_result :=
  | PowValue (v : value)
  | PowRaises (e : string)
  | PowComplex.

Definition float_pow_result (x y : option pyfloat) : pow_result :=
  match x, y with
  | Some x, Some y =>
      match float_pow x y with
      | Some (inr r) => PowValue (VFloat r)
      | Some (inl e) => PowRaises e
      | None => PowComplex
      end
  | _, _ => PowRaises "int too large to convert to float"
  end.

(** [a ** b] *)
Definition py_pow (a b : value) : pow_result :=
  match a, b with
  | VInt x, VInt y =>
      if 0 <=? y then PowValue (VInt (x ^ y))
      else float_pow_result (float_of_int x) (float_of_int y)
  | VInt x, VFloat y => float_pow_result (float_of_int x) (Some y)
  | VFloat x, VInt y => float_pow_result (Some x) (float_of_int y)
  | VFloat x, VFloat y => float_pow_result (Some x) (Some y)
  | _, _ => PowRaises (unsupported "** or pow()" a b)
  end.

(** [int(result) if result.is_integer() else result] on a float *)
Definition integral_or_float (x : pyfloat) : M value :=
  if float_is_integer x then z <- lift_exn (float_to_int x) ;; ret (VInt z)
  else ret (VFloat x).

Definition is_none (v : value) : bool :=
  match v with VNone => true | _ => false end.

Definition _handle_squFor (args : list expr) : M value :=
  match args with
  | base_expr :: exponent_expr :: _ =>
      base <- v_expr V base_expr ;;
      exponent <- v_expr V exponent_expr ;;
      if is_none base || is_none exponent then
        _add_error "squFor function arguments cannot be None" 0 ;; ret (VInt 0)
      else if negb (is_number base) || negb (is_number exponent) then
        _add_error "squFor function requires numeric arguments" 0 ;; ret (VInt 0)
      else
        try_except
          (match py_pow base exponent with
           | PowValue (VFloat x) => integral_or_float x
           | PowValue v => ret v
           | PowRaises e => raise e
           | PowComplex => stop Unmodelled
           end)
          (fun e => _add_error ("Power calculation error: " +:+ e) 0 ;; ret (VInt 0))
  | _ =>
      _add_error "squFor function requires two arguments: base and exponent" 0 ;;
      ret (VInt 0)
  end.

(** [value < 0] *)
Definition below_zero (v : value) : M bool :=
  match py_order v (VInt 0) with
  | Ordered c => ret (holds "<" c)
  | OrderTypeError =>
      raise ("'<' not supported between instances of '" +:+ type_name_of v +:+ "' and 'int'")
  | OrderUnmodelled => stop Unmodelled
  end.

(** [math.sqrt(value)] and the integral result made an [int] *)
Definition square_root (v : value) : M value :=
  match v with
  | VInt z => x <- as_float z ;; integral_or_float (float_sqrt x)
  | VFloat x => integral_or_float (float_sqrt x)
  | _ => raise ("must be real number, not " +:+ type_name_of v)
  end.

(** [value ** (1/3)] and the integral result made an [int] *)
Definition cube_root (v : value) : M value :=
  match int_truediv 1 3 with
  | None => raise "integer division result too large for a float"
  | Some third =>
      match py_pow v (VFloat third) with
      | PowValue (VFloat x) => integral_or_float x
      | PowValue _ => stop Unmodelled
      | PowRaises e => raise e
      | PowComplex => raise "'complex' object has no attribute 'is_integer'"
      end
  end.

Definition _handle_rootFor (args : list expr) : M value :=
  match args with
  | value_expr :: root_type_expr :: _ =>
      value <- v_expr V value_expr ;;
      root_type <- v_expr V root_type_expr ;;
      if is_none value || is_none root_type then
        _add_error "rootFor function arguments cannot be None" 0 ;; ret (VInt 0)
      else
        let converted :=
          match root_type with
          | VInt _ | VFloat _ => Some root_type
          | VStr t => option_map VInt (int_of_text t)
          | _ => None
          end in
        match converted with
        | None =>
            text <- gets (fun s => py_str s root_type) ;;
            _add_error ("Root type must be a number, got: " +:+ text) 0 ;; ret (VInt 0)
        | Some root_type =>
            if default false (py_eq root_type (VInt 2)) then
              negative <- below_zero value ;;
              if negative then
                _add_error "Cannot calculate square root of negative number" 0 ;;
                ret (VInt 0)
              else square_root value
            else if default false (py_eq root_type (VInt 3)) then cube_root value
            else
              text <- gets (fun s => py_str s root_type) ;;
              _add_error ("Unsupported root type: " +:+ text
                          +:+ ". Use 2 for square root or 3 for cube root.") 0 ;;
              ret (VInt 0)
        end
  | _ =>
      _add_error "rootFor function requires two arguments: value and root_type" 0 ;;
      ret (VInt 0)
  end.

Definition _handle_d_root (args : list expr) : M value :=
  match args with
  | value_expr :: _ =>
      value <- v_expr V value_expr ;;
      if is_none value then
        _add_error "d.root function argument cannot be None" 0 ;; ret (VInt 0)
      else
        negative <- below_zero value ;;
        if negative then
          _add_error "Cannot calculate square root of negative number" 0 ;; ret (VInt 0)
        else square_root value
  | [] => _add_error "d.root function requires one argument" 0 ;; ret (VInt 0)
  end.

Definition _handle_t_root (args : list expr) : M value :=
  match args with
  | value_expr :: _ =>
      value <- v_expr V value_expr ;;
      if is_none value then
        _add_error "t.root function argument cannot be None" 0 ;; ret (VInt 0)
      else cube_root value
  | [] => _add_error "t.root function requires one argument" 0 ;; ret (VInt 0)
  end.

Definition visit_math_func_call (func_name : string) (args : list expr) : M value :=
  mark_used func_name ;;
  if String.eqb func_name "squFor" then _handle_squFor args
  else if String.eqb func_name "rootFor" then _handle_rootFor args
  else if String.eqb func_name "d.root" then _handle_d_root args
  else if String.eqb func_name "t.root" then _handle_t_root args
  else visit_func_call func_name args.

Definition visit_abs_expr (inner_expr : expr) : M value :=
  value <- v_expr V inner_expr ;;
  match value with
  | VNone =>
      _add_error "Absolute value expression cannot have None value" 0 ;; ret (VInt 0)
  | VInt z => ret (VInt (Z.abs z))
  | VFloat x => ret (VFloat (float_abs x))
  | _ =>
      _add_error ("Absolute value requires numeric argument, got " +:+ type_name_of value) 0 ;;
      ret (VInt 0)
  end.

(** *** Member access, input, lists *)

Definition visit_member_access_expr (obj_name attr_name : string) : M value :=
  defined <- env_is_defined obj_name ;;
  if negb defined then
    _add_error ("Object '" +:+ obj_name +:+ "' is not defined") 0 ;; ret VNone
  else
    obj <- env_get_value obj_name ;;
    has <- py_contains attr_name obj ;;
    if negb has then
      _add_error ("Object '" +:+ obj_name +:+ "' has no member '" +:+ attr_name +:+ "'") 0 ;;
      ret VNone
    else if String.eqb obj_name "now" && String.eqb attr_name "repeat" then
      bound <- env_is_defined "repeat" ;;
      if bound then env_get_value "repeat"
      else
        _add_error "'now.repeat' can only be used inside an Again loop that provides a repeat parameter" 0 ;;
        ret VNone
    else py_getitem obj attr_name.

Definition visit_member_access (obj_name attr_name : string) : M string :=
  defined <- env_is_defined obj_name ;;
  if negb defined then
    _add_error ("Object '" +:+ obj_name +:+ "' is not defined") 0 ;; ret ""
  else
    obj <- env_get_value obj_name ;;
    has <- py_contains attr_name obj ;;
    if negb has then
      _add_error ("Object '" +:+ obj_name +:+ "' has no member '" +:+ attr_name +:+ "'") 0 ;;
      ret ""
    else ret (obj_name +:+ "." +:+ attr_name).

(** [input(prompt)]: the prompt written, a line read; [None] at end of
    input. *)
Definition input (prompt : string) : M (option string) :=
  fun s =>
    let s := set_printed (printed s ++ [(Stdout, prompt)]) s in
    match stdin s with
    | line :: rest => (Ok (Some line), set_stdin rest s)
    | [] => (Ok None, s)
    end.

Definition visit_input_call_as_expr (prompt_token : string) : M value :=
  prompt <- visit (visit_STRING prompt_token) ;;
  text <- gets (fun s => py_str s prompt) ;;
  line <- input (esc +:+ "[94m[INFO] " +:+ text +:+ esc +:+ "[0m") ;;
  match line with
  | Some user_input => ret (VStr user_input)
  | None => _add_error "Unexpected end of input" 0 ;; ret (VStr "")
  end.

Definition visit_list_literal (elems : list (option expr)) : M value :=
  elements <- visit_all (fun child =>
                match child with
                | Some e => v_expr V e
                | None => ret VNone
                end) elems ;;
  new_list elements.

Definition visit_list_access (list_name : string) (index_node : expr) : M value :=
  index <- v_expr V index_node ;;
  poisoned <- gets (fun s => is_poisoned s list_name) ;;
  if poisoned then ret VNone
  else
    defined <- env_is_defined list_name ;;
    if negb defined then
      _add_error ("List '" +:+ list_name +:+ "' is not defined") 0 ;;
      poison list_name ;;
      ret VNone
    else
      current_list <- env_get_value list_name ;;
      match current_list with
      | VList r =>
          match index with
          | VInt i =>
              l <- gets (fun s => list_at s r) ;;
              if (i <? 0) || (Z.of_nat (List.length l) <=? i) then
                _add_error ("List index " +:+ pretty i +:+ " out of range for list of length "
                            +:+ pretty (Z.of_nat (List.length l))) 0 ;;
                ret VNone
              else ret (nth (Z.to_nat i) l VNone)
          | _ =>
              _add_error ("List index must be an integer, got " +:+ type_name_of index) 0 ;;
              ret VNone
          end
      | _ => _add_error ("'" +:+ list_name +:+ "' is not a list") 0 ;; ret VNone
      end.

Definition visit_factor (f : factor) : M value :=
  match f with
  | FMath name args => visit_math_func_call name args
  | FInput prompt => visit_input_call_as_expr prompt
  | FMember obj attr => visit_member_access_expr obj attr
  | FListLit elems => visit_list_literal elems
  | FListAccess name index => visit_list_access name index
  | FAbs inner => visit_abs_expr inner
  | FCall name args => visit_func_call name (default [] args)
  | FNumber text => visit (visit_NUMBER text)
  | FString text => visit (visit_STRING text)
  | FIdent name => visit (visit_IDENT name)
  | FParen inner => v_expr V inner
  end.

(** *** Definitions and assignment *)

(** The type a definition declares: the token under the [type_name] tree
    when it has one, ['int'] otherwise. *)
Definition declared_type (ty : type_node) : string :=
  match tn_children ty with
  | token :: _ => token
  | [] => "int"
  end.

Definition is_type_name (t : string) : bool :=
  bool_decide (t ∈ ["int"; "float"; "str"]).

(** The cast of an initial value: a number keeps its own type, anything
    else is cast into the declared one. *)
Definition cast_initial (val : value) (type_name var_name : string) : M value :=
  match val with
  | VInt _ => cast_type val "int" var_name
  | VFloat _ => cast_type val "float" var_name
  | _ => cast_type val type_name var_name
  end.

(** [default_values.get(type_name, None)] *)
Definition default_value (type_name : string) : M value :=
  if String.eqb type_name "int" then ret (VInt 0)
  else if String.eqb type_name "float" then x <- as_float 0 ;; ret (VFloat x)
  else if String.eqb type_name "str" then ret (VStr "")
  else ret VNone.

Definition visit_var_def (ty : type_node) (var_name : string) (init : option expr) : M unit :=
  let type_name := declared_type ty in
  if negb (is_type_name type_name) then
    _add_error ("Invalid type name: '" +:+ type_name +:+ "'") 0
  else
    poisoned <- gets (fun s => is_poisoned s var_name) ;;
    if poisoned then ret tt
    else
      defined <- env_is_defined var_name ;;
      if defined then
        _add_error ("Variable '" +:+ var_name +:+ "' is already defined") 0 ;;
        poison var_name
      else
        match init with
        | Some value_node =>
            value <- v_expr V value_node ;;
            casted_value <- cast_initial value type_name var_name ;;
            match casted_value with
            | VNone => ret tt
            | _ =>
                env_define_var var_name casted_value ;;
                mark_assigned var_name ;;
                mark_defined var_name
            end
        | None =>
            default <- default_value type_name ;;
            env_define_var var_name default ;;
            mark_defined var_name
        end.

Definition visit_const_def (ty : type_node) (const_name : string) (init : expr) : M unit :=
  let type_name := declared_type ty in
  if negb (is_type_name type_name) then
    _add_error ("Invalid type name: '" +:+ type_name +:+ "'") 0
  else
    poisoned <- gets (fun s => is_poisoned s const_name) ;;
    if poisoned then ret tt
    else
      defined <- env_is_defined const_name ;;
      if defined then
        _add_error ("Constant '" +:+ const_name +:+ "' is already defined") 0 ;;
        poison const_name
      else
        value <- v_expr V init ;;
        casted_value <- cast_initial value type_name const_name ;;
        match casted_value with
        | VNone => ret tt
        | _ =>
            env_define_const const_name casted_value ;;
            mark_assigned const_name ;;
            mark_defined const_name
        end.

(** [visit_assignment] once the right-hand side has its value. *)
Definition assign (var_name : string) (value : value) : M unit :=
  poisoned <- gets (fun s => is_poisoned s var_name) ;;
  if poisoned then ret tt
  else
    defined <- env_is_defined var_name ;;
    if negb defined then
      env_define_var var_name value ;;
      mark_defined var_name ;;
      mark_assigned var_name
    else
      constant <- env_is_constant var_name ;;
      if constant then
        _add_error ("Cannot assign values to constants afterward: '" +:+ var_name +:+ "'") 0
      else
        current_value <- env_get_value var_name ;;
        match current_value with
        | VNone => _add_error ("Variable '" +:+ var_name +:+ "' has no value") 0
        | _ =>
            let actual_type := type_name_of current_value in
            new_value <- cast_type value actual_type var_name ;;
            match new_value with
            | VNone => ret tt
            | _ => env_set_value var_name new_value ;; mark_assigned var_name
            end
        end.

Definition visit_assignment (var_name : string) (value_node : expr) : M unit :=
  value <- v_expr V value_node ;;
  assign var_name value.

Definition param_type_of (ty : type_node) : string :=
  if String.eqb (tn_data ty) "type_int" then "int"
  else if String.eqb (tn_data ty) "type_float" then "float"
  else if String.eqb (tn_data ty) "type_str" then "str"
  else "int".

Definition visit_func_def (func_name : string) (params : list (option param)) (body : block)
  : M unit :=
  poisoned <- gets (fun s => is_poisoned s func_name) ;;
  if poisoned then ret tt
  else
    defined <- env_is_defined func_name ;;
    if defined then
      _add_error ("Function '" +:+ func_name +:+ "' is already defined") 0 ;;
      poison func_name
    else
      let params :=
        omap (fun p => match p with
                       | Some p => Some (p_name p, param_type_of (p_type p))
                       | None => None
                       end) params in
      here <- gets env ;;
      env_define_func func_name (FuncInfo params body here) ;;
      mark_defined func_name.

Definition visit_back_stmt (value : option expr) : M unit :=
  match value with
  | Some expr_node =>
      return_value <- v_expr V expr_node ;;
      modify (set_return_value return_value)
  | None => modify (set_return_value VNone)
  end ;;
  modify (set_should_return true).

Definition visit_rep_stop : M unit := modify (set_should_break true).

Definition visit_input_call (prompt : string) : M unit :=
  _ <- visit_input_call_as_expr prompt ;; ret tt.

Definition visit_func_call_stmt (func_name : string) (args : option (list expr)) : M unit :=
  _ <- visit_func_call func_name (default [] args) ;; ret tt.

(** *** Blocks, loops and conditionals *)

Fixpoint visit_block (stmts : block) : M unit :=
  match stmts with
  | [] => ret tt
  | st :: rest =>
      halted <- gets (fun s => should_return s || should_break s) ;;
      if halted then ret tt
      else v_statement V st ;; visit_block rest
  end.

(** [if repeat_var:] *)
Definition bound_name (repeat_var : option string) : option string :=
  match repeat_var with
  | Some name => if String.eqb name "" then None else Some name
  | None => None
  end.

(** [if repeat_var: self.env.define_var(repeat_var, i + 1)] *)
Definition bind_index (repeat_var : option string) (i : Z) : M unit :=
  match bound_name repeat_var with
  | Some name => env_define_var name (VInt (i + 1))
  | None => ret tt
  end.

(** [for i in range(n)] from iteration [i] on, [n] iterations being left. *)
Fixpoint again_loop (repeat_var : option string) (body : block) (n : nat) (i : Z) : M unit :=
  match n with
  | O => ret tt
  | S n' =>
      broken <- gets should_break ;;
      if broken then ret tt
      else
        bind_index repeat_var i ;;
        visit_block body ;;
        broken <- gets should_break ;;
        if broken then ret tt
        else again_loop repeat_var body n' (i + 1)
  end.

(** [int(times)] when [times] is a number that is not below zero ([inl]:
    the conversion raises). *)
Definition iterations (times : value) : option (string + Z) :=
  match times with
  | VInt z => if z <? 0 then None else Some (inr z)
  | VFloat x =>
      if holds "<" (float_compare_int x 0) then None
      else Some (float_to_int x)
  | _ => None
  end.

Definition visit_again_stmt (times_expr : expr) (repeat_var : option string) (body : block)
  : M unit :=
  times <- v_expr V times_expr ;;
  match iterations times with
  | None => _add_error "Loop times must be a non-negative number" 0
  | Some count =>
      modify (set_should_break false) ;;
      n <- lift_exn count ;;
      again_loop repeat_var body (Z.to_nat n) 0 ;;
      match bound_name repeat_var with
      | Some name =>
          defined <- env_is_defined name ;;
          when defined (env_pop_var name)
      | None => ret tt
      end ;;
      modify (set_should_break false)
  end.

Definition visit_logic_op (node : logic_op) : M string :=
  gets (fun s =>
    let n := current_line_num s in
    let from_line :=
      if (0 <? n) && (n <=? Z.of_nat (List.length (original_lines s))) then
        let line := nth (Z.to_nat (n - 1)) (original_lines s) "" in
        if contains " and " line then Some "and"
        else if contains " or " line then Some "or"
        else None
      else None in
    match from_line with
    | Some op => op
    | None =>
        match lo_children node with
        | token :: _ => lower token
        | [] => "and"
        end
    end).

Definition visit_condition (node : condition) : M bool :=
  left <- v_expr V (c_left node) ;;
  let op := c_op node in
  right <- v_expr V (c_right node) ;;
  if String.eqb op "?" then
    match py_eq left right with
    | Some b => ret b
    | None => stop Unmodelled
    end
  else if String.eqb op "!" then
    match py_eq left right with
    | Some b => ret (negb b)
    | None => stop Unmodelled
    end
  else if bool_decide (op ∈ [">"; "<"; ">="; "<="]) then
    match py_order left right with
    | Ordered c => ret (holds op c)
    | OrderTypeError =>
        _add_error ("Comparison failed between " +:+ type_name_of left +:+ " and "
                    +:+ type_name_of right +:+ ": '" +:+ op
                    +:+ "' not supported between instances of '" +:+ type_name_of left
                    +:+ "' and '" +:+ type_name_of right +:+ "'") 0 ;;
        ret false
    | OrderUnmodelled => stop Unmodelled
    end
  else
    _add_error ("Unknown comparison operator: " +:+ op) 0 ;; ret false.

(** The first loop of [visit_conditions]: every child after the first
    visited in order, the operators and the results collected. *)
Fixpoint collect_conditions (rest : list (logic_op * condition))
  : M (list string * list bool) :=
  match rest with
  | [] => ret ([], [])
  | (op_node, c) :: rest' =>
      op <- visit (visit_logic_op op_node) ;;
      result <- v_condition V c ;;
      more <- collect_conditions rest' ;;
      ret (op :: fst more, result :: snd more)
  end.

(** The second loop of [visit_conditions] over the collected results;
    [inl op] when [op] is neither ['and'] nor ['or']. *)
Fixpoint combine_results (final_result : bool) (logic_ops : list string) (results : list bool)
  : string + bool :=
  match logic_ops, results with
  | op :: ops', r :: rs' =>
      if String.eqb op "and" then
        let final_result := final_result && r in
        if negb final_result then inr final_result
        else combine_results final_result ops' rs'
      else if String.eqb op "or" then
        let final_result := final_result || r in
        if final_result then inr final_result
        else combine_results final_result ops' rs'
      else inl op
  | _, _ => inr final_result
  end.

Definition visit_conditions (node : conditions) : M bool :=
  match cs_rest node with
  | [] => v_condition V (cs_first node)
  | rest =>
      first <- v_condition V (cs_first node) ;;
      collected <- collect_conditions rest ;;
      match combine_results first (fst collected) (snd collected) with
      | inr final_result => ret final_result
      | inl op =>
          _add_error ("Unknown logical operator: '" +:+ op +:+ "'") 0 ;; ret false
      end
  end.

Definition visit_cause_stmt (conds : conditions) (if_block : block) (or_block : option block)
  : M unit :=
  conditions_result <- v_conditions V conds ;;
  if conditions_result then visit_block if_block
  else match or_block with
       | Some b => visit_block b
       | None => ret tt
       end.

(** *** Output and list statements *)

(** The loop of [visit_output_stmt] over its arguments; [None] when an
    argument has no value. *)
Fixpoint output_parts (i : Z) (args : list expr) : M (option (list string)) :=
  match args with
  | [] => ret (Some [])
  | arg :: rest =>
      arg_value <- v_expr V arg ;;
      match arg_value with
      | VNone =>
          _add_error ("Invalid argument at position " +:+ pretty (i + 1)
                      +:+ " in output function") 0 ;;
          ret None
      | _ =>
          text <- gets (fun s => py_str s arg_value) ;;
          more <- output_parts (i + 1) rest ;;
          ret (option_map (cons text) more)
      end
  end.

Definition join (parts : list string) : string :=
  fold_right String.append "" parts.

Definition visit_output_stmt (obj attr : string) (args : option (list expr)) : M unit :=
  full_func_name <- visit (visit_member_access obj attr) ;;
  if String.eqb full_func_name "" || negb (contains "." full_func_name) then
    _add_error ("Invalid member access: " +:+ full_func_name) 0
  else if negb (bool_decide (full_func_name ∈ ["out.Info"; "out.Warn"; "out.Error"])) then
    _add_error ("Invalid output function: " +:+ full_func_name) 0
  else
    msg_parts <- output_parts 0 (default [] args) ;;
    match msg_parts with
    | None => ret tt
    | Some parts =>
        let full_msg := join parts in
        modify (set_has_output true) ;;
        if String.eqb full_func_name "out.Info" then
          print Stdout (esc +:+ "[94m[INFO] " +:+ full_msg +:+ esc +:+ "[0m")
        else if String.eqb full_func_name "out.Warn" then
          print Stderr (esc +:+ "[93m[WARN] " +:+ full_msg +:+ esc +:+ "[0m")
        else
          print Stderr (esc +:+ "[91m[ERROR] " +:+ full_msg +:+ esc +:+ "[0m")
    end.

Definition visit_list_def (list_name : string) (literal : list (option expr)) : M unit :=
  poisoned <- gets (fun s => is_poisoned s list_name) ;;
  if poisoned then ret tt
  else
    defined <- env_is_defined list_name ;;
    if defined then
      _add_error ("List '" +:+ list_name +:+ "' is already defined") 0 ;;
      poison list_name
    else
      list_value <- v_list_literal V literal ;;
      env_define_var list_name list_value ;;
      mark_defined list_name ;;
      mark_assigned list_name.

(** The method of a list statement, read off the source line. *)
Definition method_on_line (s : state) : string :=
  let n := current_line_num s in
  if (0 <? n) && (n <=? Z.of_nat (List.length (original_lines s))) then
    let line := strip (nth (Z.to_nat (n - 1)) (original_lines s) "") in
    if contains ".add(" line then "add"
    else if contains ".clear(" line then "clear"
    else ""
  else "".

Definition visit_list_method_call (list_name : string) (arg : option expr) : M unit :=
  method_name <- gets method_on_line ;;
  if String.eqb method_name "" then
    _add_error "Invalid list method call: could not extract method name" 0
  else
    poisoned <- gets (fun s => is_poisoned s list_name) ;;
    if poisoned then ret tt
    else
      defined <- env_is_defined list_name ;;
      if negb defined then
        _add_error ("List '" +:+ list_name +:+ "' is not defined") 0 ;;
        poison list_name
      else
        current_list <- env_get_value list_name ;;
        match current_list with
        | VList r =>
            if String.eqb method_name "add" then
              match arg with
              | None => _add_error "List.add method requires an element to add" 0
              | Some element_node =>
                  element <- v_expr V element_node ;;
                  update_list r (fun l => l ++ [element]) ;;
                  env_set_value list_name current_list ;;
                  mark_assigned list_name
              end
            else
              match arg with
              | Some _ => _add_error "List.clear method should not have arguments" 0
              | None =>
                  update_list r (fun _ => []) ;;
                  env_set_value list_name current_list ;;
                  mark_assigned list_name
              end
        | _ => _add_error ("'" +:+ list_name +:+ "' is not a list") 0
        end.

(** *** Statements *)

(** The method [visit] dispatches to on the child of a [statement]. *)
Definition visit_kind (st : stmt) : M unit :=
  match st with
  | SConstDef ty name init => visit_const_def ty name init
  | SVarDef ty name init => visit_var_def ty name init
  | SAssignment name value => visit_assignment name value
  | SCause conds if_block or_block => visit_cause_stmt conds if_block or_block
  | SOutput obj attr args => visit_output_stmt obj attr args
  | SInputCall prompt => visit_input_call prompt
  | SAgain times repeat_var body => visit_again_stmt times repeat_var body
  | SRepStop => visit_rep_stop
  | SListMethodCall name arg => visit_list_method_call name arg
  | SListDef name literal => visit_list_def name literal
  | SFuncDef name params body => visit_func_def name params body
  | SFuncCallStmt name args => visit_func_call_stmt name args
  | SBackStmt value => visit_back_stmt value
  end.

Definition visit_statement (st : stmt) : M unit := v_kind V st.

End Visit.

(** ** [self.visit], by depth *)

Definition no_visitors : visitors :=
  Visitors (fun _ => stop OutOfFuel) (fun _ => stop OutOfFuel) (fun _ => stop OutOfFuel)
           (fun _ => stop OutOfFuel) (fun _ => stop OutOfFuel) (fun _ => stop OutOfFuel)
           (fun _ => stop OutOfFuel) (fun _ => stop OutOfFuel) (fun _ => stop OutOfFuel).

Fixpoint visitors_at (fuel : nat) : visitors :=
  match fuel with
  | O => no_visitors
  | S fuel' =>
      let V := visitors_at fuel' in
      Visitors
        (fun e => visit (visit_expr V e))
        (fun t => visit (visit_term V t))
        (fun f => visit (visit_factor V f))
        (fun st => visit (visit_statement V st))
        (fun st => visit (visit_kind V st))
        (fun b => visit (visit_block V b))
        (fun cs => visit (visit_conditions V cs))
        (fun c => visit (visit_condition V c))
        (fun l => visit (visit_list_literal V l))
  end.

(** ** [RuntimeChecker.execute] *)

(** The names [collect_defined_vars] meets under a statement, in the order
    of its walk. *)
Fixpoint defined_names (st : stmt) : list string :=
  match st with
  | SVarDef _ name _ | SConstDef _ name _ | SListDef name _ | SAssignment name _ => [name]
  | SFuncDef name _ body => name :: flat_map defined_names body
  | SCause _ if_block or_block =>
      flat_map defined_names if_block
      ++ match or_block with
         | Some b => flat_map defined_names b
         | None => []
         end
  | SAgain _ _ body => flat_map defined_names body
  | _ => []
  end.

Definition collect_defined_vars (ast : list top_item) : M unit :=
  modify (fun s =>
    let names := flat_map (fun item => match item with
                                       | TopStatement _ st => defined_names st
                                       | TopNewline => []
                                       end) ast in
    let kept := filter (fun name => name ∉ error_vars_list s) names in
    set_defined_vars (list_to_set kept ∪ defined_vars s) s).

(** [check_unused_vars]; the names come in the order [elements] lists
    them, Python's set giving none. *)
Definition check_unused_vars : M unit :=
  fun s =>
    let unused := elements (defined_vars s ∖ used_variables s) in
    let reported := filter (fun name => name ∉ error_vars_list s) unused in
    if debug_mode s || debug_plus_mode s then (Ok tt, s)
    else (Ok tt,
          set_printed
            (printed s ++ map (fun name => (Stderr, warn_line ("'" +:+ name
                                         +:+ "' is defined but not used"))) reported) s).

(** One turn of the loop of [execute]: the child of [start] at index [i]
    visited, an exception recorded as an error. *)
Definition run_statement (fuel : nat) (i : Z) (item : top_item) : M unit :=
  modify (set_current_line_num
            match item with
            | TopStatement (Some line) _ => line
            | _ => i + 1
            end) ;;
  try_except
    match item with
    | TopStatement _ st => v_statement (visitors_at fuel) st
    | TopNewline => ret tt
    end
    (fun error_msg =>
       if has_marker error_msg then ret tt
       else line <- gets current_line_num ;; _add_error error_msg line).

(** The loop of [execute] over the children of [start], from index [i]. *)
Fixpoint run_statements (fuel : nat) (i : Z) (items : list top_item) : M unit :=
  match items with
  | [] => ret tt
  | item :: rest => run_statement fuel i item ;; run_statements fuel (i + 1) rest
  end.

(** [execute] on what the parser returned for the code. *)
Definition execute (fuel : nat) (ast : option (list top_item)) : M unit :=
  match ast with
  | None => ret tt
  | Some items =>
      collect_defined_vars items ;;
      modify (set_current_line_num 1) ;;
      run_statements fuel 0 items ;;
      check_unused_vars
  end.

(** [RuntimeChecker()] followed by [set_debug_mode]. *)
Definition builtin_objects : gmap string value :=
  <["out" := VObj (<["Info" := "out.Info"]> (<["Warn" := "out.Warn"]>
                     (<["Error" := "out.Error"]> ∅)))]>
  (<["rep" := VObj (<["stop" := "rep.stop"]> ∅)]>
  (<["now" := VObj (<["repeat" := "now.repeat"]> ∅)]>
  (<["back" := VObj (<["value" := "back.value"]> ∅)]> ∅))).

Definition new_checker (debug debug_plus : bool) (lines : list string) (input_lines : list string)
  : state :=
  State [Env builtin_objects ∅ ∅ None] 0%nat [] ∅ ∅ ∅ ∅ [] [] false
        debug debug_plus lines 0 false VNone false input_lines [].

End Evaluator.

Notation "x <- m ;; k" := (bind m (fun x => k))
  (at level 20, m at level 99, k at level 200, only parsing) : eval_scope.
Notation "m ;; k" := (bind m (fun _ => k))
  (at level 100, k at level 200, only parsing) : eval_scope.
Open Scope eval_scope.

(** ** A host for closed examples

    [int_host] has no float at all: every conversion to a float overflows
    and no text parses as one.  A run that never asks for a float is the
    same under every host, so the examples below are stated for all hosts
    first and instantiated here. *)
#[export] Instance int_host : HostFloat := {|
  pyfloat := Empty_set;
  float_of_int := fun _ => None;
  float_parse := fun _ => None;
  float_repr := fun x => match x with end;
  float_is_integer := fun x => match x with end;
  float_to_int := fun x => match x with end;
  float_add := fun x _ => x;
  float_sub := fun x _ => x;
  float_mul := fun x _ => x;
  float_div := fun x _ => x;
  int_truediv := fun _ _ => None;
  float_compare := fun x _ => match x with end;
  float_compare_int := fun x _ => match x with end;
  float_abs := fun x => x;
  float_sqrt := fun x => x;
  float_pow := fun x _ => match x with end;
  int_of_text := parse_int;
|}.

#[export] Instance type_text : HostText := {|
  container_str := fun _ v => "<" +:+ type_name_of v +:+ ">";
|}.

(** ** The driver and the preprocessor (main.py, syntax_checker.py) *)

Definition newline : ascii := "010"%char.

(** [s.split('\n')] *)
Fixpoint split_lines (s : string) : list string :=
  match s with
  | EmptyString => [EmptyString]
  | String c rest =>
      if Ascii.eqb c newline then EmptyString :: split_lines rest
      else
        match split_lines rest with
        | line :: lines => String c line :: lines
        | [] => [String c EmptyString]
        end
  end.

(** ['\n'.join(lines)] *)
Fixpoint join_lines (lines : list string) : string :=
  match lines with
  | [] => EmptyString
  | line :: rest =>
      match rest with
      | [] => line
      | _ :: _ => line +:+ String newline (join_lines rest)
      end
  end.

(** [enumerate(lines, start)] *)
Fixpoint enumerate {A} (start : Z) (l : list A) : list (Z * A) :=
  match l with
  | [] => []
  | x :: rest => (start, x) :: enumerate (start + 1) rest
  end.

(** main.py, [extract_debug_directives_and_clean_code]: one turn of the
    loop, on [(debug_mode, debug_plus_mode, cleaned_lines)]. *)
Definition directive_step (acc : bool * bool * list string) (line : string)
  : bool * bool * list string :=
  let '(debug_mode, debug_plus_mode, cleaned_lines) := acc in
  let stripped_line := strip line in
  if String.eqb stripped_line "@debug=true" then (true, debug_plus_mode, cleaned_lines)
  else if String.eqb stripped_line "@debug=false" then (false, debug_plus_mode, cleaned_lines)
  else if String.eqb stripped_line "@debugPL=true" then (debug_mode, true, cleaned_lines)
  else if String.eqb stripped_line "@debugPL=false" then (debug_mode, false, cleaned_lines)
  else (debug_mode, debug_plus_mode, cleaned_lines ++ [line]).

Definition extract_debug_directives_and_clean_code (code : string) : bool * bool * string :=
  let lines := split_lines code in
  let '(debug_mode, debug_plus_mode, cleaned_lines) :=
    fold_left directive_step lines (false, false, []) in
  (debug_mode, debug_plus_mode, join_lines cleaned_lines).

(** syntax_checker.py: the fields of [SyntaxChecker] that [preprocess_code]
    and [_add_error] read and write. *)
Module SyntaxChecker.

Record checker := {
  errors : list string;
  debug_mode : bool;
  debug_plus_mode : bool;
  original_lines : list string;
}.

(** [SyntaxChecker()] *)
Definition new : checker :=
  {| errors := []; debug_mode := false; debug_plus_mode := false; original_lines := [] |}.

Definition set_debug_mode (debug debug_plus : bool) (lines : list string) (self : checker)
  : checker :=
  {| errors := errors self; debug_mode := debug; debug_plus_mode := debug_plus;
     original_lines := lines |}.

Definition _add_error (error_msg : string) (line_num : Z) (self : checker) : checker :=
  let full_error_msg :=
    if debug_plus_mode self then
      let line_content :=
        if (0 <? line_num) && (line_num <=? Z.of_nat (List.length (original_lines self)))
        then rstrip (nth (Z.to_nat (line_num - 1)) (original_lines self) "")
        else "" in
      esc +:+ "[33m[Line " +:+ pretty line_num +:+ ": " +:+ line_content +:+ "]"
      +:+ esc +:+ "[0m " +:+ esc +:+ "[91m[ERROR] " +:+ error_msg +:+ esc +:+ "[0m"
    else if debug_mode self then
      esc +:+ "[33m[Line " +:+ pretty line_num +:+ "]"
      +:+ esc +:+ "[0m " +:+ esc +:+ "[91m[ERROR] " +:+ error_msg +:+ esc +:+ "[0m"
    else esc +:+ "[91m[ERROR] " +:+ error_msg +:+ esc +:+ "[0m" in
  if bool_decide (full_error_msg ∈ errors self) then self
  else {| errors := errors self ++ [full_error_msg]; debug_mode := debug_mode self;
          debug_plus_mode := debug_plus_mode self; original_lines := original_lines self |}.

(** The locals of [preprocess_code] and the checker, through its loop. *)
Record scan := {
  in_block_comment : bool;
  block_comment_start_line : Z;
  processed_lines : list string;
  self : checker;
}.

(** One turn of [for line_num, line in enumerate(lines, 1)]. *)
Definition preprocess_line (acc : scan) (numbered : Z * string) : scan :=
  let '(line_num, line) := numbered in
  let original_line := rstrip line in
  let stripped_line := strip original_line in
  if String.eqb stripped_line "" then acc
  else if startswith "@None" stripped_line then acc
  else if startswith "#X" stripped_line && negb (in_block_comment acc) then
    {| in_block_comment := true; block_comment_start_line := line_num;
       processed_lines := processed_lines acc; self := self acc |}
  else if startswith "#Y" stripped_line then
    if in_block_comment acc then
      {| in_block_comment := false;
         block_comment_start_line := block_comment_start_line acc;
         processed_lines := processed_lines acc; self := self acc |}
    else
      {| in_block_comment := in_block_comment acc;
         block_comment_start_line := block_comment_start_line acc;
         processed_lines := processed_lines acc;
         self := _add_error "Unexpected block comment end '#Y'" line_num (self acc) |}
  else if in_block_comment acc then acc
  else
    {| in_block_comment := in_block_comment acc;
       block_comment_start_line := block_comment_start_line acc;
       processed_lines := processed_lines acc ++ [original_line];
       self := self acc |}.

Definition preprocess_code (code : string) (c : checker) : string * checker :=
  let lines := split_lines code in
  let r := fold_left preprocess_line (enumerate 1 lines)
             {| in_block_comment := false; block_comment_start_line := 0;
                processed_lines := []; self := c |} in
  (join_lines (processed_lines r),
   if in_block_comment r then
     _add_error ("Unclosed block comment starting at line "
                 +:+ pretty (block_comment_start_line r))
       (block_comment_start_line r) (self r)
   else self r).

End SyntaxChecker.

(** What the properties say of lines. *)

(** No line feed in [s]: [s] is one line. *)
Fixpoint no_newline (s : string) : bool :=
  match s with
  | EmptyString => true
  | String c rest => negb (Ascii.eqb c newline) && no_newline rest
  end.

(** A line [extract_debug_directives_and_clean_code] takes for a directive. *)
Definition is_directive (line : string) : bool :=
  bool_decide (strip line ∈ ["@debug=true"; "@debug=false"; "@debugPL=true"; "@debugPL=false"]).

(** A line that is neither blank, nor an [@None] line, nor the start or the
    end of a block comment. *)
Definition code_line (line : string) : bool :=
  negb (String.eqb (strip line) "")
  && negb (startswith "@None" (strip line))
  && negb (startswith "#X" (strip line))
  && negb (startswith "#Y" (strip line)).

(** A line that starts or ends a block comment. *)
Definition comment_mark (line : string) : bool :=
  startswith "#X" (strip line) || startswith "#Y" (strip line).

(** ** Notions used by the properties *)

Section Notions.
Context `{HF : HostFloat} `{HT : !HostText}.

(** [m] only moves the state along [R]. *)
Definition mrel {A} (R : relation state) (m : M A) : Prop :=
  forall s o s', m s = (o, s') -> R s s'.

(** The state changes an expression makes by itself. *)
Inductive quiet_step : state -> state -> Prop :=
  | qs_error msg line s : quiet_step s (record_error msg line s)
  | qs_poison name s : quiet_step s (set_error_vars_list (error_vars_list s ++ [name]) s)
  | qs_used x s : quiet_step s (set_used_variables x s)
  | qs_warned x s : quiet_step s (set_warned_vars x s)
  | qs_printed x s : quiet_step s (set_printed x s)
  | qs_stdin x s : quiet_step s (set_stdin x s)
  | qs_lists x s : quiet_step s (set_lists x s).

(** The state changes a statement makes by itself, [define_const] apart. *)
Inductive store_step : state -> state -> Prop :=
  | ss_quiet s s' : quiet_step s s' -> store_step s s'
  | ss_defined x s : store_step s (set_defined_vars x s)
  | ss_assigned x s : store_step s (set_assigned_vars x s)
  | ss_has_output s : store_step s (set_has_output true s)
  | ss_return_value v s : store_step s (set_return_value v s)
  | ss_should_return s : store_step s (set_should_return true s)
  | ss_should_break b s : store_step s (set_should_break b s)
  | ss_define_var name v s :
      store_step s (set_envs (define_var (envs s) (env s) name v) s)
  | ss_define_func name f s :
      store_step s (set_envs (define_func (envs s) (env s) name f) s)
  | ss_pop_var name s :
      store_step s (set_envs (pop_var (envs s) (env s) name) s)
  | ss_set_value name v E s :
      set_value (envs s) (env s) name v = inr E -> store_step s (set_envs E s).

(** Every visitor of [V] moves the state along [Re] (expressions and
    conditions) or [Rs] (statements and blocks). *)
Record visitors_ok (Re Rs : relation state) (V : visitors) : Prop := {
  ok_expr : forall e, mrel Re (v_expr V e);
  ok_term : forall t, mrel Re (v_term V t);
  ok_factor : forall f, mrel Re (v_factor V f);
  ok_statement : forall st, mrel Rs (v_statement V st);
  ok_kind : forall st, mrel Rs (v_kind V st);
  ok_block : forall b, mrel Rs (v_block V b);
  ok_conditions : forall c, mrel Re (v_conditions V c);
  ok_condition : forall c, mrel Re (v_condition V c);
  ok_list_literal : forall l, mrel Re (v_list_literal V l);
}.

(** What no visit undoes: a recorded error, a poisoned name, a pending
    return. *)
Record later (s s' : state) : Prop := {
  errors_kept : forall msg, msg ∈ errors s -> msg ∈ errors s';
  poison_kept : forall name, name ∈ error_vars_list s -> name ∈ error_vars_list s';
  return_kept : should_return s = true -> should_return s' = true;
}.

(** The state an [Again] statement leaves when its block ran no more:
    the index name, if bound and defined, removed from the current scope,
    and [should_break] cleared. *)
Definition loop_exit (repeat_var : option string) (s : state) : state :=
  set_should_break false
    match bound_name repeat_var with
    | Some name =>
        if is_defined (envs s) (env s) name
        then set_envs (pop_var (envs s) (env s) name) s
        else s
    | None => s
    end.


(** A text or a list on one side of [*] and an integer on the other. *)
Definition repeats (a b : value) : bool :=
  match a, b with
  | (VStr _ | VList _), VInt _ | VInt _, (VStr _ | VList _) => true
  | _, _ => false
  end.

Definition now_repeat_error : string :=
  "'now.repeat' can only be used inside an Again loop that provides a repeat parameter".

(** The constants of the environments of [E], as [E'] has them: every
    environment of [E] is still there with the constants it had, the one at
    index [growing] (if any) with those and perhaps more. *)
Definition constants_kept (growing : option nat) (E E' : list Environment) : Prop :=
  forall e sc, E !! e = Some sc ->
    exists sc', E' !! e = Some sc'
      /\ if bool_decide (growing = Some e) then constants sc ⊆ constants sc'
         else constants sc' = constants sc.

(** What an expression leaves as it was: the current environment and every
    table of constants. *)
Record keeps (s s' : state) : Prop := {
  keeps_env : env s' = env s;
  keeps_constants : constants_kept None (envs s) (envs s');
}.

(** What a statement leaves as it was: the same, but that the current
    environment may have more constants. *)
Record grows (s s' : state) : Prop := {
  grows_env : env s' = env s;
  grows_constants : constants_kept (Some (env s)) (envs s) (envs s');
}.

(** The environment that binds [name] in one of its tables, searched from
    [e] outwards as [is_defined] searches. *)
Fixpoint binder_from (depth : nat) (E : list Environment) (e : nat) (name : string)
  : option (nat * Environment) :=
  match depth with
  | O => None
  | S depth' =>
      match E !! e with
      | None => None
      | Some sc =>
          if has_key (variables sc) name || has_key (constants sc) name
             || has_key (functions sc) name
          then Some (e, sc)
          else match parent sc with
               | Some p => binder_from depth' E p name
               | None => None
               end
      end
  end.

Definition binder (E : list Environment) (e : nat) (name : string)
  : option (nat * Environment) :=
  binder_from (List.length E) E e name.

(** The state a definition leaves when it is turned down with [msg]: the
    error recorded and the name poisoned. *)
Definition rejected (msg name : string) (s : state) : state :=
  set_error_vars_list (error_vars_list (record_error msg 0 s) ++ [name])
    (record_error msg 0 s).

(** What the diagnostics of [s] are to those of [s']: the errors recorded
    and the names poisoned so far are still there, in their order, and no
    error has come to stand twice in the list. *)
Record extends (s s' : state) : Prop := {
  errors_prefix : errors s `prefix_of` errors s';
  poisoned_prefix : error_vars_list s `prefix_of` error_vars_list s';
  errors_nodup : NoDup (errors s) -> NoDup (errors s');
}.

(** The frame of the caller: the current environment, and the pending
    return with its value. *)
Record same_frame (s s' : state) : Prop := {
  frame_env : env s' = env s;
  frame_should_return : should_return s' = should_return s;
  frame_return_value : return_value s' = return_value s;
}.

Definition same_env (s s' : state) : Prop := env s' = env s.

(** The names of the environments of [E], as [E'] has them: every
    environment of [E] is still there with its parent, and, the one at index
    [open] apart, with the same variable names, constants and functions. *)
Definition scopes_kept (open : option nat) (E E' : list Environment) : Prop :=
  forall e sc, E !! e = Some sc ->
    exists sc', E' !! e = Some sc'
      /\ parent sc' = parent sc
      /\ (open <> Some e ->
          dom (variables sc') = dom (variables sc)
          /\ constants sc' = constants sc
          /\ functions sc' = functions sc).

Record hygienic (s s' : state) : Prop := {
  hygienic_env : env s' = env s;
  hygienic_scopes : scopes_kept None (envs s) (envs s');
}.

Record hygienic_but_here (s s' : state) : Prop := {
  here_env : env s' = env s;
  here_scopes : scopes_kept (Some (env s)) (envs s) (envs s');
}.

(** A number or a text: a value whose text does not depend on the state. *)
Definition plain (v : value) : bool := is_number v || is_str v.

(** The line an output function prints, and where. *)
Definition output_line (attr msg : string) : channel * string :=
  if String.eqb attr "Info" then (Stdout, esc +:+ "[94m[INFO] " +:+ msg +:+ esc +:+ "[0m")
  else if String.eqb attr "Warn" then (Stderr, esc +:+ "[93m[WARN] " +:+ msg +:+ esc +:+ "[0m")
  else (Stderr, esc +:+ "[91m[ERROR] " +:+ msg +:+ esc +:+ "[0m").

End Notions.

(** ** Example programs

    Each is the tree the parser builds for the lines given with it;
    [run_program] is [main]'s use of the evaluator: a fresh checker, the
    source lines handed over by [set_debug_mode], then [execute]. *)

Definition lit (f : factor) : expr := Expr (Term f []) [].
Definition int_type : type_node := TypeNode "type_int" [].
Definition text (t : string) : factor := FString (dquote +:+ t +:+ dquote).

Definition run_program `{HF : HostFloat} `{HT : !HostText}
    (lines : list string) (ast : list top_item) : state :=
  snd (execute 20 (Some ast) (new_checker false false lines [])).

(** The messages of [errors], as [_add_error] was given them. *)
Definition error_line (msg : string) : string :=
  esc +:+ "[91m[ERROR] " +:+ msg +:+ esc +:+ "[0m".

Definition define_i_lines : list string := ["New int i -> 5"].
Definition define_i : list top_item :=
  [ TopStatement None (SVarDef int_type "i" (Some (lit (FNumber "5")))) ].

Definition zero_loop_lines : list string := ["New int i -> 5"; "Again(0, i) ["; "]"].
Definition zero_loop : list top_item :=
  define_i ++
  [ TopNewline; TopStatement None (SAgain (lit (FNumber "0")) (Some "i") []) ].

(** The environment [self.env] of a state. *)
Definition current_scope `{HF : HostFloat} `{HT : !HostText} (s : state) : Environment :=
  default (Env ∅ ∅ ∅ None) (envs s !! env s).

Definition quoted (t : string) : string := dquote +:+ t +:+ dquote.

Definition typed_x_lines : list string := ["New int x -> 1"].
Definition typed_x : list top_item :=
  [ TopStatement None (SVarDef int_type "x" (Some (lit (FNumber "1")))) ].
Definition cast_twice_lines : list string :=
  typed_x_lines ++ ["x -> " +:+ quoted "abc"; "x -> " +:+ quoted "def"].
Definition cast_twice : list top_item :=
  typed_x ++ [ TopNewline; TopStatement None (SAssignment "x" (lit (text "abc")));
               TopNewline; TopStatement None (SAssignment "x" (lit (text "def"))) ].

Definition const_c_lines : list string := ["Const int c -> 1"].
Definition const_c : list top_item :=
  [ TopStatement None (SConstDef int_type "c" (lit (FNumber "1"))) ].
Definition poisoned_const_lines : list string := const_c_lines ++ ["New int c -> 2"; "c -> 5"].
Definition poisoned_const : list top_item :=
  const_c ++ [ TopNewline; TopStatement None (SVarDef int_type "c" (Some (lit (FNumber "2"))));
               TopNewline; TopStatement None (SAssignment "c" (lit (FNumber "5"))) ].

Definition loop_i_lines : list string := ["Again(1, i) ["; "x -> now.repeat"; "]"].
Definition loop_i : list top_item :=
  [ TopStatement None (SAgain (lit (FNumber "1")) (Some "i")
      [ SAssignment "x" (lit (FMember "now" "repeat")) ]) ].


Definition redefined_x_lines : list string :=
  typed_x_lines ++ ["New int x -> 2"; "Again(1, x) ["; "]"; "y -> x"].
Definition redefined_x : list top_item :=
  typed_x ++ [ TopNewline; TopStatement None (SVarDef int_type "x" (Some (lit (FNumber "2"))));
               TopNewline; TopStatement None (SAgain (lit (FNumber "1")) (Some "x") []);
               TopNewline; TopStatement None (SAssignment "y" (lit (FIdent "x"))) ].

Definition repeated_text_lines : list string := ["x -> " +:+ quoted "ab" +:+ " * 2"].
Definition repeated_text : list top_item :=
  [ TopStatement None (SAssignment "x" (Expr (Term (text "ab") [("*", FNumber "2")]) [])) ].

Definition cast_once_lines : list string := typed_x_lines ++ ["x -> " +:+ quoted "abc"].
Definition cast_once : list top_item :=
  typed_x ++ [ TopNewline; TopStatement None (SAssignment "x" (lit (text "abc"))) ].

(** [x -> 1 - "a"] *)
Definition int_minus_text : stmt :=
  SAssignment "x" (Expr (Term (FNumber "1") []) [("-", Term (text "a") [])]).

(** A function with a variable of its own. *)
Definition local_y_lines : list string :=
  ["Fuc f() ["; "New int y -> 1"; "back.value(y)"; "]"].
Definition f_body_y : list stmt :=
  [ SVarDef int_type "y" (Some (lit (FNumber "1"))); SBackStmt (Some (lit (FIdent "y"))) ].
Definition local_y : list top_item := [ TopStatement None (SFuncDef "f" [None] f_body_y) ].

Definition list_x_lines : list string := ["New List x => [1, 2]"; "x.add(3)"].
Definition list_x : list top_item :=
  [ TopStatement None (SListDef "x" [Some (lit (FNumber "1")); Some (lit (FNumber "2"))]) ].

(** A function of one integer, called with a text that spells none. *)
Definition bad_argument_lines : list string :=
  ["Fuc g(int a) ["; "back.value(a)"; "]"; "g(" +:+ quoted "abc" +:+ ")"].
Definition g_body : list stmt := [ SBackStmt (Some (lit (FIdent "a"))) ].
Definition bad_argument : list top_item :=
  [ TopStatement None (SFuncDef "g" [Some (Param int_type "a")] g_body);
    TopNewline; TopStatement None (SFuncCallStmt "g" (Some [lit (text "abc")])) ].

(** Source text, as [main] reads it. *)
Definition spaced_code : string :=
  join_lines ["New int x -> 1  "; ""; "@None a note"; "x -> 2"].
Definition unclosed_code : string := join_lines ["x -> 1"; "#X a note"; "x -> 2"].

(** A loop stopped in its first iteration, between two assignments. *)
Definition stopped_loop_lines : list string :=
  ["Again(100, i) ["; "x -> i"; "rep.stop"; "y -> 1"; "]"].
Definition before_stop : list stmt := [ SAssignment "x" (lit (FIdent "i")) ].
Definition after_stop : list stmt := [ SAssignment "y" (lit (FNumber "1")) ].
Definition stopped_loop : list top_item :=
  [ TopStatement None
      (SAgain (lit (FNumber "100")) (Some "i") (before_stop ++ SRepStop :: after_stop)) ].

(** A loop over [repeat] that prints [now.repeat]. *)
Definition print_repeat_lines : list string :=
  ["Again(3, repeat) ["; "out.Info(now.repeat)"; "]"].
Definition print_repeat_body : list stmt :=
  [ SOutput "out" "Info" (Some [lit (FMember "now" "repeat")]) ].
Definition print_repeat : list top_item :=
  [ TopStatement None (SAgain (lit (FNumber "3")) (Some "repeat") print_repeat_body) ].

(** A return at top level, then an assignment and a conditional. *)
Definition return_then_lines : list string :=
  ["back.value()"; "x -> 1"; "Cause 1 ? 1 ["; "y -> 2"; "]"].
Definition assign_x_1 : stmt := SAssignment "x" (lit (FNumber "1")).
Definition return_then : list top_item :=
  [ TopStatement None (SBackStmt None);
    TopNewline; TopStatement None assign_x_1;
    TopNewline;
    TopStatement None
      (SCause (Conditions (Condition (lit (FNumber "1")) "?" (lit (FNumber "1"))) [])
         [ SAssignment "y" (lit (FNumber "2")) ] None) ].

(** A list and an [add], in a file whose second line is blank: the
    statements are the children 0 and 2 of [start], and the third line of
    the file is the line of the [add]. *)
Definition list_add_lines : list string := ["New List x => [1, 2]"; ""; "x.add(3)"].
Definition add_3 : stmt := SListMethodCall "x" (Some (lit (FNumber "3"))).
Definition list_add : list top_item := list_x ++ [ TopNewline; TopStatement None add_3 ].

(** The state in which [execute] comes to the child 2 of [list_add]. *)
Definition before_add : state :=
  snd ((collect_defined_vars list_add ;;
        modify (set_current_line_num 1) ;;
        run_statements 20 0 (list_x ++ [TopNewline]))
         (new_checker false false list_add_lines [])).

(** ** Properties *)

Create HintDb mrel.

Ltac mfin := unfold modify, ret, gets, raise, stop.

Section Properties.
Context `{HF : HostFloat} `{HT : !HostText}.

#[local] Hint Constructors quiet_step store_step : mrel.

(** *** Running the monad *)

Lemma bind_bind {A B C} (m : M A) (k : A -> M B) (k' : B -> M C) s :
  bind (bind m k) k' s = bind m (fun a => bind (k a) k') s.
Proof. unfold bind. by destruct (m s) as [[] ?]. Qed.
Lemma bind_gets {A B} (f : state -> A) (k : A -> M B) s : bind (gets f) k s = k (f s) s.
Proof. reflexivity. Qed.
Lemma bind_ret {A B} (a : A) (k : A -> M B) s : bind (ret a) k s = k a s.
Proof. reflexivity. Qed.
Lemma bind_modify {B} f (k : unit -> M B) s : bind (modify f) k s = k tt (f s).
Proof. reflexivity. Qed.
Lemma bind_raise {A B} e (k : A -> M B) s : bind (raise e) k s = (Raise e, s).
Proof. reflexivity. Qed.
Lemma bind_stop {A B} r (k : A -> M B) s : bind (stop r) k s = (Stop r, s).
Proof. reflexivity. Qed.
Lemma bind_ext {A B} (m : M A) (k k' : A -> M B) s :
  (forall a s', k a s' = k' a s') -> bind m k s = bind m k' s.
Proof. intros Hk. unfold bind. destruct (m s) as [[] ?]; auto. Qed.
Lemma bind_run {A B} (m : M A) (k : A -> M B) s a s' :
  m s = (Ok a, s') -> bind m k s = k a s'.
Proof. unfold bind. by intros ->. Qed.

Ltac mrun :=
  repeat first
    [ rewrite bind_bind | rewrite bind_gets | rewrite bind_ret | rewrite bind_modify
    | rewrite bind_raise | rewrite bind_stop
    | progress unfold env_is_defined, env_is_constant, env_get_value, env_set_value,
        env_define_var, env_define_const, env_define_func, env_pop_var,
        _add_error, poison, mark_used, mark_defined, mark_assigned, mark_warned,
        print, when, lift_exn
    | progress cbv beta iota
    | progress cbn [negb andb orb] ].


(** *** Movement of the state along a relation *)

Section Rel.
Variable R : relation state.
Context {PO : PreOrder R}.

Lemma mrel_ret {A} (a : A) : mrel R (ret a).
Proof. intros s o s' [= <- <-]. reflexivity. Qed.
Lemma mrel_raise {A} e : mrel R (raise (A:=A) e).
Proof. intros s o s' [= <- <-]. reflexivity. Qed.
Lemma mrel_stop {A} r : mrel R (stop (A:=A) r).
Proof. intros s o s' [= <- <-]. reflexivity. Qed.
Lemma mrel_gets {A} (f : state -> A) : mrel R (gets f).
Proof. intros s o s' [= <- <-]. reflexivity. Qed.
Lemma mrel_modify f : (forall s, R s (f s)) -> mrel R (modify f).
Proof. intros Hf s o s' [= <- <-]. apply Hf. Qed.
Lemma mrel_bind {A B} (m : M A) (k : A -> M B) :
  mrel R m -> (forall a, mrel R (k a)) -> mrel R (bind m k).
Proof.
  intros Hm Hk s o s'. unfold bind.
  destruct (m s) as [[a|e|r] s1] eqn:Em; intros Hr.
  - etransitivity; [eapply Hm; eauto | eapply Hk; eauto].
  - injection Hr as <- <-. eapply Hm; eauto.
  - injection Hr as <- <-. eapply Hm; eauto.
Qed.
Lemma mrel_visit {A} (m : M A) : mrel R m -> mrel R (visit m).
Proof.
  intros Hm s o s'. unfold visit.
  destruct (m s) as [[a|e|r] s1] eqn:Em; [| destruct (has_marker e) |];
    intros [= <- <-]; eapply Hm; eauto.
Qed.
Lemma mrel_try_except {A} (m : M A) h :
  mrel R m -> (forall e, mrel R (h e)) -> mrel R (try_except m h).
Proof.
  intros Hm Hh s o s'. unfold try_except.
  destruct (m s) as [[a|e|r] s1] eqn:Em; intros Hr.
  - injection Hr as <- <-. eapply Hm; eauto.
  - etransitivity; [eapply Hm; eauto | eapply Hh; eauto].
  - injection Hr as <- <-. eapply Hm; eauto.
Qed.
Lemma mrel_when c m : mrel R m -> mrel R (when c m).
Proof. destruct c; simpl; auto using mrel_ret. Qed.
Lemma mrel_lift_exn {A} (r : string + A) : mrel R (lift_exn r).
Proof. destruct r; simpl; auto using mrel_ret, mrel_raise. Qed.
End Rel.

Lemma bind_ext_along {A B} (R : relation state) (m : M A) (k k' : A -> M B) s :
  mrel R m -> (forall a s', R s s' -> k a s' = k' a s') -> bind m k s = bind m k' s.
Proof.
  intros Hm Hk. unfold bind. destruct (m s) as [[a|e|r] s1] eqn:Em; auto.
  apply Hk. eapply Hm; eauto.
Qed.

Lemma mrel_weaken {A} (R R' : relation state) (m : M A) :
  (forall s s', R s s' -> R' s s') -> mrel R m -> mrel R' m.
Proof. intros HR Hm s o s' Hr. eauto. Qed.


Section Invariant.
Variables Re Rs : relation state.
Context {POe : PreOrder Re} {POs : PreOrder Rs}.
Hypothesis Re_Rs : forall s s', Re s s' -> Rs s s'.
Hypothesis quiet_ok : forall s s', quiet_step s s' -> Re s s'.
Hypothesis store_ok : forall s s', store_step s s' -> Rs s s'.
Hypothesis call_ok : forall f bound s s',
  Rs (enter_call f bound s) s' -> Re s (leave_call s s').

Lemma up {A} (m : M A) : mrel Re m -> mrel Rs m.
Proof. apply mrel_weaken, Re_Rs. Qed.

Ltac mrel_go :=
  repeat match goal with
  | |- mrel _ (ret _) => apply mrel_ret; exact _
  | |- mrel _ (raise _) => apply mrel_raise; exact _
  | |- mrel _ (stop _) => apply mrel_stop; exact _
  | |- mrel _ (gets _) => apply mrel_gets; exact _
  | |- mrel _ (bind _ _) => apply mrel_bind; try exact _; [|intros]
  | |- mrel _ (visit _) => apply mrel_visit; try exact _
  | |- mrel _ (try_except _ _) => apply mrel_try_except; try exact _; [|intros]
  | |- mrel _ (when _ _) => apply mrel_when; try exact _
  | |- mrel _ (lift_exn _) => apply mrel_lift_exn; exact _
  | |- mrel _ (match ?x with _ => _ end) => destruct x
  | |- mrel Re (modify _) =>
      apply mrel_modify; try exact _; intros; apply quiet_ok; solve [eauto 2 with mrel]
  | |- mrel Rs (modify _) =>
      apply mrel_modify; try exact _; intros; apply store_ok; solve [eauto 3 with mrel]
  | |- mrel _ _ => solve [eauto with mrel]
  end.

Lemma e_add_error msg line : mrel Re (_add_error msg line).
Proof. unfold _add_error. mrel_go. Qed.
Lemma e_poison name : mrel Re (poison name).
Proof. unfold poison. mrel_go. Qed.
Lemma e_mark_used name : mrel Re (mark_used name).
Proof. unfold mark_used. mrel_go. Qed.
Lemma e_mark_warned name : mrel Re (mark_warned name).
Proof. unfold mark_warned. mrel_go. Qed.
Lemma e_print c t : mrel Re (print c t).
Proof. unfold print. mrel_go. Qed.
Lemma e_new_list l : mrel Re (new_list l).
Proof. intros s o s' [= <- <-]. apply quiet_ok. constructor. Qed.
Lemma e_input p : mrel Re (input p).
Proof.
  intros s o s'. unfold input. simpl.
  destruct (stdin s); intros [= <- <-].
  - apply quiet_ok. constructor.
  - etransitivity; [eapply quiet_ok, qs_printed | eapply quiet_ok, qs_stdin].
Qed.
Lemma e_is_defined name : mrel Re (env_is_defined name).
Proof. unfold env_is_defined. mrel_go. Qed.
Lemma e_is_constant name : mrel Re (env_is_constant name).
Proof. unfold env_is_constant. mrel_go. Qed.
Lemma e_get_value name : mrel Re (env_get_value name).
Proof. unfold env_get_value. mrel_go. Qed.
Lemma e_as_float z : mrel Re (as_float z).
Proof. unfold as_float. mrel_go. Qed.
#[local] Hint Resolve e_add_error e_poison e_mark_used e_mark_warned e_print e_new_list
  e_input e_is_defined e_is_constant e_get_value e_as_float : mrel.
#[local] Hint Extern 1 (mrel Rs _) => (apply up; eauto with mrel; fail) : mrel.

Lemma e_py_add a b : mrel Re (py_add a b).
Proof. unfold py_add. mrel_go. Qed.
Lemma e_py_sub a b : mrel Re (py_sub a b).
Proof. unfold py_sub. mrel_go. Qed.
Lemma e_py_mul a b : mrel Re (py_mul a b).
Proof. unfold py_mul. mrel_go. Qed.
Lemma e_py_truediv a b : mrel Re (py_truediv a b).
Proof. unfold py_truediv. mrel_go. Qed.
Lemma e_py_contains i o : mrel Re (py_contains i o).
Proof. unfold py_contains. mrel_go. Qed.
Lemma e_py_getitem o k : mrel Re (py_getitem o k).
Proof. unfold py_getitem. mrel_go. Qed.
Lemma e_cast_type v t n : mrel Re (cast_type v t n).
Proof. unfold cast_type. mrel_go. Qed.
#[local] Hint Resolve e_py_add e_py_sub e_py_mul e_py_truediv e_py_contains e_py_getitem
  e_cast_type : mrel.

Lemma s_mark_defined name : mrel Rs (mark_defined name).
Proof. unfold mark_defined. mrel_go. Qed.
Lemma s_mark_assigned name : mrel Rs (mark_assigned name).
Proof. unfold mark_assigned. mrel_go. Qed.
Lemma s_define_var name v : mrel Rs (env_define_var name v).
Proof. unfold env_define_var. mrel_go. Qed.
Lemma s_define_func name f : mrel Rs (env_define_func name f).
Proof. unfold env_define_func. mrel_go. Qed.
Lemma s_pop_var name : mrel Rs (env_pop_var name).
Proof. unfold env_pop_var. mrel_go. Qed.
Lemma s_set_value name v : mrel Rs (env_set_value name v).
Proof.
  intros s o s'. unfold env_set_value, bind, gets. simpl.
  destruct (set_value (envs s) (env s) name v) as [e|E] eqn:Es;
    unfold raise, modify; intros [= <- <-].
  - reflexivity.
  - apply store_ok. eapply ss_set_value; eauto.
Qed.
Lemma s_update_list r f : mrel Rs (update_list r f).
Proof. unfold update_list. mrel_go. Qed.
#[local] Hint Resolve s_mark_defined s_mark_assigned s_define_var s_define_func s_pop_var
  s_set_value s_update_list : mrel.

Section Bodies.
Variable V : visitors.
Hypothesis HV : visitors_ok Re Rs V.

Lemma hv_expr e : mrel Re (v_expr V e). Proof. apply HV. Qed.
Lemma hv_term t : mrel Re (v_term V t). Proof. apply HV. Qed.
Lemma hv_factor f : mrel Re (v_factor V f). Proof. apply HV. Qed.
Lemma hv_statement st : mrel Rs (v_statement V st). Proof. apply HV. Qed.
Lemma hv_kind st : mrel Rs (v_kind V st). Proof. apply HV. Qed.
Lemma hv_block b : mrel Rs (v_block V b). Proof. apply HV. Qed.
Lemma hv_conditions c : mrel Re (v_conditions V c). Proof. apply HV. Qed.
Lemma hv_condition c : mrel Re (v_condition V c). Proof. apply HV. Qed.
Lemma hv_list_literal l : mrel Re (v_list_literal V l). Proof. apply HV. Qed.
#[local] Hint Resolve hv_expr hv_term hv_factor hv_statement hv_kind hv_block
  hv_conditions hv_condition hv_list_literal : mrel.

Lemma e_visit_all {A B} (f : A -> M B) xs :
  (forall x, mrel Re (f x)) -> mrel Re (visit_all f xs).
Proof. intros Hf. induction xs; simpl; mrel_go. Qed.

Lemma e_visit_IDENT n : mrel Re (visit_IDENT n).
Proof. unfold visit_IDENT. mrel_go. Qed.
Lemma e_visit_NUMBER n : mrel Re (visit_NUMBER n).
Proof. unfold visit_NUMBER. mrel_go. Qed.
Lemma e_visit_STRING n : mrel Re (visit_STRING n).
Proof. unfold visit_STRING. mrel_go. Qed.
Lemma e_add_values a b : mrel Re (add_values a b).
Proof. unfold add_values. mrel_go. Qed.
#[local] Hint Resolve e_visit_IDENT e_visit_NUMBER e_visit_STRING e_add_values : mrel.

Lemma e_expr_loop rest : forall left, mrel Re (expr_loop V rest left).
Proof. induction rest as [|[op t] rest IH]; intros left; simpl; mrel_go. Qed.
Lemma e_visit_expr e : mrel Re (visit_expr V e).
Proof. unfold visit_expr. pose proof e_expr_loop. mrel_go. Qed.
Lemma e_term_loop rest : forall left, mrel Re (term_loop V rest left).
Proof. induction rest as [|[op t] rest IH]; intros left; simpl; mrel_go. Qed.
Lemma e_visit_term e : mrel Re (visit_term V e).
Proof. unfold visit_term. pose proof e_term_loop. mrel_go. Qed.

Lemma e_cast_args fn ps names : forall i args, mrel Re (cast_args fn ps i names args).
Proof. induction names; intros i [|v args]; simpl; mrel_go. Qed.

Lemma e_call_function f bound : mrel Re (call_function V f bound).
Proof.
  intros s o s'. unfold call_function.
  destruct (v_block V (f_body f) (enter_call f bound s)) as [[a|e|r] s1] eqn:Eb;
    intros [= <- <-]; eapply call_ok, hv_block; eauto.
Qed.
#[local] Hint Resolve e_cast_args e_call_function e_visit_all : mrel.

Lemma e_visit_func_call n args : mrel Re (visit_func_call V n args).
Proof. unfold visit_func_call. mrel_go. Qed.
#[local] Hint Resolve e_visit_func_call : mrel.

Lemma e_handle_squFor args : mrel Re (_handle_squFor V args).
Proof. unfold _handle_squFor, integral_or_float. mrel_go. Qed.
Lemma e_below_zero v : mrel Re (below_zero v).
Proof. unfold below_zero. mrel_go. Qed.
Lemma e_square_root v : mrel Re (square_root v).
Proof. unfold square_root, integral_or_float. mrel_go. Qed.
Lemma e_cube_root v : mrel Re (cube_root v).
Proof. unfold cube_root, integral_or_float. mrel_go. Qed.
#[local] Hint Resolve e_below_zero e_square_root e_cube_root : mrel.
Lemma e_handle_rootFor args : mrel Re (_handle_rootFor V args).
Proof. unfold _handle_rootFor. mrel_go. Qed.
Lemma e_handle_d_root args : mrel Re (_handle_d_root V args).
Proof. unfold _handle_d_root. mrel_go. Qed.
Lemma e_handle_t_root args : mrel Re (_handle_t_root V args).
Proof. unfold _handle_t_root. mrel_go. Qed.
#[local] Hint Resolve e_handle_squFor e_handle_rootFor e_handle_d_root e_handle_t_root : mrel.
Lemma e_visit_math_func_call n args : mrel Re (visit_math_func_call V n args).
Proof. unfold visit_math_func_call. mrel_go. Qed.
Lemma e_visit_abs_expr e : mrel Re (visit_abs_expr V e).
Proof. unfold visit_abs_expr. mrel_go. Qed.
Lemma e_visit_member_access_expr o a : mrel Re (visit_member_access_expr o a).
Proof. unfold visit_member_access_expr. mrel_go. Qed.
Lemma e_visit_member_access o a : mrel Re (visit_member_access o a).
Proof. unfold visit_member_access. mrel_go. Qed.
Lemma e_visit_input_call_as_expr p : mrel Re (visit_input_call_as_expr p).
Proof. unfold visit_input_call_as_expr. mrel_go. Qed.
Lemma e_visit_list_literal l : mrel Re (visit_list_literal V l).
Proof. unfold visit_list_literal. mrel_go. apply e_visit_all. intros []; mrel_go. Qed.
Lemma e_visit_list_access n i : mrel Re (visit_list_access V n i).
Proof. unfold visit_list_access. mrel_go. Qed.
#[local] Hint Resolve e_visit_math_func_call e_visit_abs_expr e_visit_member_access_expr
  e_visit_member_access e_visit_input_call_as_expr e_visit_list_literal
  e_visit_list_access : mrel.
Lemma e_visit_factor f : mrel Re (visit_factor V f).
Proof. unfold visit_factor. mrel_go. Qed.

Lemma e_cast_initial v t n : mrel Re (cast_initial v t n).
Proof. unfold cast_initial. mrel_go. Qed.
Lemma e_default_value t : mrel Re (default_value t).
Proof. unfold default_value. mrel_go. Qed.
#[local] Hint Resolve e_cast_initial e_default_value : mrel.

Lemma s_visit_var_def ty n init : mrel Rs (visit_var_def V ty n init).
Proof. unfold visit_var_def. mrel_go. Qed.
Lemma s_visit_const_def_simple ty n init :
  (forall name v, mrel Rs (env_define_const name v)) ->
  mrel Rs (visit_const_def V ty n init).
Proof. intros Hc. unfold visit_const_def. mrel_go. Qed.
Lemma s_assign n v : mrel Rs (assign n v).
Proof. unfold assign. mrel_go. Qed.
#[local] Hint Resolve s_assign : mrel.
Lemma s_visit_assignment n e : mrel Rs (visit_assignment V n e).
Proof. unfold visit_assignment. mrel_go. Qed.
Lemma s_visit_func_def n ps b : mrel Rs (visit_func_def n ps b).
Proof. unfold visit_func_def. mrel_go. Qed.
Lemma s_visit_back_stmt v : mrel Rs (visit_back_stmt V v).
Proof. unfold visit_back_stmt. mrel_go. Qed.
Lemma s_visit_rep_stop : mrel Rs visit_rep_stop.
Proof. unfold visit_rep_stop. mrel_go. Qed.
Lemma s_visit_input_call p : mrel Rs (visit_input_call p).
Proof. unfold visit_input_call. mrel_go. Qed.
Lemma s_visit_func_call_stmt n args : mrel Rs (visit_func_call_stmt V n args).
Proof. unfold visit_func_call_stmt. mrel_go. Qed.

Lemma s_visit_block b : mrel Rs (visit_block V b).
Proof. induction b; simpl; mrel_go. Qed.
#[local] Hint Resolve s_visit_block : mrel.
Lemma s_bind_index rv i : mrel Rs (bind_index rv i).
Proof. unfold bind_index. mrel_go. Qed.
#[local] Hint Resolve s_bind_index : mrel.
Lemma s_again_loop rv b n : forall i, mrel Rs (again_loop V rv b n i).
Proof. induction n; intros i; simpl; mrel_go. Qed.
#[local] Hint Resolve s_again_loop : mrel.
Lemma s_visit_again_stmt t rv b : mrel Rs (visit_again_stmt V t rv b).
Proof. unfold visit_again_stmt. mrel_go. Qed.

Lemma e_visit_logic_op n : mrel Re (visit_logic_op n).
Proof. unfold visit_logic_op. mrel_go. Qed.
Lemma e_visit_condition c : mrel Re (visit_condition V c).
Proof. unfold visit_condition. mrel_go. Qed.
#[local] Hint Resolve e_visit_logic_op : mrel.
Lemma e_collect_conditions rest : mrel Re (collect_conditions V rest).
Proof. induction rest as [|[op c] rest IH]; simpl; mrel_go. Qed.
#[local] Hint Resolve e_collect_conditions : mrel.
Lemma e_visit_conditions c : mrel Re (visit_conditions V c).
Proof. unfold visit_conditions. mrel_go. Qed.
Lemma s_visit_cause_stmt c b1 b2 : mrel Rs (visit_cause_stmt V c b1 b2).
Proof. unfold visit_cause_stmt. mrel_go. Qed.

Lemma e_output_parts args : forall i, mrel Re (output_parts V i args).
Proof. induction args; intros i; simpl; mrel_go. Qed.
#[local] Hint Resolve e_output_parts : mrel.
Lemma s_visit_output_stmt o a args : mrel Rs (visit_output_stmt V o a args).
Proof. unfold visit_output_stmt. mrel_go. Qed.
Lemma s_visit_list_def n l : mrel Rs (visit_list_def V n l).
Proof. unfold visit_list_def. mrel_go. Qed.
Lemma s_visit_list_method_call n a : mrel Rs (visit_list_method_call V n a).
Proof. unfold visit_list_method_call. mrel_go. Qed.

End Bodies.

Hypothesis const_def_ok : forall V, visitors_ok Re Rs V ->
  forall ty n init, mrel Rs (visit_const_def V ty n init).

Lemma s_visit_kind V st : visitors_ok Re Rs V -> mrel Rs (visit_kind V st).
Proof.
  intros HV. destruct st; simpl;
    eauto using s_visit_var_def, s_visit_assignment, s_visit_cause_stmt,
      s_visit_output_stmt, s_visit_input_call, s_visit_again_stmt, s_visit_rep_stop,
      s_visit_list_method_call, s_visit_list_def, s_visit_func_def,
      s_visit_func_call_stmt, s_visit_back_stmt.
Qed.

Lemma visitors_at_ok fuel : visitors_ok Re Rs (visitors_at fuel).
Proof.
  induction fuel as [|fuel IH]; simpl.
  - split; intros; apply mrel_stop; exact _.
  - split; intros; apply mrel_visit; try exact _.
    + by apply e_visit_expr.
    + by apply e_visit_term.
    + by apply e_visit_factor.
    + unfold visit_statement. apply IH.
    + by apply s_visit_kind.
    + by apply s_visit_block.
    + by apply e_visit_conditions.
    + by apply e_visit_condition.
    + by apply e_visit_list_literal.
Qed.

End Invariant.

#[local] Instance later_preorder : PreOrder later.
Proof.
  split.
  - intros s. split; auto.
  - intros s1 s2 s3 [] []. split; auto.
Qed.

Lemma record_error_errors msg line s m :
  m ∈ errors s -> m ∈ errors (record_error msg line s).
Proof.
  unfold record_error. case_bool_decide; simpl; auto.
  intros. apply elem_of_app. auto.
Qed.

Lemma later_quiet s s' : quiet_step s s' -> later s s'.
Proof.
  destruct 1; split; simpl; auto.
  - apply record_error_errors.
  - unfold record_error. case_bool_decide; auto.
  - unfold record_error. case_bool_decide; auto.
  - intros. apply elem_of_app. auto.
Qed.

Lemma later_store s s' : store_step s s' -> later s s'.
Proof.
  destruct 1; try (split; simpl; auto; fail).
  by apply later_quiet.
Qed.

Lemma later_call f bound s s' : later (enter_call f bound s) s' -> later s (leave_call s s').
Proof.
  intros [He Hp _]. split; simpl; auto.
Qed.

Lemma later_visit fuel :
  visitors_ok later later (visitors_at fuel).
Proof.
  pose proof later_quiet. pose proof later_store. pose proof later_call.
  apply visitors_at_ok; try exact _; auto.
  intros V HV ty n init.
  eapply s_visit_const_def_simple with (Re := later); try exact _; eauto.
  intros name v. apply mrel_modify. intros s. split; simpl; auto.
Qed.

(** *** Lookups in the current scope *)

Lemma cast_attempt_type s v t v' :
  cast_attempt s v t = CastOk v' -> type_name_of v' = t /\ v' <> VNone.
Proof.
  unfold cast_attempt.
  destruct (String.eqb t "int") eqn:Ei.
  { apply String.eqb_eq in Ei as ->.
    destruct v; try discriminate.
    - intros [= <-]. done.
    - destruct (float_is_integer x); [|discriminate].
      destruct (float_to_int x); [discriminate|]. intros [= <-]. done.
    - destruct (_ || _); [|discriminate].
      destruct (parse_int s0); [|discriminate]. intros [= <-]. done. }
  destruct (String.eqb t "float") eqn:Ef.
  { apply String.eqb_eq in Ef as ->.
    destruct v; try discriminate.
    - destruct (float_of_int z); [|discriminate]. intros [= <-]. done.
    - intros [= <-]. done.
    - destruct (float_parse s0); [|discriminate]. intros [= <-]. done. }
  destruct (String.eqb t "str") eqn:Es; [|discriminate].
  apply String.eqb_eq in Es as ->. intros [= <-]. done.
Qed.

Lemma is_defined_here E e env name :
  E !! e = Some env ->
  is_defined E e name =
    if has_key (variables env) name || has_key (constants env) name
       || has_key (functions env) name
    then true
    else match parent env with
         | Some p => is_defined_from (List.length E - 1) E p name
         | None => false
         end.
Proof.
  intros He. unfold is_defined.
  pose proof (lookup_lt_Some _ _ _ He) as Hlt.
  destruct (List.length E) as [|n] eqn:Hn; [lia|].
  simpl. rewrite He. replace (n - 0)%nat with n by lia. reflexivity.
Qed.

Lemma get_value_here E e env name :
  E !! e = Some env ->
  get_value E e name =
    match constants env !! name with
    | Some v => Some v
    | None =>
        match variables env !! name with
        | Some v => Some v
        | None =>
            match functions env !! name with
            | Some f => Some (VFunc f)
            | None => match parent env with
                      | Some p => get_value_from (List.length E - 1) E p name
                      | None => None
                      end
            end
        end
    end.
Proof.
  intros He. unfold get_value.
  pose proof (lookup_lt_Some _ _ _ He) as Hlt.
  destruct (List.length E) as [|n] eqn:Hn; [lia|].
  simpl. rewrite He. replace (n - 0)%nat with n by lia. reflexivity.
Qed.

Lemma record_error_recorded msg line s :
  full_error_msg s msg line ∈ errors (record_error msg line s).
Proof.
  unfold record_error. case_bool_decide; simpl; [done|].
  apply elem_of_app. right. by apply list_elem_of_singleton.
Qed.

(** *** The scope a name resolves to *)

Lemma is_defined_from_mono depth : forall E e name depth',
  is_defined_from depth E e name = true -> (depth <= depth')%nat ->
  is_defined_from depth' E e name = true.
Proof.
  induction depth as [|depth IH]; intros E e name depth'; simpl; [discriminate|].
  intros Hd Hle. destruct depth' as [|depth']; [lia|]. simpl.
  destruct (E !! e) as [sc|]; [|discriminate].
  destruct (_ || _); [reflexivity|].
  destruct (parent sc); [|discriminate]. apply IH; [done|lia].
Qed.

Lemma binder_from_defined depth : forall E e name a sc,
  binder_from depth E e name = Some (a, sc) -> is_defined_from depth E e name = true.
Proof.
  induction depth as [|depth IH]; intros E e name a sc; simpl; [discriminate|].
  destruct (E !! e) as [sc0|]; [|discriminate].
  destruct (_ || _); [reflexivity|].
  destruct (parent sc0); [apply IH|discriminate].
Qed.

Lemma binder_from_lookup depth : forall E e name a sc,
  binder_from depth E e name = Some (a, sc) -> E !! a = Some sc.
Proof.
  induction depth as [|depth IH]; intros E e name a sc; simpl; [discriminate|].
  destruct (E !! e) as [sc0|] eqn:He; [|discriminate].
  destruct (_ || _); [by intros [= <- <-]|].
  destruct (parent sc0); [apply IH|discriminate].
Qed.

Lemma binder_from_get_value depth : forall E e name a sc,
  binder_from depth E e name = Some (a, sc) ->
  get_value_from depth E e name
  = match constants sc !! name with
    | Some v => Some v
    | None => match variables sc !! name with
              | Some v => Some v
              | None => VFunc <$> functions sc !! name
              end
    end.
Proof.
  induction depth as [|depth IH]; intros E e name a sc; simpl; [discriminate|].
  destruct (E !! e) as [sc0|] eqn:He; [|discriminate]. unfold has_key.
  destruct (variables sc0 !! name) eqn:Hv; simpl.
  { intros [= <- <-]. rewrite Hv. by destruct (constants sc0 !! name). }
  destruct (constants sc0 !! name) eqn:Hc; simpl.
  { intros [= <- <-]. by rewrite Hc. }
  destruct (functions sc0 !! name) eqn:Hf; simpl.
  { intros [= <- <-]. by rewrite Hc, Hv, Hf. }
  destruct (parent sc0); [apply IH|discriminate].
Qed.

Lemma binder_from_is_constant depth E e name a sc :
  binder_from depth E e name = Some (a, sc) ->
  is_constant E e name = if bool_decide (a = e) then has_key (constants sc) name else false.
Proof.
  destruct depth as [|depth]; simpl; [discriminate|]. unfold is_constant.
  destruct (E !! e) as [sc0|] eqn:He; [|discriminate].
  destruct (_ || _) eqn:Hk.
  - intros [= <- <-]. by rewrite bool_decide_eq_true_2.
  - apply orb_false_elim in Hk as [Hk _]. apply orb_false_elim in Hk as [_ Hc].
    rewrite Hc. destruct (parent sc0) as [p|]; [|discriminate]. intros Hb.
    case_bool_decide as Ha; [|reflexivity]. subst a.
    apply binder_from_lookup in Hb. congruence.
Qed.

Lemma binder_from_set_value depth v : forall E e name a sc,
  (depth <= List.length E)%nat ->
  binder_from depth E e name = Some (a, sc) ->
  set_value_from depth E e name v
  = if has_key (constants sc) name then inl ("Cannot modify constant: " +:+ name)
    else if has_key (variables sc) name then inr (<[a := put_var name v sc]> E)
    else set_value_from depth E e name v.
Proof.
  induction depth as [|depth IH]; intros E e name a sc Hle; simpl; [discriminate|].
  destruct (E !! e) as [sc0|] eqn:He; [|discriminate].
  destruct (_ || _) eqn:Hk.
  - intros [= <- <-].
    destruct (has_key (constants sc0) name); [reflexivity|].
    destruct (has_key (variables sc0) name); reflexivity.
  - apply orb_false_elim in Hk as [Hk Hf]. apply orb_false_elim in Hk as [Hv Hc].
    rewrite Hc, Hv.
    destruct (parent sc0) as [p|]; [|discriminate]. intros Hb.
    assert (Hd : is_defined E p name = true).
    { unfold is_defined. eapply is_defined_from_mono.
      - eapply binder_from_defined; eauto.
      - lia. }
    rewrite Hd. rewrite (IH E p name a sc) by (done || lia).
    destruct (has_key (constants sc) name); [reflexivity|].
    destruct (has_key (variables sc) name); reflexivity.
Qed.

(** An assignment to a name that is defined, not poisoned, not a constant
    of the current scope, and holds a value: the cast, then the store. *)
Lemma assign_cast name v cv s :
  is_poisoned s name = false ->
  is_defined (envs s) (env s) name = true ->
  is_constant (envs s) (env s) name = false ->
  get_value (envs s) (env s) name = Some cv ->
  cv <> VNone ->
  assign name v s
  = match cast_attempt s v (type_name_of cv) with
    | CastOk v' => (env_set_value name v' ;; mark_assigned name) s
    | CastEscapes e => (Raise e, s)
    | CastError e =>
        (text <- gets (fun s => py_str s v) ;;
         _add_error ("Cannot cast '" +:+ text +:+ "' to type '" +:+ type_name_of cv +:+ "'"
                     +:+ for_variable name
                     +:+ (if String.eqb e "" then "" else " - " +:+ e)) 0 ;;
         when (negb (String.eqb name "")) (poison name)) s
    | CastUnsupported =>
        (_add_error ("Unsupported type: '" +:+ type_name_of cv +:+ "'"
                     +:+ for_variable name) 0 ;;
         when (negb (String.eqb name "")) (poison name)) s
    end.
Proof.
  intros Hp Hdef Hcon Hget Hnn.
  assert (Hrun : assign name v s =
    (new_value <- cast_type v (type_name_of cv) name ;;
     match new_value with
     | VNone => ret tt
     | _ => env_set_value name new_value ;; mark_assigned name
     end) s).
  { unfold assign. mrun. rewrite Hp. mrun. rewrite Hdef. mrun.
    rewrite Hcon. mrun. rewrite Hget. mrun. by destruct cv. }
  rewrite Hrun. clear Hrun.
  unfold cast_type. mrun. rewrite Hp, andb_false_r. mrun.
  destruct (cast_attempt s v (type_name_of cv)) as [v'|e|e|] eqn:Hcast.
  - destruct (cast_attempt_type _ _ _ _ Hcast) as [_ Hv'].
    mrun. by destruct v'.
  - mrun. unfold when. destruct (negb _); mrun; mfin; reflexivity.
  - by mrun.
  - mrun. unfold when. destruct (negb _); mrun; mfin; reflexivity.
Qed.

Lemma record_error_envs msg line s : envs (record_error msg line s) = envs s.
Proof. unfold record_error. by case_bool_decide. Qed.

(** C1, as amended.  Let [name] resolve, from the current scope outwards,
    to a variable holding [old].  An assignment to it, the name not being
    poisoned, casts the new value into the type of [old]: when the cast
    succeeds the variable holds the cast value, of that same type, and no
    error is recorded; when it fails an error is recorded, the name is
    poisoned and no binding changes.  Where [old] is no value the error
    "has no value" is recorded.  An assignment to a poisoned name does
    nothing and records nothing. *)
Theorem assignment_keeps_type name v old s a sc :
  name <> "" ->
  binder (envs s) (env s) name = Some (a, sc) ->
  constants sc !! name = None ->
  variables sc !! name = Some old ->
  if is_poisoned s name then assign name v s = (Ok tt, s)
  else
    match old with
    | VNone =>
        assign name v s
        = (Ok tt, record_error ("Variable '" +:+ name +:+ "' has no value") 0 s)
    | _ =>
        match cast_attempt s v (type_name_of old) with
        | CastOk v' =>
            type_name_of v' = type_name_of old
            /\ exists s', assign name v s = (Ok tt, s')
                 /\ envs s' = <[a := put_var name v' sc]> (envs s)
                 /\ errors s' = errors s
        | CastEscapes e => assign name v s = (Raise e, s)
        | _ =>
            exists s' msg, assign name v s = (Ok tt, s')
              /\ envs s' = envs s
              /\ full_error_msg s msg 0 ∈ errors s'
              /\ is_poisoned s' name = true
        end
    end.
Proof.
  intros Hname Hb Hc Hv.
  destruct (is_poisoned s name) eqn:Hp.
  { unfold assign. mrun. by rewrite Hp. }
  assert (Hdef : is_defined (envs s) (env s) name = true).
  { unfold is_defined. eapply binder_from_defined. exact Hb. }
  assert (Hcon : is_constant (envs s) (env s) name = false).
  { rewrite (binder_from_is_constant _ _ _ _ _ _ Hb). unfold has_key. rewrite Hc.
    by destruct (bool_decide _). }
  assert (Hget : get_value (envs s) (env s) name = Some old).
  { unfold get_value. by rewrite (binder_from_get_value _ _ _ _ _ _ Hb), Hc, Hv. }
  assert (Hne : String.eqb name "" = false) by by apply String.eqb_neq.
  assert (Hcases : old = VNone \/ old <> VNone) by (destruct old; auto).
  destruct Hcases as [-> | Hnn].
  { unfold assign. mrun. rewrite Hp. mrun. rewrite Hdef. mrun. rewrite Hcon. mrun.
    rewrite Hget. mrun. unfold _add_error. mfin. reflexivity. }
  cut (match cast_attempt s v (type_name_of old) with
       | CastOk v' =>
           type_name_of v' = type_name_of old
           /\ exists s', assign name v s = (Ok tt, s')
                /\ envs s' = <[a := put_var name v' sc]> (envs s)
                /\ errors s' = errors s
       | CastEscapes e => assign name v s = (Raise e, s)
       | _ =>
           exists s' msg, assign name v s = (Ok tt, s')
             /\ envs s' = envs s
             /\ full_error_msg s msg 0 ∈ errors s'
             /\ is_poisoned s' name = true
       end).
  { by destruct old. }
  rewrite (assign_cast name v old s Hp Hdef Hcon Hget Hnn).
  destruct (cast_attempt s v (type_name_of old)) as [v'|e|e|] eqn:Hcast.
  - destruct (cast_attempt_type _ _ _ _ Hcast) as [Hty _].
    split; [done|].
    unfold env_set_value. mrun. unfold set_value.
    rewrite (binder_from_set_value _ v' _ _ _ _ _ (le_n _) Hb). unfold has_key.
    rewrite Hc, Hv. simpl. unfold mark_assigned. mrun. mfin.
    eexists. split; [reflexivity|]. simpl. auto.
  - rewrite Hne. simpl. unfold _add_error, poison. mrun. mfin.
    eexists _, _. split; [reflexivity|]. simpl. split_and!.
    + apply record_error_envs.
    + apply record_error_recorded.
    + unfold is_poisoned. apply bool_decide_eq_true. simpl.
      apply elem_of_app. right. by apply list_elem_of_singleton.
  - reflexivity.
  - rewrite Hne. simpl. unfold _add_error, poison. mrun. mfin.
    eexists _, _. split; [reflexivity|]. simpl. split_and!.
    + apply record_error_envs.
    + apply record_error_recorded.
    + unfold is_poisoned. apply bool_decide_eq_true. simpl.
      apply elem_of_app. right. by apply list_elem_of_singleton.
Qed.

Lemma pop_var_frame E cur name e env :
  E !! e = Some env ->
  exists env', pop_var E cur name !! e = Some env'
    /\ constants env' = constants env /\ functions env' = functions env
    /\ parent env' = parent env
    /\ forall m, variables env' !! m = variables env !! m \/ (e = cur /\ m = name).
Proof.
  intros He. unfold pop_var.
  destruct (E !! cur) as [c|] eqn:Hc.
  - destruct (decide (e = cur)) as [->|Hne].
    + rewrite list_lookup_insert_eq by (eapply lookup_lt_Some; eauto).
      eexists; split; [reflexivity|]. rewrite Hc in He. injection He as <-. simpl.
      repeat split; auto. intros m. destruct (decide (m = name)) as [->|Hm]; [right; auto|].
      left. by rewrite lookup_delete_ne.
    + rewrite list_lookup_insert_ne by congruence. eauto 10.
  - eauto 10.
Qed.

(** *** C9: an [Again] whose count is 0 *)

(** C9, as amended.  An [Again] whose count evaluates to 0 runs its block
    zero times: whatever the block is, the statement leaves the state in
    which the count was evaluated, with [should_break] cleared and, when the
    loop names an index that is defined, the variable of that name popped
    from the current scope.  Every environment keeps its constants, its
    functions, its parent and every variable other than that one. *)
Theorem again_zero_iterations V times_expr repeat_var body s times s1 :
  v_expr V times_expr s = (Ok times, s1) ->
  iterations times = Some (inr 0) ->
  visit_again_stmt V times_expr repeat_var body s = (Ok tt, loop_exit repeat_var s1)
  /\ (repeat_var = None -> loop_exit repeat_var s1 = set_should_break false s1)
  /\ forall e scope, envs s1 !! e = Some scope ->
       exists scope', envs (loop_exit repeat_var s1) !! e = Some scope'
         /\ constants scope' = constants scope /\ functions scope' = functions scope
         /\ parent scope' = parent scope
         /\ forall m, variables scope' !! m = variables scope !! m
                      \/ (e = env s1 /\ repeat_var = Some m).
Proof.
  intros Hv Hi. split; [|split].
  - unfold visit_again_stmt. rewrite (bind_run _ _ _ _ _ Hv), Hi.
    mrun. simpl again_loop. mrun.
    unfold loop_exit. destruct (bound_name repeat_var) as [name|]; mrun; [|reflexivity].
    simpl envs. simpl env.
    destruct (is_defined (envs s1) (env s1) name) eqn:Hd; mrun; reflexivity.
  - intros ->. reflexivity.
  - intros e scope He. unfold loop_exit.
    destruct (bound_name repeat_var) as [name|] eqn:Hb; simpl; [|eauto 10].
    destruct (is_defined (envs s1) (env s1) name); simpl; [|eauto 10].
    destruct (pop_var_frame (envs s1) (env s1) name e scope He)
      as (scope' & H1 & H2 & H3 & H4 & H5).
    exists scope'. repeat split; auto. intros m.
    destruct (H5 m) as [|[-> ->]]; [by left|right]. split; [done|].
    unfold bound_name in Hb. destruct repeat_var as [n|]; [|done].
    destruct (String.eqb n ""); congruence.
Qed.

(** *** C8: [rep.stop] inside an [Again] loop *)

Lemma visit_block_halted V stmts s :
  should_return s || should_break s = true -> visit_block V stmts s = (Ok tt, s).
Proof. intros Hh. destruct stmts; simpl; [reflexivity|]. mrun. by rewrite Hh. Qed.

Lemma visit_block_app V b1 b2 s :
  visit_block V (b1 ++ b2) s = (visit_block V b1 ;; visit_block V b2) s.
Proof.
  revert s. induction b1 as [|st b1 IH]; intros s; simpl.
  - by mrun.
  - mrun. destruct (should_return s || should_break s) eqn:Hh.
    + mrun. by rewrite visit_block_halted.
    + mrun. apply bind_ext. intros _ s1. apply IH.
Qed.

Lemma rep_stop_statement fuel s :
  v_statement (visitors_at (S (S fuel))) SRepStop s = (Ok tt, set_should_break true s).
Proof. reflexivity. Qed.

(** A [rep.stop] among the statements of a block: those before it run,
    those after it do not. *)
Lemma rep_stop_cuts_block fuel before after s s1 :
  visit_block (visitors_at (S (S fuel))) before s = (Ok tt, s1) ->
  should_return s1 || should_break s1 = false ->
  visit_block (visitors_at (S (S fuel))) (before ++ SRepStop :: after) s
    = (Ok tt, set_should_break true s1).
Proof.
  intros Hb Hh. rewrite visit_block_app, (bind_run _ _ _ _ _ Hb).
  simpl visit_block. mrun. rewrite Hh. rewrite (bind_run _ _ _ _ _ (rep_stop_statement fuel s1)).
  apply visit_block_halted. simpl. apply orb_true_r.
Qed.

(** The statement around its loop: the count, the loop, the exit. *)
Lemma again_stmt_exit V times_expr repeat_var body s times s0 count s2 :
  v_expr V times_expr s = (Ok times, s0) ->
  iterations times = Some (inr count) ->
  again_loop V repeat_var body (Z.to_nat count) 0 (set_should_break false s0) = (Ok tt, s2) ->
  visit_again_stmt V times_expr repeat_var body s = (Ok tt, loop_exit repeat_var s2).
Proof.
  intros Hv Hi Hl. unfold visit_again_stmt.
  rewrite (bind_run _ _ _ _ _ Hv), Hi. mrun. rewrite (bind_run _ _ _ _ _ Hl).
  unfold loop_exit. destruct (bound_name repeat_var) as [name|]; mrun; [|reflexivity].
  destruct (is_defined (envs s2) (env s2) name) eqn:Hd; mrun; reflexivity.
Qed.

Lemma bind_case {A B} (m : M A) (k : A -> M B) s :
  bind m k s
  = match m s with
    | (Ok a, s1) => k a s1
    | (Raise e, s1) => (Raise e, s1)
    | (Stop r, s1) => (Stop r, s1)
    end.
Proof. unfold bind. by destruct (m s) as [[] ?]. Qed.

(** [k] iterations gone through without a stop: the loop goes on with the
    others from the state they left. *)
Lemma again_loop_done V rv body k : forall i s s',
  again_loop V rv body k i s = (Ok tt, s') ->
  should_break s' = false ->
  forall m, again_loop V rv body (k + m) i s = again_loop V rv body m (i + Z.of_nat k) s'.
Proof.
  induction k as [|k IH]; intros i s s'.
  - simpl. intros [= <-] _ m. by rewrite Z.add_0_r.
  - intros Hrun Hb m. revert Hrun. simpl again_loop. mrun.
    destruct (should_break s) eqn:Hs.
    { mfin. intros [= <-]. congruence. }
    rewrite !(bind_case (bind_index rv i)).
    destruct (bind_index rv i s) as [[[]|e|r] s1]; try discriminate.
    rewrite !(bind_case (visit_block V body)).
    destruct (visit_block V body s1) as [[[]|e|r] s2]; try discriminate. mrun.
    destruct (should_break s2) eqn:Hs2.
    { mfin. intros [= <-]. congruence. }
    intros Hrun. rewrite (IH _ _ _ Hrun Hb).
    f_equal. lia.
Qed.

(** A statement of a block that leaves [should_break] set: the statements
    before it run, those after it do not. *)
Lemma stop_cuts_block V before st after s s1 s2 :
  visit_block V before s = (Ok tt, s1) ->
  should_return s1 || should_break s1 = false ->
  v_statement V st s1 = (Ok tt, s2) ->
  should_break s2 = true ->
  visit_block V (before ++ st :: after) s = (Ok tt, s2).
Proof.
  intros Hb Hh Hst Hs2. rewrite visit_block_app, (bind_run _ _ _ _ _ Hb).
  simpl visit_block. mrun. rewrite Hh. rewrite (bind_run _ _ _ _ _ Hst).
  apply visit_block_halted. rewrite Hs2. apply orb_true_r.
Qed.

(** C8.  [rep.stop] sets [should_break], and from the statement of a block
    that leaves the flag set on, the block processes no statement: not those
    that follow it in the block, whatever they are, and none of any block
    entered with the flag set.  Let [k] iterations of an [Again] of [count]
    iterations have gone through without a stop, and let a statement [st] of
    the block of the next (a [rep.stop], or a statement around one) leave
    [should_break] set, after the statements [before] it.  Then the block
    ends in the state [st] left, the loop ends in that state, whatever
    number of iterations was left, and the statement returns with the flag
    cleared. *)
Theorem rep_stop_ends_loop V times_expr repeat_var before st after
    s0 times s_in count k s s1 s2 s3 :
  v_expr V times_expr s0 = (Ok times, s_in) ->
  iterations times = Some (inr count) ->
  (k < Z.to_nat count)%nat ->
  again_loop V repeat_var (before ++ st :: after) k 0 (set_should_break false s_in)
    = (Ok tt, s) ->
  should_break s = false ->
  bind_index repeat_var (Z.of_nat k) s = (Ok tt, s1) ->
  visit_block V before s1 = (Ok tt, s2) ->
  should_return s2 || should_break s2 = false ->
  v_statement V st s2 = (Ok tt, s3) ->
  should_break s3 = true ->
  (forall s', visit_rep_stop s' = (Ok tt, set_should_break true s'))
  /\ (forall fuel s',
        v_statement (visitors_at (S (S fuel))) SRepStop s' = (Ok tt, set_should_break true s'))
  /\ visit_block V (before ++ st :: after) s1 = (Ok tt, s3)
  /\ (forall stmts, visit_block V stmts s3 = (Ok tt, s3))
  /\ again_loop V repeat_var (before ++ st :: after) (Z.to_nat count) 0
       (set_should_break false s_in)
     = (Ok tt, s3)
  /\ visit_again_stmt V times_expr repeat_var (before ++ st :: after) s0
     = (Ok tt, loop_exit repeat_var s3)
  /\ should_break (loop_exit repeat_var s3) = false.
Proof.
  intros Hv Hi Hk Hdone Hs Hbi Hbefore Hh Hst Hs3.
  assert (Hb : visit_block V (before ++ st :: after) s1 = (Ok tt, s3))
    by by eapply stop_cuts_block.
  assert (Hloop : again_loop V repeat_var (before ++ st :: after) (Z.to_nat count) 0
                    (set_should_break false s_in) = (Ok tt, s3)).
  { replace (Z.to_nat count) with (k + S (Z.to_nat count - S k))%nat by lia.
    rewrite (again_loop_done _ _ _ _ _ _ _ Hdone Hs). simpl again_loop. mrun.
    rewrite Hs. rewrite Z.add_0_l.
    rewrite (bind_run _ _ _ _ _ Hbi), (bind_run _ _ _ _ _ Hb).
    mrun. by rewrite Hs3. }
  split_and!.
  - reflexivity.
  - reflexivity.
  - exact Hb.
  - intros stmts. apply visit_block_halted. rewrite Hs3. apply orb_true_r.
  - exact Hloop.
  - eapply again_stmt_exit; eauto.
  - reflexivity.
Qed.

(** *** C10: a [back.value] statement at top level *)

Lemma later_run_statement fuel i item : mrel later (run_statement fuel i item).
Proof.
  unfold run_statement. apply mrel_bind; try exact _.
  - apply mrel_modify. intros s. split; simpl; auto.
  - intros _. apply mrel_try_except; try exact _.
    + destruct item; [apply (later_visit fuel) | apply mrel_ret; exact _].
    + intros e. destruct (has_marker e); [apply mrel_ret; exact _|].
      apply mrel_bind; try exact _; [apply mrel_gets; exact _|].
      intros line. apply mrel_modify. intros s. apply later_quiet. constructor.
Qed.

Lemma later_run_statements fuel items : forall i, mrel later (run_statements fuel i items).
Proof.
  induction items as [|item rest IH]; intros i; simpl.
  - apply mrel_ret; exact _.
  - apply mrel_bind; try exact _; auto using later_run_statement.
Qed.

Lemma bind_index_later rv i : mrel later (bind_index rv i).
Proof.
  unfold bind_index. destruct (bound_name rv) as [name|]; [|apply mrel_ret; exact _].
  apply mrel_modify. intros s. split; simpl; auto.
Qed.

(** While a return is pending the block of a loop is as good as empty. *)
Lemma again_loop_skipped V rv body n :
  forall i s, should_return s = true ->
    again_loop V rv body n i s = again_loop V rv [] n i s.
Proof.
  induction n as [|n IH]; intros i s Hr; simpl; [reflexivity|].
  mrun. destruct (should_break s); [reflexivity|].
  apply (bind_ext_along later); [apply bind_index_later|].
  intros _ s1 Hl.
  assert (Hr1 : should_return s1 = true) by by apply Hl.
  rewrite (bind_run _ _ _ tt s1) by (apply visit_block_halted; by rewrite Hr1).
  simpl visit_block. mrun. destruct (should_break s1); [reflexivity|]. by apply IH.
Qed.

(** C10.  A [back.value] statement sets [should_return]; at top level the
    flag is then set after every further turn of the loop of [execute],
    which goes on visiting the statements one after the other: a statement
    that comes later is visited as it would be anywhere, in the state the
    loop has reached, and what it does is what the turn does.  In every
    state reached that way a block processes no statement: a [Cause] and an
    [Again] do what they would do with empty blocks.  A function call clears
    the flag for the time of its body and puts it back afterwards. *)
Theorem return_at_top_level V0 returned s0 s :
  visit_back_stmt V0 returned s0 = (Ok tt, s) ->
  should_return s = true
  /\ forall fuel i items o s',
       run_statements fuel i items s = (o, s') ->
       should_return s' = true
       /\ (forall item rest i' s1,
             run_statement fuel i' item s' = (Ok tt, s1) ->
             run_statements fuel i' (item :: rest) s' = run_statements fuel (i' + 1) rest s1)
       /\ (forall line st rest i' s1,
             v_statement (visitors_at fuel) st
               (set_current_line_num (default (i' + 1) line) s') = (Ok tt, s1) ->
             run_statement fuel i' (TopStatement line st) s' = (Ok tt, s1)
             /\ run_statements fuel i' (TopStatement line st :: rest) s'
                = run_statements fuel (i' + 1) rest s1
             /\ should_return s1 = true)
       /\ (forall V b, visit_block V b s' = (Ok tt, s'))
       /\ (forall conds b1 b2,
             visit_cause_stmt (visitors_at fuel) conds b1 b2 s'
             = visit_cause_stmt (visitors_at fuel) conds [] None s')
       /\ (forall times rv body,
             visit_again_stmt (visitors_at fuel) times rv body s'
             = visit_again_stmt (visitors_at fuel) times rv [] s')
       /\ (forall f bound, should_return (enter_call f bound s') = false)
       /\ (forall s2, should_return (leave_call s' s2) = true).
Proof.
  intros Hb.
  assert (Hs : should_return s = true).
  { unfold visit_back_stmt in Hb. destruct returned as [e|]; revert Hb.
    - rewrite bind_bind. unfold bind at 1.
      destruct (v_expr V0 e s0) as [[v|?|?] s1]; [|discriminate..].
      mrun. mfin. by intros [= <-].
    - mrun. mfin. by intros [= <-]. }
  split; [exact Hs|].
  intros fuel i items o s' Hrun.
  assert (Hs' : should_return s' = true)
    by (eapply return_kept; [eapply later_run_statements; eauto | done]).
  split; [exact Hs'|]. split; [|split; [|split; [|split; [|split; [|split]]]]].
  - intros item rest i' s1 Hi. simpl. by rewrite (bind_run _ _ _ _ _ Hi).
  - intros line st rest i' s1 Hst.
    assert (Hturn : run_statement fuel i' (TopStatement line st) s' = (Ok tt, s1)).
    { unfold run_statement. rewrite bind_modify. unfold try_except.
      replace (match line with Some l => l | None => i' + 1 end) with (default (i' + 1) line)
        by by destruct line.
      by rewrite Hst. }
    split; [exact Hturn|]. split.
    + simpl run_statements. by rewrite (bind_run _ _ _ _ _ Hturn).
    + eapply return_kept; [eapply later_run_statement; exact Hturn|exact Hs'].
  - intros V b. apply visit_block_halted. by rewrite Hs'.
  - intros conds b1 b2. unfold visit_cause_stmt.
    apply (bind_ext_along later); [apply (later_visit fuel)|].
    intros c s1 Hl.
    assert (Hr1 : should_return s1 = true) by by apply Hl.
    destruct c; [|destruct b2]; simpl visit_block; rewrite ?visit_block_halted;
      try reflexivity; by rewrite Hr1.
  - intros times rv body. unfold visit_again_stmt.
    apply (bind_ext_along later); [apply (later_visit fuel)|].
    intros t s1 Hl.
    assert (Hr1 : should_return s1 = true) by by apply Hl.
    destruct (iterations t) as [count|]; [|reflexivity].
    mrun. destruct count as [e|c]; mrun; [reflexivity|].
    unfold bind. rewrite again_loop_skipped by done. reflexivity.
  - reflexivity.
  - intros s2. simpl. exact Hs'.
Qed.

(** *** C6: division by zero *)

(** The [/] branch of [visit_expr], which no [ADD_OP] token reaches, does
    the same as the one of [visit_term]. *)
Lemma division_by_zero_in_expr V t rest left s right s1 :
  v_term V t s = (Ok right, s1) ->
  is_zero right = true ->
  expr_loop V (("/", t) :: rest) left s
    = (Ok (VInt 0), record_error "Division by zero" 0 s1).
Proof.
  intros Hr Hz. simpl expr_loop. rewrite (bind_run _ _ _ _ _ Hr). simpl.
  rewrite Hz. by mrun.
Qed.

(** C6.  When the loop of [visit_term] meets a [/] whose right operand
    evaluates to 0, whatever the left operand and the operations that
    follow, the term returns the integer 0 normally and the error "Division
    by zero" is recorded. *)
Theorem division_by_zero V f rest left s right s1 :
  v_factor V f s = (Ok right, s1) ->
  is_zero right = true ->
  term_loop V (("/", f) :: rest) left s
    = (Ok (VInt 0), record_error "Division by zero" 0 s1)
  /\ full_error_msg s1 "Division by zero" 0 ∈ errors (record_error "Division by zero" 0 s1)
  /\ forall first s0,
       v_factor V first s0 = (Ok left, s) ->
       visit_term V (Term first (("/", f) :: rest)) s0
         = (Ok (VInt 0), record_error "Division by zero" 0 s1).
Proof.
  intros Hr Hz.
  assert (Hloop : term_loop V (("/", f) :: rest) left s
                  = (Ok (VInt 0), record_error "Division by zero" 0 s1)).
  { simpl term_loop. rewrite (bind_run _ _ _ _ _ Hr). simpl. rewrite Hz. by mrun. }
  split; [exact Hloop|]. split; [apply record_error_recorded|].
  intros first s0 Hf. unfold visit_term. rewrite (bind_run _ _ _ _ _ Hf). exact Hloop.
Qed.

(** *** C7: the operands of [+], [-], [*] and [/] *)

(** What each operator of [visit_expr] and [visit_term] applies to its
    operands. *)
Lemma operator_applied V :
  (forall t rest left s right s1,
     v_term V t s = (Ok right, s1) ->
     expr_loop V (("+", t) :: rest) left s
       = (left' <- add_values left right ;; expr_loop V rest left') s1
     /\ expr_loop V (("-", t) :: rest) left s
       = (left' <- py_sub left right ;; expr_loop V rest left') s1)
  /\ (forall f rest left s right s1,
     v_factor V f s = (Ok right, s1) ->
     term_loop V (("*", f) :: rest) left s
       = (left' <- py_mul left right ;; term_loop V rest left') s1
     /\ (is_zero right = false ->
         term_loop V (("/", f) :: rest) left s
           = (left' <- py_truediv left right ;; term_loop V rest left') s1)).
Proof.
  split.
  - intros t rest left s right s1 Hr.
    split; simpl expr_loop; rewrite (bind_run _ _ _ _ _ Hr); reflexivity.
  - intros f rest left s right s1 Hr.
    split; [|intros Hz]; simpl term_loop; rewrite (bind_run _ _ _ _ _ Hr); simpl;
      [|rewrite Hz]; reflexivity.
Qed.

(** C7, as amended.  The loops of [visit_expr] and [visit_term] apply
    [add_values], [py_sub], [py_mul] and [py_truediv] to the operands as
    they are.  [+] joins the text forms of its operands when one of them is
    a text and adds them when both are numbers; [-] and [/] raise an error
    unless both operands are numbers; [*] repeats a text an integer number
    of times, and raises an error on any other operand that is not a number
    or a list to repeat. *)
Theorem arithmetic_on_operands V (a b : value) (s : state) :
  (forall t rest s0,
     v_term V t s0 = (Ok b, s) ->
     expr_loop V (("+", t) :: rest) a s0
       = (left' <- add_values a b ;; expr_loop V rest left') s
     /\ expr_loop V (("-", t) :: rest) a s0
       = (left' <- py_sub a b ;; expr_loop V rest left') s)
  /\ (forall f rest s0,
        v_factor V f s0 = (Ok b, s) ->
        term_loop V (("*", f) :: rest) a s0
          = (left' <- py_mul a b ;; term_loop V rest left') s
        /\ (is_zero b = false ->
            term_loop V (("/", f) :: rest) a s0
              = (left' <- py_truediv a b ;; term_loop V rest left') s))
  /\ (is_str a || is_str b = true ->
        add_values a b s = (Ok (VStr (py_str s a +:+ py_str s b)), s))
  /\ (forall x y, a = VInt x -> b = VInt y -> add_values a b s = (Ok (VInt (x + y)), s))
  /\ (forall x y, a = VFloat x -> b = VFloat y ->
        add_values a b s = (Ok (VFloat (float_add x y)), s))
  /\ (is_number a && is_number b = false -> exists e, py_sub a b s = (Raise e, s))
  /\ (is_number a && is_number b = false -> exists e, py_truediv a b s = (Raise e, s))
  /\ (forall t n, a = VStr t -> b = VInt n ->
        py_mul a b s = (Ok (VStr (repeat_str t (Z.to_nat n))), s)
        /\ py_mul b a s = (Ok (VStr (repeat_str t (Z.to_nat n))), s))
  /\ (is_number a && is_number b = false -> repeats a b = false ->
        exists e, py_mul a b s = (Raise e, s)).
Proof.
  destruct (operator_applied V) as [Hexpr Hterm].
  split_and!.
  - intros t rest s0 Hr. by apply Hexpr.
  - intros f rest s0 Hr. by apply Hterm.
  - intros Hs. unfold add_values. rewrite Hs. by mrun.
  - by intros x y -> ->.
  - by intros x y -> ->.
  - intros Hn. destruct a, b; try discriminate; simpl; eauto.
  - intros Hn. destruct a, b; try discriminate; simpl; eauto.
  - by intros t n -> ->.
  - intros Hn Hr. destruct a, b; try discriminate; simpl; eauto.
Qed.

(** *** C3: [now.repeat] *)

Lemma has_key_put_var_ne {A} (m : gmap string A) x v name :
  name <> x -> has_key (<[x := v]> m) name = has_key m name.
Proof. intros Hne. unfold has_key. by rewrite lookup_insert_ne. Qed.

(** Binding a variable leaves every other name as it was, seen from any
    scope. *)
Lemma is_defined_from_define_var E cur sc x v name :
  E !! cur = Some sc -> name <> x ->
  forall depth e,
    is_defined_from depth (<[cur := put_var x v sc]> E) e name
    = is_defined_from depth E e name.
Proof.
  intros Hc Hne. induction depth as [|depth IH]; intros e; simpl; [reflexivity|].
  destruct (decide (e = cur)) as [->|He].
  - rewrite list_lookup_insert_eq by (eapply lookup_lt_Some; eauto).
    rewrite Hc. simpl. rewrite has_key_put_var_ne by done.
    destruct (_ || _); [reflexivity|]. destruct (parent sc); auto.
  - rewrite list_lookup_insert_ne by done.
    destruct (E !! e) as [sc'|]; [|reflexivity].
    destruct (_ || _); [reflexivity|]. destruct (parent sc'); auto.
Qed.

Lemma get_value_from_define_var E cur sc x v name :
  E !! cur = Some sc -> name <> x ->
  forall depth e,
    get_value_from depth (<[cur := put_var x v sc]> E) e name
    = get_value_from depth E e name.
Proof.
  intros Hc Hne. induction depth as [|depth IH]; intros e; simpl; [reflexivity|].
  destruct (decide (e = cur)) as [->|He].
  - rewrite list_lookup_insert_eq by (eapply lookup_lt_Some; eauto).
    rewrite Hc. simpl. rewrite lookup_insert_ne by done.
    destruct (constants sc !! name); [reflexivity|].
    destruct (variables sc !! name); [reflexivity|].
    destruct (functions sc !! name); [reflexivity|]. destruct (parent sc); auto.
  - rewrite list_lookup_insert_ne by done.
    destruct (E !! e) as [sc'|]; [|reflexivity].
    destruct (constants sc' !! name); [reflexivity|].
    destruct (variables sc' !! name); [reflexivity|].
    destruct (functions sc' !! name); [reflexivity|]. destruct (parent sc'); auto.
Qed.

Lemma is_defined_define_var E cur sc x v name :
  E !! cur = Some sc -> name <> x ->
  is_defined (define_var E cur x v) cur name = is_defined E cur name.
Proof.
  intros Hc Hne. unfold define_var, is_defined. rewrite Hc, length_insert.
  by apply is_defined_from_define_var.
Qed.

Lemma get_value_define_var E cur sc x v name :
  E !! cur = Some sc -> name <> x ->
  get_value (define_var E cur x v) cur name = get_value E cur name.
Proof.
  intros Hc Hne. unfold define_var, get_value. rewrite Hc, length_insert.
  by apply get_value_from_define_var.
Qed.

Lemma get_value_from_defined depth : forall E e name v,
  get_value_from depth E e name = Some v -> is_defined_from depth E e name = true.
Proof.
  induction depth as [|depth IH]; intros E e name v; simpl; [discriminate|].
  destruct (E !! e) as [sc|]; [|discriminate]. unfold has_key.
  destruct (constants sc !! name); [by rewrite orb_true_r|].
  destruct (variables sc !! name); [done|].
  destruct (functions sc !! name); [done|]. simpl.
  destruct (parent sc); [apply IH|discriminate].
Qed.

Lemma get_value_defined E e name v :
  get_value E e name = Some v -> is_defined E e name = true.
Proof. apply get_value_from_defined. Qed.

(** [now.repeat] where [now] is the built-in object. *)
Lemma now_repeat_run s members :
  get_value (envs s) (env s) "now" = Some (VObj members) ->
  has_key members "repeat" = true ->
  visit_member_access_expr "now" "repeat" s
  = if is_defined (envs s) (env s) "repeat"
    then env_get_value "repeat" s
    else (Ok VNone, record_error now_repeat_error 0 s).
Proof.
  intros Hnow Hkey. unfold visit_member_access_expr. mrun.
  rewrite (get_value_defined _ _ _ _ Hnow). mrun.
  rewrite Hnow. mrun. simpl py_contains. mrun. rewrite Hkey. mrun.
  rewrite !String.eqb_refl. mrun.
  destruct (is_defined (envs s) (env s) "repeat"); mrun; reflexivity.
Qed.

Lemma bind_index_run rv i s : bind_index rv i s = (Ok tt, (bind_index rv i s).2).
Proof. unfold bind_index. by destruct (bound_name rv). Qed.

(** C3, as amended.  [now.repeat] yields the value of the name [repeat]:
    inside an [Again] whose index name is [repeat], the 1-based count [i + 1]
    of the iteration; where no name [repeat] is defined, and so inside a loop
    that bound another index name, it records an error and yields no
    value.

    In the loop itself: when [k] iterations of an [Again] have gone through
    without a stop and ended in [s], the next one binds the index to [k + 1]
    and runs the block from there, and the loop goes on with the index
    [k + 1] after it.  In that iteration of a loop over [repeat],
    [now.repeat] is [k + 1] on entry of the block and at every later point
    where the name [repeat] still holds what the loop bound; in that
    iteration of a loop over another name it is the error. *)
Theorem now_repeat_is_the_name_repeat s members sc :
  get_value (envs s) (env s) "now" = Some (VObj members) ->
  has_key members "repeat" = true ->
  envs s !! env s = Some sc ->
  (forall i s1,
     constants sc !! "repeat" = None ->
     bind_index (Some "repeat") i s = (Ok tt, s1) ->
     visit_member_access_expr "now" "repeat" s1 = (Ok (VInt (i + 1)), s1))
  /\ (is_defined (envs s) (env s) "repeat" = false ->
      visit_member_access_expr "now" "repeat" s
      = (Ok VNone, record_error now_repeat_error 0 s))
  /\ (forall name i s1,
        is_defined (envs s) (env s) "repeat" = false ->
        name <> "repeat" -> name <> "now" ->
        bind_index (Some name) i s = (Ok tt, s1) ->
        visit_member_access_expr "now" "repeat" s1
        = (Ok VNone, record_error now_repeat_error 0 s1))
  /\ (forall V rv body count k s_start,
        (k < count)%nat ->
        again_loop V rv body k 0 s_start = (Ok tt, s) ->
        should_break s = false ->
        again_loop V rv body count 0 s_start
        = bind (visit_block V body)
            (fun _ => bind (gets should_break)
               (fun broken =>
                  if broken then ret tt
                  else again_loop V rv body (count - S k) (Z.of_nat k + 1)))
            (bind_index rv (Z.of_nat k) s).2
        /\ (rv = Some "repeat" -> constants sc !! "repeat" = None ->
            visit_member_access_expr "now" "repeat" (bind_index rv (Z.of_nat k) s).2
            = (Ok (VInt (Z.of_nat k + 1)), (bind_index rv (Z.of_nat k) s).2)
            /\ forall s2,
                 get_value (envs s2) (env s2) "now" = Some (VObj members) ->
                 get_value (envs s2) (env s2) "repeat"
                 = get_value (envs (bind_index rv (Z.of_nat k) s).2)
                     (env (bind_index rv (Z.of_nat k) s).2) "repeat" ->
                 visit_member_access_expr "now" "repeat" s2
                 = (Ok (VInt (Z.of_nat k + 1)), s2))
        /\ (forall name,
              rv = Some name ->
              is_defined (envs s) (env s) "repeat" = false ->
              name <> "repeat" -> name <> "now" ->
              visit_member_access_expr "now" "repeat" (bind_index rv (Z.of_nat k) s).2
              = (Ok VNone,
                 record_error now_repeat_error 0 (bind_index rv (Z.of_nat k) s).2))).
Proof.
  intros Hnow Hkey Hsc.
  assert (Hbound : forall i s1,
            constants sc !! "repeat" = None ->
            bind_index (Some "repeat") i s = (Ok tt, s1) ->
            get_value (envs s1) (env s1) "now" = Some (VObj members)
            /\ get_value (envs s1) (env s1) "repeat" = Some (VInt (i + 1))).
  { intros i s1 Hc [= <-]. simpl envs. simpl env.
    assert (Hl : define_var (envs s) (env s) "repeat" (VInt (i + 1)) !! env s
                 = Some (put_var "repeat" (VInt (i + 1)) sc)).
    { unfold define_var. rewrite Hsc.
      apply list_lookup_insert_eq. eapply lookup_lt_Some; eauto. }
    split.
    - erewrite get_value_define_var; eauto.
    - rewrite (get_value_here _ _ _ _ Hl). simpl. by rewrite Hc, lookup_insert_eq. }
  assert (Hvalue : forall s2 v,
            get_value (envs s2) (env s2) "now" = Some (VObj members) ->
            get_value (envs s2) (env s2) "repeat" = Some v ->
            visit_member_access_expr "now" "repeat" s2 = (Ok v, s2)).
  { intros s2 v Hn Hv. rewrite (now_repeat_run _ members) by done.
    rewrite (get_value_defined _ _ _ _ Hv). unfold env_get_value. mrun. by rewrite Hv. }
  assert (Hother : forall name i s1,
            is_defined (envs s) (env s) "repeat" = false ->
            name <> "repeat" -> name <> "now" ->
            bind_index (Some name) i s = (Ok tt, s1) ->
            visit_member_access_expr "now" "repeat" s1
            = (Ok VNone, record_error now_repeat_error 0 s1)).
  { intros name i s1 Hd Hn1 Hn2. unfold bind_index, bound_name.
    destruct (String.eqb name "") eqn:Hname.
    + intros [= <-]. rewrite (now_repeat_run _ members) by done. by rewrite Hd.
    + intros [= <-]. rewrite (now_repeat_run _ members); [|simpl|done].
      * simpl envs. simpl env. erewrite is_defined_define_var; eauto. by rewrite Hd.
      * erewrite get_value_define_var; eauto. }
  split_and!.
  - intros i s1 Hc Hb. destruct (Hbound i s1 Hc Hb). by apply Hvalue.
  - intros Hd. rewrite (now_repeat_run _ members) by done. by rewrite Hd.
  - exact Hother.
  - intros V rv body count k s_start Hk Hdone Hs. split_and!.
    + replace count with (k + S (count - S k))%nat at 1 by lia.
      rewrite (again_loop_done _ _ _ _ _ _ _ Hdone Hs). simpl again_loop. mrun.
      rewrite Hs, Z.add_0_l. by rewrite (bind_run _ _ _ _ _ (bind_index_run rv (Z.of_nat k) s)).
    + intros -> Hc.
      destruct (Hbound (Z.of_nat k) _ Hc (bind_index_run (Some "repeat") (Z.of_nat k) s))
        as [Hn Hr].
      split; [by apply Hvalue|]. intros s2 Hn2 Hr2. apply Hvalue; [done|]. by rewrite Hr2.
    + intros name -> Hd Hn1 Hn2.
      apply (Hother name (Z.of_nat k)); auto. apply bind_index_run.
Qed.

(** *** C4: a group of conditions *)




(** *** C5: redefinition and poisoned names *)

Lemma is_poisoned_later s s' name :
  later s s' -> is_poisoned s name = true -> is_poisoned s' name = true.
Proof.
  intros Hl Hp. unfold is_poisoned in *.
  apply bool_decide_eq_true. apply bool_decide_eq_true in Hp. by apply Hl.
Qed.

(** C5, as amended.  A definition of a name that is defined and not
    poisoned, be it as a variable, a constant, a list or a function, binds
    nothing, records its error "already defined", once, and poisons the
    name.  In every later state the name is still poisoned, and there a
    definition of it, or an assignment to it, does nothing and records
    nothing.  (Other statements that refer to the name may still record
    errors.) *)
Theorem redefinition_poisons name s :
  is_poisoned s name = false ->
  is_defined (envs s) (env s) name = true ->
  (forall V ty init, is_type_name (declared_type ty) = true ->
     visit_var_def V ty name init s
     = (Ok tt, rejected ("Variable '" +:+ name +:+ "' is already defined") name s))
  /\ (forall V ty init, is_type_name (declared_type ty) = true ->
        visit_const_def V ty name init s
        = (Ok tt, rejected ("Constant '" +:+ name +:+ "' is already defined") name s))
  /\ (forall V literal,
        visit_list_def V name literal s
        = (Ok tt, rejected ("List '" +:+ name +:+ "' is already defined") name s))
  /\ (forall params body,
        visit_func_def name params body s
        = (Ok tt, rejected ("Function '" +:+ name +:+ "' is already defined") name s))
  /\ forall msg,
       errors (rejected msg name s)
       = (if bool_decide (full_error_msg s msg 0 ∈ errors s) then errors s
          else errors s ++ [full_error_msg s msg 0])
       /\ envs (rejected msg name s) = envs s
       /\ (forall fuel i items o s2,
             run_statements fuel i items (rejected msg name s) = (o, s2) ->
             later (rejected msg name s) s2)
       /\ forall s2, later (rejected msg name s) s2 ->
            is_poisoned s2 name = true
            /\ (forall V ty init, is_type_name (declared_type ty) = true ->
                  visit_var_def V ty name init s2 = (Ok tt, s2))
            /\ (forall V ty init, is_type_name (declared_type ty) = true ->
                  visit_const_def V ty name init s2 = (Ok tt, s2))
            /\ (forall V literal, visit_list_def V name literal s2 = (Ok tt, s2))
            /\ (forall params body, visit_func_def name params body s2 = (Ok tt, s2))
            /\ (forall v, assign name v s2 = (Ok tt, s2)).
Proof.
  intros Hp Hd. split_and!.
  - intros V ty init Hty. unfold visit_var_def. rewrite Hty. mrun. rewrite Hp. mrun.
    rewrite Hd. mrun. mfin. reflexivity.
  - intros V ty init Hty. unfold visit_const_def. rewrite Hty. mrun. rewrite Hp. mrun.
    rewrite Hd. mrun. mfin. reflexivity.
  - intros V literal. unfold visit_list_def. mrun. rewrite Hp. mrun.
    rewrite Hd. mrun. mfin. reflexivity.
  - intros params body. unfold visit_func_def. mrun. rewrite Hp. mrun.
    rewrite Hd. mrun. mfin. reflexivity.
  - intros msg. split_and!.
    + simpl. unfold record_error. by case_bool_decide.
    + simpl. apply record_error_envs.
    + intros fuel i items o s2. apply later_run_statements.
    + intros s2 Hl.
      assert (Hp2 : is_poisoned s2 name = true).
      { apply (is_poisoned_later _ _ _ Hl). unfold is_poisoned. apply bool_decide_eq_true.
        simpl. apply elem_of_app. right. by apply list_elem_of_singleton. }
      split_and!; [done|..].
      * intros V ty init Hty. unfold visit_var_def. rewrite Hty. mrun. by rewrite Hp2.
      * intros V ty init Hty. unfold visit_const_def. rewrite Hty. mrun. by rewrite Hp2.
      * intros V literal. unfold visit_list_def. mrun. by rewrite Hp2.
      * intros params body. unfold visit_func_def. mrun. by rewrite Hp2.
      * intros v. unfold assign. mrun. by rewrite Hp2.
Qed.

(** *** C2: constants *)

Lemma constants_kept_refl g E : constants_kept g E E.
Proof. intros e sc He. exists sc. split; [done|]. by case_bool_decide. Qed.

Lemma constants_kept_trans g E1 E2 E3 :
  constants_kept g E1 E2 -> constants_kept g E2 E3 -> constants_kept g E1 E3.
Proof.
  intros H12 H23 e sc1 He.
  destruct (H12 e sc1 He) as (sc2 & He2 & H2).
  destruct (H23 e sc2 He2) as (sc3 & He3 & H3).
  exists sc3. split; [done|].
  case_bool_decide; [by etransitivity|congruence].
Qed.

Lemma constants_kept_weaken g E E' : constants_kept None E E' -> constants_kept g E E'.
Proof.
  intros HK e sc He. destruct (HK e sc He) as (sc' & He' & Hc).
  exists sc'. split; [done|].
  rewrite bool_decide_eq_false_2 in Hc by done.
  case_bool_decide; [by rewrite Hc|done].
Qed.

Lemma constants_kept_insert E e sc sc' :
  E !! e = Some sc -> constants sc' = constants sc ->
  constants_kept None E (<[e := sc']> E).
Proof.
  intros He Hc e0 sc0 He0. rewrite bool_decide_eq_false_2 by done.
  destruct (decide (e0 = e)) as [->|Hne].
  - exists sc'. split; [|congruence].
    apply list_lookup_insert_eq. by eapply lookup_lt_Some.
  - exists sc0. split; [|done]. by rewrite list_lookup_insert_ne.
Qed.

Lemma define_var_constants E e name v : constants_kept None E (define_var E e name v).
Proof.
  unfold define_var. destruct (E !! e) as [sc|] eqn:He; [|apply constants_kept_refl].
  by eapply constants_kept_insert.
Qed.

Lemma define_func_constants E e name f : constants_kept None E (define_func E e name f).
Proof.
  unfold define_func. destruct (E !! e) as [sc|] eqn:He; [|apply constants_kept_refl].
  by eapply constants_kept_insert.
Qed.

Lemma pop_var_constants E e name : constants_kept None E (pop_var E e name).
Proof.
  unfold pop_var. destruct (E !! e) as [sc|] eqn:He; [|apply constants_kept_refl].
  by eapply constants_kept_insert.
Qed.

Lemma set_value_from_constants depth E name v :
  forall e E', set_value_from depth E e name v = inr E' -> constants_kept None E E'.
Proof.
  induction depth as [|depth IH]; intros e E'; simpl; [done|].
  destruct (E !! e) as [sc|] eqn:He; [|done].
  destruct (has_key (constants sc) name); [done|].
  destruct (has_key (variables sc) name).
  { intros [= <-]. by eapply constants_kept_insert. }
  destruct (parent sc) as [p|]; [|done].
  destruct (is_defined E p name); [|done]. apply IH.
Qed.

Lemma create_child_env_constants E p : constants_kept None E (create_child_env E p).1.
Proof.
  intros e sc He. exists sc. rewrite bool_decide_eq_false_2 by done.
  split; [|done]. simpl. by apply lookup_app_l_Some.
Qed.

Lemma enter_call_constants f bound s :
  constants_kept None (envs s) (envs (enter_call f bound s)).
Proof.
  unfold enter_call. simpl.
  eapply constants_kept_trans; [apply (create_child_env_constants _ (f_env f))|].
  simpl. generalize (envs s ++ [Env ∅ ∅ ∅ (Some (f_env f))]).
  induction bound as [|[name v] bound IH]; intros E; simpl.
  - apply constants_kept_refl.
  - eapply constants_kept_trans; [apply define_var_constants|apply IH].
Qed.

#[local] Instance keeps_preorder : PreOrder keeps.
Proof.
  split.
  - intros s. split; [done|apply constants_kept_refl].
  - intros s1 s2 s3 [] []. split; [congruence|by eapply constants_kept_trans].
Qed.

#[local] Instance grows_preorder : PreOrder grows.
Proof.
  split.
  - intros s. split; [done|apply constants_kept_refl].
  - intros s1 s2 s3 [He1 H1] [He2 H2]. split; [congruence|].
    rewrite He1 in H2. by eapply constants_kept_trans.
Qed.

Lemma keeps_grows s s' : keeps s s' -> grows s s'.
Proof. intros []. split; [done|by apply constants_kept_weaken]. Qed.

Lemma keeps_quiet s s' : quiet_step s s' -> keeps s s'.
Proof.
  destruct 1; (split; [|simpl; try apply constants_kept_refl]); simpl; auto;
    unfold record_error; case_bool_decide; simpl; auto using constants_kept_refl.
Qed.

Lemma grows_store s s' : store_step s s' -> grows s s'.
Proof.
  intros Hs. apply keeps_grows. destruct Hs; try by apply keeps_quiet.
  all: split; simpl; auto using constants_kept_refl, define_var_constants,
         define_func_constants, pop_var_constants.
  by eapply set_value_from_constants.
Qed.

Lemma keeps_call f bound s s' : grows (enter_call f bound s) s' -> keeps s (leave_call s s').
Proof.
  intros [He HK]. split; [done|]. simpl.
  intros e sc Hsc. rewrite bool_decide_eq_false_2 by done.
  destruct (enter_call_constants f bound s e sc Hsc) as (sc1 & Hsc1 & Hc1).
  rewrite bool_decide_eq_false_2 in Hc1 by done.
  destruct (HK e sc1 Hsc1) as (sc2 & Hsc2 & Hc2).
  exists sc2. split; [done|].
  rewrite bool_decide_eq_false_2 in Hc2; [congruence|].
  intros [= Heq]. apply lookup_lt_Some in Hsc.
  unfold enter_call in Heq. simpl in Heq. lia.
Qed.

Lemma not_defined_not_constant E e sc name :
  E !! e = Some sc -> is_defined E e name = false -> constants sc !! name = None.
Proof.
  intros He. rewrite (is_defined_here _ _ _ _ He). unfold has_key.
  destruct (constants sc !! name); [|done].
  by rewrite orb_true_r.
Qed.

Lemma define_const_grows E E' e name v :
  constants_kept None E E' -> is_defined E e name = false ->
  constants_kept (Some e) E (define_const E' e name v).
Proof.
  intros HK Hd e0 sc He0.
  destruct (HK e0 sc He0) as (sc' & He' & Hc).
  rewrite bool_decide_eq_false_2 in Hc by done.
  unfold define_const.
  destruct (decide (e0 = e)) as [->|Hne].
  - rewrite He'. eexists. split.
    { apply list_lookup_insert_eq. by eapply lookup_lt_Some. }
    rewrite bool_decide_eq_true_2 by done. simpl. rewrite Hc.
    apply insert_subseteq. by eapply not_defined_not_constant.
  - rewrite bool_decide_eq_false_2 by congruence.
    destruct (E' !! e); exists sc'; (split; [|done]); [|done].
    by rewrite list_lookup_insert_ne.
Qed.

Lemma grows_const_def V :
  visitors_ok keeps grows V ->
  forall ty n init, mrel grows (visit_const_def V ty n init).
Proof.
  intros HV ty n init. unfold visit_const_def.
  pose proof keeps_quiet as Hq.
  destruct (negb _).
  { apply (mrel_weaken keeps); [apply keeps_grows|]. eapply e_add_error; eauto; exact _. }
  intros s o s'. mrun.
  destruct (is_poisoned s n); [by intros [= <- <-]|].
  unfold env_is_defined. mrun.
  destruct (is_defined (envs s) (env s) n) eqn:Hd.
  { intros Hrun. apply keeps_grows. revert Hrun.
    apply (mrel_bind keeps); [eapply e_add_error; eauto; exact _|].
    intros _. eapply e_poison; eauto; exact _. }
  unfold bind at 1.
  destruct (v_expr V init s) as [[v|e|r] s1] eqn:Hv;
    pose proof (ok_expr _ _ _ HV init s _ _ Hv) as H1;
    try (intros [= <- <-]; by apply keeps_grows).
  unfold bind at 1.
  destruct (cast_initial v (declared_type ty) n s1) as [[c|e|r] s2] eqn:Hc;
    pose proof (e_cast_initial keeps Hq v (declared_type ty) n s1 _ _ Hc) as H2;
    assert (H12 : keeps s s2) by (by etransitivity);
    try (intros [= <- <-]; by apply keeps_grows).
  assert (Hdef : grows s (set_envs (define_const (envs s2) (env s2) n c) s2)).
  { destruct H12 as [He HK]. split; [done|]. simpl. rewrite He.
    by apply define_const_grows. }
  destruct c; unfold env_define_const, mark_assigned, mark_defined; mrun; mfin;
    intros [= <- <-]; solve [by apply keeps_grows | destruct Hdef; by split].
Qed.

Lemma keeps_visit fuel : visitors_ok keeps grows (visitors_at fuel).
Proof.
  apply visitors_at_ok; try exact _.
  - apply keeps_grows.
  - apply keeps_quiet.
  - apply grows_store.
  - apply keeps_call.
  - apply grows_const_def.
Qed.

Lemma grows_run_statement fuel i item : mrel grows (run_statement fuel i item).
Proof.
  unfold run_statement. apply mrel_bind; try exact _.
  - apply mrel_modify. intros s. split; simpl; auto using constants_kept_refl.
  - intros _. apply mrel_try_except; try exact _.
    + destruct item; [apply (keeps_visit fuel) | apply mrel_ret; exact _].
    + intros e. destruct (has_marker e); [apply mrel_ret; exact _|].
      apply mrel_bind; try exact _; [apply mrel_gets; exact _|].
      intros line. apply mrel_modify. intros s. apply keeps_grows, keeps_quiet. constructor.
Qed.

Lemma grows_run_statements fuel items : forall i, mrel grows (run_statements fuel i items).
Proof.
  induction items as [|item rest IH]; intros i; simpl.
  - apply mrel_ret; exact _.
  - apply mrel_bind; try exact _; auto using grows_run_statement.
Qed.

Lemma grows_constant s s' e sc name c :
  grows s s' -> envs s !! e = Some sc -> constants sc !! name = Some c ->
  exists sc', envs s' !! e = Some sc' /\ constants sc' !! name = Some c.
Proof.
  intros [_ HK] He Hc. destruct (HK e sc He) as (sc' & He' & Hs).
  exists sc'. split; [done|].
  case_bool_decide; [by eapply lookup_weaken|by rewrite Hs].
Qed.

(** C2, as amended.  A constant [name] of an environment has the value it
    was defined with after every statement, whether visited inside a block
    or by the loop of [execute].  An assignment statement to a constant of
    the current scope, its right-hand side evaluated, changes no binding; it
    leaves the error "Cannot assign values to constants afterward" in the
    error list when the name is not poisoned, and nothing at all when the
    name is poisoned.  An assignment from an inner scope to a constant of an
    enclosing one, the name not poisoned, changes no binding either: it
    raises "Cannot modify constant" when the cast into the type of the
    constant succeeds, and records the error of the cast when it fails. *)
Theorem constants_are_immutable s e sc name c :
  envs s !! e = Some sc ->
  constants sc !! name = Some c ->
  (forall fuel st o s', v_statement (visitors_at fuel) st s = (o, s') ->
     exists sc', envs s' !! e = Some sc' /\ constants sc' !! name = Some c)
  /\ (forall fuel i items o s', run_statements fuel i items s = (o, s') ->
        exists sc', envs s' !! e = Some sc' /\ constants sc' !! name = Some c)
  /\ (forall fuel rhs v s1,
        e = env s ->
        v_expr (visitors_at fuel) rhs s = (Ok v, s1) ->
        let msg := "Cannot assign values to constants afterward: '" +:+ name +:+ "'" in
        visit_assignment (visitors_at fuel) name rhs s
          = (Ok tt, if is_poisoned s1 name then s1 else record_error msg 0 s1)
        /\ envs (record_error msg 0 s1) = envs s1
        /\ full_error_msg s1 msg 0 ∈ errors (record_error msg 0 s1)
        /\ exists sc', envs s1 !! e = Some sc' /\ constants sc' !! name = Some c)
  /\ forall v,
       binder (envs s) (env s) name = Some (e, sc) ->
       e <> env s ->
       is_poisoned s name = false ->
       c <> VNone ->
       match cast_attempt s v (type_name_of c) with
       | CastOk _ => assign name v s = (Raise ("Cannot modify constant: " +:+ name), s)
       | CastEscapes x => assign name v s = (Raise x, s)
       | _ =>
           exists s' msg, assign name v s = (Ok tt, s')
             /\ envs s' = envs s
             /\ full_error_msg s msg 0 ∈ errors s'
       end.
Proof.
  intros He Hc. split_and!.
  - intros fuel st o s' Hrun. eapply grows_constant; eauto.
    eapply (ok_statement _ _ _ (keeps_visit fuel)); eauto.
  - intros fuel i items o s' Hrun. eapply grows_constant; eauto.
    eapply grows_run_statements; eauto.
  - intros fuel rhs v s1 -> Hv msg.
    pose proof (ok_expr _ _ _ (keeps_visit fuel) rhs s _ _ Hv) as Hk.
    destruct (grows_constant _ _ _ _ _ _ (keeps_grows _ _ Hk) He Hc) as (sc' & He' & Hc').
    split_and!.
    + unfold visit_assignment. rewrite (bind_run _ _ _ _ _ Hv).
      unfold assign. mrun.
      destruct (is_poisoned s1 name); [reflexivity|].
      unfold env_is_defined, env_is_constant. mrun.
      rewrite (keeps_env _ _ Hk).
      rewrite (is_defined_here _ _ _ _ He'). unfold is_constant, has_key.
      rewrite Hc', orb_true_r. simpl. mrun.
      rewrite (keeps_env _ _ Hk), He', Hc'.
      unfold _add_error. mfin. reflexivity.
    + apply record_error_envs.
    + apply record_error_recorded.
    + eauto.
  - intros v Hb Hne Hp Hnn.
    assert (Hdef : is_defined (envs s) (env s) name = true).
    { unfold is_defined. eapply binder_from_defined. exact Hb. }
    assert (Hcon : is_constant (envs s) (env s) name = false).
    { rewrite (binder_from_is_constant _ _ _ _ _ _ Hb).
      by rewrite bool_decide_eq_false_2. }
    assert (Hget : get_value (envs s) (env s) name = Some c).
    { unfold get_value. by rewrite (binder_from_get_value _ _ _ _ _ _ Hb), Hc. }
    rewrite (assign_cast name v c s Hp Hdef Hcon Hget Hnn).
    destruct (cast_attempt s v (type_name_of c)) as [v'|x|x|] eqn:Hcast.
    + unfold env_set_value. mrun. unfold set_value.
      rewrite (binder_from_set_value _ v' _ _ _ _ _ (le_n _) Hb). unfold has_key.
      rewrite Hc. reflexivity.
    + unfold _add_error, when, poison. mrun.
      destruct (negb _); mrun; mfin; eexists _, _; (split; [reflexivity|]); simpl;
        auto using record_error_envs, record_error_recorded.
    + reflexivity.
    + unfold _add_error, when, poison. mrun.
      destruct (negb _); mrun; mfin; eexists _, _; (split; [reflexivity|]); simpl;
        auto using record_error_envs, record_error_recorded.
Qed.

(** ** Further properties of the evaluator *)

(** *** The loop of [execute], for any relation the visitors keep *)

Section Runs.
Variables Re Rs : relation state.
Context {POs : PreOrder Rs}.
Hypothesis visit_ok : forall fuel, visitors_ok Re Rs (visitors_at fuel).
Hypothesis step_ok : forall s s', store_step s s' -> Rs s s'.
Hypothesis line_ok : forall x s, Rs s (set_current_line_num x s).

Lemma run_statement_ok fuel i item : mrel Rs (run_statement fuel i item).
Proof.
  unfold run_statement. apply mrel_bind; try exact _.
  - apply mrel_modify. intros s. apply line_ok.
  - intros _. apply mrel_try_except; try exact _.
    + destruct item; [apply (visit_ok fuel) | apply mrel_ret; exact _].
    + intros e. destruct (has_marker e); [apply mrel_ret; exact _|].
      apply mrel_bind; try exact _; [apply mrel_gets; exact _|].
      intros line. apply mrel_modify. intros s. apply step_ok. do 2 constructor.
Qed.

Lemma run_statements_ok fuel items : forall i, mrel Rs (run_statements fuel i items).
Proof.
  induction items as [|item rest IH]; intros i; simpl.
  - apply mrel_ret; exact _.
  - apply mrel_bind; try exact _; auto using run_statement_ok.
Qed.

Lemma execute_ok fuel ast : mrel Rs (execute fuel ast).
Proof.
  destruct ast as [items|]; simpl; [|apply mrel_ret; exact _].
  apply mrel_bind; try exact _.
  { unfold collect_defined_vars. apply mrel_modify. intros s. apply step_ok.
    apply ss_defined. }
  intros _. apply mrel_bind; try exact _.
  { apply mrel_modify. intros s. apply line_ok. }
  intros _. apply mrel_bind; try exact _; [apply run_statements_ok|].
  intros _ s o s'. unfold check_unused_vars.
  destruct (_ || _); intros [= <- <-]; [reflexivity|].
  apply step_ok. do 2 constructor.
Qed.

End Runs.

(** *** The error list *)

#[local] Instance extends_preorder : PreOrder extends.
Proof.
  split.
  - intros s. split; auto.
  - intros s1 s2 s3 [] []. split; auto; by etransitivity.
Qed.

Lemma extends_same s s' :
  errors s' = errors s -> error_vars_list s' = error_vars_list s -> extends s s'.
Proof. intros He Hp. split; rewrite ?He, ?Hp; auto. Qed.

Lemma extends_quiet s s' : quiet_step s s' -> extends s s'.
Proof.
  destruct 1; try (by apply extends_same).
  - unfold record_error. case_bool_decide as Hin; [reflexivity|].
    split; simpl; [by apply prefix_app_r|done|].
    intros Hnd. apply NoDup_app. split_and!; [done| |apply NoDup_singleton].
    intros x Hx Hx'. apply list_elem_of_singleton in Hx'. by subst.
  - split; simpl; [done|by apply prefix_app_r|done].
Qed.

Lemma extends_store s s' : store_step s s' -> extends s s'.
Proof. destruct 1; try (by apply extends_same). by apply extends_quiet. Qed.

Lemma extends_call f bound s s' :
  extends (enter_call f bound s) s' -> extends s (leave_call s s').
Proof. intros [He Hp Hn]. split; simpl; auto. Qed.

Lemma extends_visit fuel : visitors_ok extends extends (visitors_at fuel).
Proof.
  pose proof extends_quiet. pose proof extends_store. pose proof extends_call.
  apply visitors_at_ok; try exact _; auto.
  intros V HV ty n init.
  eapply s_visit_const_def_simple with (Re := extends); try exact _; eauto.
  intros name v. apply mrel_modify. intros s. by apply extends_same.
Qed.

(** X1.  Whatever [execute] runs, the errors recorded and the names
    poisoned before are still there afterwards, in the same order: nothing
    is ever taken out of [errors] or [error_vars_list], and what is new comes
    after what was there. *)
Theorem errors_accumulate fuel ast s o s' :
  execute fuel ast s = (o, s') ->
  errors s `prefix_of` errors s' /\ error_vars_list s `prefix_of` error_vars_list s'.
Proof.
  intros Hrun.
  assert (Hx : extends s s'); [|by destruct Hx].
  eapply (execute_ok extends extends); eauto.
  - apply extends_visit.
  - apply extends_store.
  - intros x s0. by apply extends_same.
Qed.

(** X2.  The error list of a run holds no message twice: [_add_error]
    leaves out a message that is already there, so an error that comes up
    again (in a loop, or on another line when no debug mode gives the line)
    is reported once. *)
Theorem errors_reported_once fuel ast debug debug_plus lines input_lines :
  NoDup (errors (execute fuel ast (new_checker debug debug_plus lines input_lines)).2).
Proof.
  destruct (execute fuel ast (new_checker debug debug_plus lines input_lines))
    as [o s'] eqn:Hrun. simpl.
  assert (Hx : extends (new_checker debug debug_plus lines input_lines) s').
  { eapply (execute_ok extends extends); eauto.
    - apply extends_visit.
    - apply extends_store.
    - intros x s0. by apply extends_same. }
  apply Hx. simpl. apply NoDup_nil_2.
Qed.

(** *** Exceptions at top level *)

Lemma run_statement_outcome fuel i item s :
  exists s', run_statement fuel i item s = (Ok tt, s')
             \/ exists r, run_statement fuel i item s = (Stop r, s').
Proof.
  unfold run_statement. rewrite bind_modify. unfold try_except.
  destruct (match item with
            | TopStatement _ st => v_statement (visitors_at fuel) st
            | TopNewline => ret tt
            end (set_current_line_num
                   match item with
                   | TopStatement (Some line) _ => line
                   | _ => i + 1
                   end s)) as [[[]|e|r] s1]; eauto.
  destruct (has_marker e); [by eauto|].
  rewrite bind_gets. unfold _add_error. mfin. eauto.
Qed.

(** X3.  The loop of [execute] never lets an exception out: whatever the
    statements do, it ends normally (or, in the embedding, at the end of its
    fuel), every statement having had its turn. *)
Theorem execute_never_raises fuel ast s :
  exists s', execute fuel ast s = (Ok tt, s')
             \/ exists r, execute fuel ast s = (Stop r, s').
Proof.
  assert (Hloop : forall items i s0,
            exists s', run_statements fuel i items s0 = (Ok tt, s')
                       \/ exists r, run_statements fuel i items s0 = (Stop r, s')).
  { induction items as [|item rest IH]; intros i s0; simpl; [by eauto|].
    rewrite bind_case.
    destruct (run_statement_outcome fuel i item s0) as (s1 & [-> | [r ->]]); [|by eauto].
    apply IH. }
  destruct ast as [items|]; simpl; [|by eauto].
  unfold collect_defined_vars. rewrite !bind_modify. rewrite bind_case.
  match goal with |- context [run_statements fuel 0 items ?s0] =>
    destruct (Hloop items 0 s0) as (s1 & [-> | [r ->]]) end; [|by eauto].
  unfold check_unused_vars. destruct (_ || _); eauto.
Qed.

(** X4.  A statement at top level that raises an exception is given up
    there: its message is recorded as an error (unless it shows a marker of
    the tree, when it is dropped), and the loop goes on with the next
    statement. *)
Theorem exception_is_recorded fuel i line st rest s e s1 :
  v_statement (visitors_at fuel) st
      (set_current_line_num (default (i + 1) line) s) = (Raise e, s1) ->
  let s2 := if has_marker e then s1 else record_error e (current_line_num s1) s1 in
  run_statement fuel i (TopStatement line st) s = (Ok tt, s2)
  /\ run_statements fuel i (TopStatement line st :: rest) s
     = run_statements fuel (i + 1) rest s2.
Proof.
  intros Hraise s2.
  assert (Hrun : run_statement fuel i (TopStatement line st) s = (Ok tt, s2)).
  { unfold run_statement. rewrite bind_modify. unfold try_except.
    replace (match line with Some l => l | None => i + 1 end) with (default (i + 1) line)
      by by destruct line.
    rewrite Hraise. unfold s2. destruct (has_marker e); [reflexivity|].
    rewrite bind_gets. reflexivity. }
  split; [done|]. simpl run_statements. by rewrite (bind_run _ _ _ _ _ Hrun).
Qed.

(** *** The frame of the caller *)

#[local] Instance same_frame_preorder : PreOrder same_frame.
Proof.
  split.
  - intros s. by split.
  - intros s1 s2 s3 [] []. split; congruence.
Qed.

#[local] Instance same_env_preorder : PreOrder same_env.
Proof.
  split.
  - intros s. reflexivity.
  - intros s1 s2 s3. unfold same_env. congruence.
Qed.

Lemma same_frame_quiet s s' : quiet_step s s' -> same_frame s s'.
Proof. destruct 1; split; simpl; auto; unfold record_error; by case_bool_decide. Qed.

Lemma same_env_store s s' : store_step s s' -> same_env s s'.
Proof.
  destruct 1; try reflexivity.
  by apply same_frame_quiet.
Qed.

Lemma same_frame_visit fuel : visitors_ok same_frame same_env (visitors_at fuel).
Proof.
  apply visitors_at_ok; try exact _.
  - by intros s s' [].
  - apply same_frame_quiet.
  - apply same_env_store.
  - intros f bound s s' _. by split.
  - intros V HV ty n init.
    eapply s_visit_const_def_simple with (Re := same_frame); try exact _; eauto.
    + by intros s s' [].
    + apply same_frame_quiet.
    + apply same_env_store.
    + intros name v. apply mrel_modify. intros s. reflexivity.
Qed.

(** X5.  Evaluating an expression, with all the calls of functions in it,
    leaves the evaluator where it was: in the same current environment, with
    the same pending return and return value.  A [back.value] in a function
    ends that function only, and the caller's frame is put back even when
    the body raises.  A statement, whatever it runs, ends in the environment
    it started in. *)
Theorem caller_frame_restored fuel s o s' :
  (forall e, v_expr (visitors_at fuel) e s = (o, s') ->
     env s' = env s
     /\ should_return s' = should_return s
     /\ return_value s' = return_value s)
  /\ (forall st o', v_statement (visitors_at fuel) st s = (o', s') -> env s' = env s).
Proof.
  split.
  - intros e Hrun.
    destruct (ok_expr _ _ _ (same_frame_visit fuel) e s o s' Hrun). auto.
  - intros st o'. apply (ok_statement _ _ _ (same_frame_visit fuel)).
Qed.

(** *** The names of a scope *)

Lemma scopes_kept_refl o E : scopes_kept o E E.
Proof. intros e sc He. exists sc. auto. Qed.

Lemma scopes_kept_trans o E1 E2 E3 :
  scopes_kept o E1 E2 -> scopes_kept o E2 E3 -> scopes_kept o E1 E3.
Proof.
  intros H12 H23 e sc1 He.
  destruct (H12 e sc1 He) as (sc2 & He2 & Hp2 & H2).
  destruct (H23 e sc2 He2) as (sc3 & He3 & Hp3 & H3).
  exists sc3. split_and!; [done|congruence|].
  intros Ho. destruct (H2 Ho) as (? & ? & ?), (H3 Ho) as (? & ? & ?).
  split_and!; congruence.
Qed.

Lemma scopes_kept_weaken o E E' : scopes_kept None E E' -> scopes_kept o E E'.
Proof.
  intros HK e sc He. destruct (HK e sc He) as (sc' & He' & Hp & Hs).
  exists sc'. split_and!; [done..|]. intros _. by apply Hs.
Qed.

(** An environment replaced by one that differs in the values of its
    variables, or, when it is the open one, in anything but its parent. *)
Lemma scopes_kept_insert o E e sc sc' :
  E !! e = Some sc -> parent sc' = parent sc ->
  (o <> Some e ->
   dom (variables sc') = dom (variables sc)
   /\ constants sc' = constants sc /\ functions sc' = functions sc) ->
  scopes_kept o E (<[e := sc']> E).
Proof.
  intros He Hp Hs e0 sc0 He0.
  destruct (decide (e0 = e)) as [->|Hne].
  - exists sc'. rewrite He in He0. injection He0 as <-. split_and!; [|done..].
    apply list_lookup_insert_eq. by eapply lookup_lt_Some.
  - exists sc0. split_and!; [|done..]. by rewrite list_lookup_insert_ne.
Qed.

Lemma define_var_scopes E e name v : scopes_kept (Some e) E (define_var E e name v).
Proof.
  unfold define_var. destruct (E !! e) as [sc|] eqn:He; [|apply scopes_kept_refl].
  eapply scopes_kept_insert; eauto. done.
Qed.

Lemma define_const_scopes E e name v : scopes_kept (Some e) E (define_const E e name v).
Proof.
  unfold define_const. destruct (E !! e) as [sc|] eqn:He; [|apply scopes_kept_refl].
  eapply scopes_kept_insert; eauto. done.
Qed.

Lemma define_func_scopes E e name f : scopes_kept (Some e) E (define_func E e name f).
Proof.
  unfold define_func. destruct (E !! e) as [sc|] eqn:He; [|apply scopes_kept_refl].
  eapply scopes_kept_insert; eauto. done.
Qed.

Lemma pop_var_scopes E e name : scopes_kept (Some e) E (pop_var E e name).
Proof.
  unfold pop_var. destruct (E !! e) as [sc|] eqn:He; [|apply scopes_kept_refl].
  eapply scopes_kept_insert; eauto. done.
Qed.

Lemma set_value_from_scopes depth E name v :
  forall e E', set_value_from depth E e name v = inr E' -> scopes_kept None E E'.
Proof.
  induction depth as [|depth IH]; intros e E'; simpl; [done|].
  destruct (E !! e) as [sc|] eqn:He; [|done].
  destruct (has_key (constants sc) name); [done|].
  destruct (has_key (variables sc) name) eqn:Hk.
  { intros [= <-]. eapply scopes_kept_insert; eauto. intros _. split_and!; [|done..].
    simpl. unfold has_key in Hk. destruct (variables sc !! name) eqn:Hv; [|done].
    apply set_eq. intros x. rewrite dom_insert, elem_of_union, elem_of_singleton.
    split; [intros [->|]; [by apply elem_of_dom|done] | auto]. }
  destruct (parent sc) as [p|]; [|done].
  destruct (is_defined E p name); [|done]. apply IH.
Qed.

#[local] Instance hygienic_preorder : PreOrder hygienic.
Proof.
  split.
  - intros s. split; [done|apply scopes_kept_refl].
  - intros s1 s2 s3 [] []. split; [congruence|by eapply scopes_kept_trans].
Qed.

#[local] Instance hygienic_but_here_preorder : PreOrder hygienic_but_here.
Proof.
  split.
  - intros s. split; [done|apply scopes_kept_refl].
  - intros s1 s2 s3 [He1 H1] [He2 H2]. split; [congruence|].
    rewrite He1 in H2. by eapply scopes_kept_trans.
Qed.

Lemma hygienic_here s s' : hygienic s s' -> hygienic_but_here s s'.
Proof. intros []. split; [done|by apply scopes_kept_weaken]. Qed.

Lemma hygienic_quiet s s' : quiet_step s s' -> hygienic s s'.
Proof.
  destruct 1; (split; [|simpl; try apply scopes_kept_refl]); simpl; auto;
    unfold record_error; case_bool_decide; simpl; auto using scopes_kept_refl.
Qed.

Lemma hygienic_store s s' : store_step s s' -> hygienic_but_here s s'.
Proof.
  destruct 1; try (by apply hygienic_here, hygienic_quiet).
  all: split; simpl; auto using scopes_kept_refl, define_var_scopes,
         define_func_scopes, pop_var_scopes.
  apply scopes_kept_weaken. by eapply set_value_from_scopes.
Qed.

Lemma enter_call_scopes f bound s :
  scopes_kept None (envs s) (envs (enter_call f bound s)).
Proof.
  unfold enter_call. simpl.
  assert (Hnew : forall E e sc, E !! e = Some sc -> e <> List.length (envs s) ->
            (List.length (envs s) < List.length E)%nat ->
            exists sc', fold_left (fun E '(name, v) =>
                          define_var E (List.length (envs s)) name v) bound E !! e = Some sc'
              /\ sc' = sc).
  { induction bound as [|[name v] bound IH]; intros E e sc He Hne Hlt; simpl; [by eauto|].
    apply IH; [|done|].
    - unfold define_var. destruct (E !! List.length (envs s)); [|done].
      by rewrite list_lookup_insert_ne.
    - unfold define_var. destruct (E !! List.length (envs s)); [|done].
      by rewrite length_insert. }
  intros e sc He.
  destruct (Hnew (envs s ++ [Env ∅ ∅ ∅ (Some (f_env f))]) e sc) as (sc' & He' & ->).
  - by apply lookup_app_l_Some.
  - apply lookup_lt_Some in He. lia.
  - rewrite length_app. simpl. lia.
  - exists sc. auto.
Qed.

Lemma hygienic_call f bound s s' :
  hygienic_but_here (enter_call f bound s) s' -> hygienic s (leave_call s s').
Proof.
  intros [He HK]. split; [done|]. simpl.
  intros e sc Hsc.
  destruct (enter_call_scopes f bound s e sc Hsc) as (sc1 & Hsc1 & Hp1 & Hs1).
  destruct (HK e sc1 Hsc1) as (sc2 & Hsc2 & Hp2 & Hs2).
  exists sc2. split_and!; [done|congruence|]. intros _.
  destruct (Hs1 ltac:(done)) as (? & ? & ?).
  destruct Hs2 as (? & ? & ?); [|split_and!; congruence].
  intros [= Heq]. apply lookup_lt_Some in Hsc.
  unfold enter_call in Heq. simpl in Heq. lia.
Qed.

Lemma hygienic_visit fuel : visitors_ok hygienic hygienic_but_here (visitors_at fuel).
Proof.
  apply visitors_at_ok; try exact _.
  - apply hygienic_here.
  - apply hygienic_quiet.
  - apply hygienic_store.
  - apply hygienic_call.
  - intros V HV ty n init.
    eapply s_visit_const_def_simple with (Re := hygienic); try exact _; eauto.
    + apply hygienic_here.
    + apply hygienic_quiet.
    + apply hygienic_store.
    + intros name v. apply mrel_modify. intros s. split; [done|].
      apply define_const_scopes.
Qed.

(** X6.  Evaluating an expression, with all the calls of functions in it,
    changes no scope that was there before but in the values of its
    variables: every one of them keeps its parent, the names of its
    variables, its constants and its functions.  What the body of a function
    defines lives in the scope of the call. *)
Theorem calls_keep_scopes fuel e s o s' i sc :
  v_expr (visitors_at fuel) e s = (o, s') ->
  envs s !! i = Some sc ->
  exists sc', envs s' !! i = Some sc'
    /\ parent sc' = parent sc
    /\ dom (variables sc') = dom (variables sc)
    /\ constants sc' = constants sc
    /\ functions sc' = functions sc.
Proof.
  intros Hrun Hi.
  destruct (ok_expr _ _ _ (hygienic_visit fuel) e s o s' Hrun) as [_ HK].
  destruct (HK i sc Hi) as (sc' & Hi' & Hp & Hs).
  exists sc'. destruct Hs as (? & ? & ?); [done|]. auto.
Qed.

(** *** Lookups in an environment *)

Lemma is_defined_from_get_value depth : forall E e name,
  is_defined_from depth E e name = true <-> is_Some (get_value_from depth E e name).
Proof.
  induction depth as [|depth IH]; intros E e name; simpl.
  { split; [done|]. by intros [? ?]. }
  destruct (E !! e) as [sc|]; [|split; [done|by intros [? ?]]].
  unfold has_key.
  destruct (constants sc !! name); [by rewrite orb_true_r|].
  destruct (variables sc !! name); [done|].
  destruct (functions sc !! name); [done|]. simpl.
  destruct (parent sc); [apply IH|]. split; [done|by intros [? ?]].
Qed.

(** X7.  [is_defined] and [get_value] agree: a name is defined, seen from
    a scope, exactly when [get_value] finds a value for it there and does not
    raise "Variable not defined". *)
Theorem defined_iff_value E e name :
  is_defined E e name = true <-> is_Some (get_value E e name).
Proof. apply is_defined_from_get_value. Qed.

(** X8.  [define_var] then [get_value], in the same scope: the value just
    bound, unless the scope has a constant of that name, which is found
    first.  The name is defined afterwards, and every other name is looked up
    as before, from every scope. *)
Theorem define_var_then_lookup E e sc name v :
  E !! e = Some sc ->
  get_value (define_var E e name v) e name = Some (default v (constants sc !! name))
  /\ is_defined (define_var E e name v) e name = true
  /\ forall e' name', name' <> name ->
       get_value (define_var E e name v) e' name' = get_value E e' name'
       /\ is_defined (define_var E e name v) e' name' = is_defined E e' name'.
Proof.
  intros He.
  assert (Hl : define_var E e name v !! e = Some (put_var name v sc)).
  { unfold define_var. rewrite He. apply list_lookup_insert_eq. by eapply lookup_lt_Some. }
  split_and!.
  - rewrite (get_value_here _ _ _ _ Hl). simpl.
    destruct (constants sc !! name); [done|]. by rewrite lookup_insert_eq.
  - rewrite (is_defined_here _ _ _ _ Hl). unfold has_key at 1. simpl.
    by rewrite lookup_insert_eq.
  - intros e' name' Hne. unfold define_var, get_value, is_defined.
    rewrite He, length_insert. split.
    + by apply get_value_from_define_var.
    + by apply is_defined_from_define_var.
Qed.

Lemma set_value_from_result depth v : forall E e name,
  match set_value_from depth E e name v with
  | inr E' =>
      exists a sc, E !! a = Some sc /\ constants sc !! name = None
        /\ is_Some (variables sc !! name) /\ E' = <[a := put_var name v sc]> E
  | inl msg =>
      msg = "Cannot modify constant: " +:+ name \/ msg = "Variable not defined: " +:+ name
  end.
Proof.
  induction depth as [|depth IH]; intros E e name; simpl; [by right|].
  destruct (E !! e) as [sc|] eqn:He; [|by right]. unfold has_key.
  destruct (constants sc !! name) eqn:Hc; [by left|].
  destruct (variables sc !! name) eqn:Hv; [by eauto 10|].
  destruct (parent sc); [|by right].
  destruct (is_defined E n name); [apply IH|by right].
Qed.

(** X9.  [set_value] either rebinds one variable or raises.  When it
    returns, one scope of the chain, where the name is a variable and no
    constant, holds the new value under that name, and nothing else changed:
    it never makes a new name.  When it raises, the message is "Cannot modify
    constant" or "Variable not defined". *)
Theorem set_value_rebinds E e name v :
  match set_value E e name v with
  | inr E' =>
      exists a sc, E !! a = Some sc /\ constants sc !! name = None
        /\ is_Some (variables sc !! name) /\ E' = <[a := put_var name v sc]> E
        /\ get_value E' a name = Some v
  | inl msg =>
      msg = "Cannot modify constant: " +:+ name \/ msg = "Variable not defined: " +:+ name
  end.
Proof.
  unfold set_value.
  pose proof (set_value_from_result (List.length E) v E e name) as Hr.
  destruct (set_value_from (List.length E) E e name v) as [msg|E']; [done|].
  destruct Hr as (a & sc & Ha & Hc & Hv & ->).
  exists a, sc. split_and!; [done..|].
  assert (Hl : <[a := put_var name v sc]> E !! a = Some (put_var name v sc)).
  { apply list_lookup_insert_eq. by eapply lookup_lt_Some. }
  rewrite (get_value_here _ _ _ _ Hl). simpl. by rewrite Hc, lookup_insert_eq.
Qed.

(** *** Casts *)

(** X10.  [cast_type] returns a value of exactly the type asked for, the
    state untouched; or no value: silently when the variable named is already
    poisoned, otherwise after recording an error and, when a variable is
    named, poisoning it.  No binding changes either way. *)
Theorem cast_type_result v t name s o s' :
  cast_type v t name s = (o, s') ->
  envs s' = envs s
  /\ match o with
     | Ok VNone =>
         (name <> "" /\ is_poisoned s name = true /\ s' = s)
         \/ (exists msg, full_error_msg s msg 0 ∈ errors s'
               /\ (name <> "" -> is_poisoned s' name = true))
     | Ok v' => type_name_of v' = t /\ s' = s
     | Raise _ => s' = s
     | Stop _ => False
     end.
Proof.
  unfold cast_type. mrun.
  destruct (negb (String.eqb name "") && is_poisoned s name) eqn:Hskip.
  { mfin. intros [= <- <-]. split; [done|]. left.
    apply andb_prop in Hskip as [Hn Hp]. apply negb_true_iff, String.eqb_neq in Hn. done. }
  mrun.
  destruct (cast_attempt s v t) as [v'|e|e|] eqn:Hcast.
  - mfin. intros [= <- <-]. split; [done|].
    destruct (cast_attempt_type _ _ _ _ Hcast) as [Hty Hnn]. by destruct v'.
  - unfold _add_error, when, poison. mrun.
    destruct (negb (String.eqb name "")) eqn:Hn; mrun; mfin; intros [= <- <-]; simpl;
      (split; [apply record_error_envs|]); right; eexists;
      (split; [apply record_error_recorded|]).
    + intros _. unfold is_poisoned. apply bool_decide_eq_true. simpl.
      apply elem_of_app. right. by apply list_elem_of_singleton.
    + intros Hne. apply negb_false_iff, String.eqb_eq in Hn. done.
  - mfin. by intros [= <- <-].
  - unfold _add_error, when, poison. mrun.
    destruct (negb (String.eqb name "")) eqn:Hn; mrun; mfin; intros [= <- <-]; simpl;
      (split; [apply record_error_envs|]); right; eexists;
      (split; [apply record_error_recorded|]).
    + intros _. unfold is_poisoned. apply bool_decide_eq_true. simpl.
      apply elem_of_app. right. by apply list_elem_of_singleton.
    + intros Hne. apply negb_false_iff, String.eqb_eq in Hn. done.
Qed.

(** *** Integers and their text *)

Lemma digits_value_acc s : forall acc,
  digits_value s acc = acc * 10 ^ Z.of_nat (String.length s) + digits_value s 0.
Proof.
  induction s as [|c s IH]; intros acc; simpl String.length; simpl digits_value.
  - lia.
  - rewrite IH, (IH (10 * 0 + _)). rewrite Nat2Z.inj_succ, Z.pow_succ_r by lia. lia.
Qed.

Lemma pretty_N_char_digit d :
  (d < 10)%N ->
  is_digit_char (pretty_N_char d) = true
  /\ Z.of_nat (nat_of_ascii (pretty_N_char d)) - 48 = Z.of_N d.
Proof.
  intros Hd.
  assert (d = 0 \/ d = 1 \/ d = 2 \/ d = 3 \/ d = 4 \/ d = 5 \/ d = 6 \/ d = 7
          \/ d = 8 \/ d = 9)%N as Hcases by lia.
  destruct Hcases as [->|[->|[->|[->|[->|[->|[->|[->|[->| ->]]]]]]]]]; by compute.
Qed.

Lemma pretty_N_go_digits x : forall s,
  all_digits s = true ->
  all_digits (pretty_N_go x s) = true
  /\ digits_value (pretty_N_go x s) 0
     = Z.of_N x * 10 ^ Z.of_nat (String.length s) + digits_value s 0.
Proof.
  induction (N.lt_wf_0 x) as [x _ IH]; intros s Hs.
  assert (x = 0 \/ 0 < x)%N as [->|Hx] by lia.
  { rewrite pretty_N_go_0. split; [done|]. lia. }
  rewrite pretty_N_go_step by done.
  destruct (pretty_N_char_digit (x `mod` 10)) as [Hd Hv]; [by apply N.mod_lt|].
  destruct (IH (x `div` 10)%N) with (s := String (pretty_N_char (x `mod` 10)) s)
    as [Ha Hval].
  { by apply N.div_lt. }
  { simpl. by rewrite Hd, Hs. }
  split; [done|]. rewrite Hval. simpl String.length. simpl digits_value.
  rewrite (digits_value_acc s (10 * 0 + _)), Hv.
  rewrite Nat2Z.inj_succ, Z.pow_succ_r by lia.
  assert (Hdm : Z.of_N x = 10 * Z.of_N (x `div` 10) + Z.of_N (x `mod` 10)).
  { rewrite <- (N2Z.inj_mul 10), <- N2Z.inj_add. f_equal. apply N.div_mod. lia. }
  rewrite Hdm. lia.
Qed.

Lemma pretty_N_go_nonempty x c s : pretty_N_go x (String c s) <> "".
Proof.
  revert c s. induction (N.lt_wf_0 x) as [x _ IH]; intros c s.
  assert (x = 0 \/ 0 < x)%N as [->|Hx] by lia.
  - by rewrite pretty_N_go_0.
  - rewrite pretty_N_go_step by done. apply IH. by apply N.div_lt.
Qed.

Lemma pretty_positive_digits (p : positive) :
  isdigit (pretty p) = true /\ digits_value (pretty p) 0 = Z.pos p.
Proof.
  unfold pretty, pretty_positive, pretty, pretty_N.
  rewrite decide_False by done.
  rewrite pretty_N_go_step by lia.
  destruct (pretty_N_char_digit (N.pos p `mod` 10)) as [Hd Hv]; [by apply N.mod_lt|].
  destruct (pretty_N_go_digits (N.pos p `div` 10)
              (String (pretty_N_char (N.pos p `mod` 10)) "")) as [Ha Hval].
  { simpl. by rewrite Hd. }
  split.
  - unfold isdigit.
    destruct (pretty_N_go _ _) eqn:Hgo; [by apply pretty_N_go_nonempty in Hgo|done].
  - rewrite Hval. simpl String.length. simpl digits_value. rewrite Hv.
    assert (Hdm : Z.pos p = 10 * Z.of_N (N.pos p `div` 10) + Z.of_N (N.pos p `mod` 10)).
    { rewrite <- (N2Z.inj_mul 10), <- N2Z.inj_add.
      change (Z.pos p) with (Z.of_N (N.pos p)). f_equal. apply N.div_mod. lia. }
    rewrite Hdm. lia.
Qed.

Lemma parse_int_pretty (z : Z) : parse_int (pretty z) = Some z.
Proof.
  destruct z as [|p|p]; [reflexivity| |].
  - destruct (pretty_positive_digits p) as [Hd Hv].
    unfold parse_int. change (pretty (Z.pos p)) with (pretty p). by rewrite Hd, Hv.
  - destruct (pretty_positive_digits p) as [Hd Hv].
    unfold parse_int. change (pretty (Z.neg p)) with (String "-" (pretty p)).
    assert (H1 : isdigit (String "-" (pretty p)) = false) by reflexivity.
    assert (H2 : startswith "-" (String "-" (pretty p)) = true).
    { unfold startswith.
      change (String.prefix "-" (String "-" (pretty p))) with (String.prefix "" (pretty p)).
      by destruct (pretty p). }
    rewrite H1, H2. change (tail_str (String "-" (pretty p))) with (pretty p).
    by rewrite Hd, Hv.
Qed.

Lemma all_digits_no_dot s : all_digits s = true -> contains "." s = false.
Proof.
  induction s as [|c s IH]; [done|]. intros Hd.
  change (is_digit_char c && all_digits s = true) in Hd.
  apply andb_prop in Hd as [Hc Hs].
  change (String.prefix "." (String c s) || contains "." s = false).
  rewrite (IH Hs), orb_false_r.
  change ((if ascii_dec "." c then String.prefix "" s else false) = false).
  destruct (ascii_dec "." c) as [<-|]; [done|reflexivity].
Qed.

Lemma pretty_no_dot (z : Z) : contains "." (pretty z) = false.
Proof.
  assert (Hpos : forall p : positive, contains "." (pretty p) = false).
  { intros p. destruct (pretty_positive_digits p) as [Hd _].
    apply all_digits_no_dot. unfold isdigit in Hd. by destruct (pretty p). }
  destruct z as [|p|p]; [reflexivity|apply Hpos|].
  change (pretty (Z.neg p)) with (String "-" (pretty p)).
  change (contains "." (String "-" (pretty p))) with (false || contains "." (pretty p)).
  by rewrite Hpos.
Qed.

(** X11.  An integer and its text: the text of an integer, as [str] gives
    it, is accepted by the cast into ['int'] and by [visit_NUMBER], and read
    back as the same integer. *)
Theorem integer_text_round_trip z s :
  cast_attempt s (VInt z) "str" = CastOk (VStr (py_str s (VInt z)))
  /\ cast_attempt s (VStr (py_str s (VInt z))) "int" = CastOk (VInt z)
  /\ visit_NUMBER (py_str s (VInt z)) s = (Ok (VInt z), s).
Proof.
  split_and!.
  - reflexivity.
  - change (py_str s (VInt z)) with (pretty z). pose proof (parse_int_pretty z) as Hp.
    assert (Hguard : isdigit (pretty z)
                     || (startswith "-" (pretty z) && isdigit (tail_str (pretty z))) = true).
    { unfold parse_int in Hp. destruct (isdigit (pretty z)); [done|].
      by destruct (startswith "-" (pretty z) && isdigit (tail_str (pretty z))). }
    unfold cast_attempt. simpl String.eqb. cbv iota. by rewrite Hguard, Hp.
  - unfold visit_NUMBER. change (py_str s (VInt z)) with (pretty z).
    by rewrite pretty_no_dot, parse_int_pretty.
Qed.

(** *** Lists *)

(** X12.  An element of a list is read by an index from 0 up to the
    length of the list, not included.  Any other integer index, a negative
    one too, records "List index ... out of range" and yields no value. *)
Theorem list_access_in_bounds V name index_node s i s1 r :
  v_expr V index_node s = (Ok (VInt i), s1) ->
  is_poisoned s1 name = false ->
  get_value (envs s1) (env s1) name = Some (VList r) ->
  visit_list_access V name index_node s
  = match list_at s1 r !! Z.to_nat i with
    | Some v => if 0 <=? i then (Ok v, s1) else
        (Ok VNone,
         record_error ("List index " +:+ pretty i +:+ " out of range for list of length "
                       +:+ pretty (Z.of_nat (List.length (list_at s1 r)))) 0 s1)
    | None =>
        (Ok VNone,
         record_error ("List index " +:+ pretty i +:+ " out of range for list of length "
                       +:+ pretty (Z.of_nat (List.length (list_at s1 r)))) 0 s1)
    end.
Proof.
  intros Hi Hp Hget. unfold visit_list_access.
  rewrite (bind_run _ _ _ _ _ Hi). mrun. rewrite Hp. mrun.
  unfold env_is_defined, env_get_value. mrun.
  rewrite (get_value_defined _ _ _ _ Hget). mrun. rewrite Hget. mrun.
  destruct (Z.ltb_spec i 0) as [Hneg|Hpos]; simpl.
  { mrun. unfold _add_error. mfin.
    destruct (0 <=? i) eqn:H0; [lia|]. by destruct (list_at s1 r !! Z.to_nat i). }
  destruct (Z.leb_spec (Z.of_nat (List.length (list_at s1 r))) i) as [Hout|Hin]; mrun.
  - unfold _add_error. mfin. rewrite lookup_ge_None_2 by lia. reflexivity.
  - destruct (lookup_lt_is_Some_2 (list_at s1 r) (Z.to_nat i)) as [v Hv]; [lia|].
    rewrite Hv. destruct (0 <=? i) eqn:H0; [|lia]. mfin.
    by rewrite (nth_lookup_Some _ _ _ _ Hv).
Qed.

(** X13.  The method of a list statement is read off the line of the
    source that [current_line_num] numbers, not off the tree.  Where that
    line shows [.add(], the statement changes the list object itself: the
    object holds what it held and the value of the argument at its end; where
    it shows [.clear(] (and no [.add(]), the object holds nothing; every
    other list object is as it was, and what another name bound to the same
    object reads changes with it.  Where the line shows neither, or there is
    no such line, the statement records an error and does nothing.  In the
    loop of [execute] a statement that is the child [i] of [start], its tree
    keeping no position, is visited with the current line [i + 1]. *)
Theorem list_methods_update_in_place V name s r :
  is_poisoned s name = false ->
  get_value (envs s) (env s) name = Some (VList r) ->
  (forall element_node v s1 E,
     method_on_line s = "add" ->
     v_expr V element_node s = (Ok v, s1) ->
     set_value (envs s1) (env s1) name (VList r) = inr E ->
     (r < List.length (lists s1))%nat ->
     exists s', visit_list_method_call V name (Some element_node) s = (Ok tt, s')
       /\ list_at s' r = list_at s1 r ++ [v]
       /\ (forall r', r' <> r -> list_at s' r' = list_at s1 r')
       /\ envs s' = E /\ errors s' = errors s1)
  /\ (forall E,
        method_on_line s = "clear" ->
        set_value (envs s) (env s) name (VList r) = inr E ->
        (r < List.length (lists s))%nat ->
        exists s', visit_list_method_call V name None s = (Ok tt, s')
          /\ list_at s' r = []
          /\ (forall r', r' <> r -> list_at s' r' = list_at s r')
          /\ envs s' = E /\ errors s' = errors s)
  /\ (forall arg,
        method_on_line s = "" ->
        visit_list_method_call V name arg s
        = (Ok tt, record_error "Invalid list method call: could not extract method name" 0 s))
  /\ (forall fuel i arg s0 s',
        s = set_current_line_num (i + 1) s0 ->
        visit_list_method_call (visitors_at fuel) name arg s = (Ok tt, s') ->
        run_statement (S (S fuel)) i (TopStatement None (SListMethodCall name arg)) s0
        = (Ok tt, s')).
Proof.
  intros Hp Hget. split_and!.
  - intros element_node v s1 E Hm Hv Hset Hr.
    unfold visit_list_method_call. mrun. rewrite Hm.
    change ("add" =? "")%string with false. change ("add" =? "add")%string with true.
    cbv iota. mrun.
    rewrite Hp. mrun. unfold env_is_defined, env_get_value. mrun.
    rewrite (get_value_defined _ _ _ _ Hget). mrun. rewrite Hget. mrun.
    rewrite (bind_run _ _ _ _ _ Hv).
    unfold update_list, env_set_value, mark_assigned. mrun. simpl envs. simpl env.
    rewrite Hset. mrun. mfin. eexists. split; [reflexivity|]. simpl. split_and!; auto.
    + unfold list_at. simpl. by rewrite list_lookup_insert_eq.
    + intros r' Hne. unfold list_at. simpl. by rewrite list_lookup_insert_ne.
  - intros E Hm Hset Hr.
    unfold visit_list_method_call. mrun. rewrite Hm.
    change ("clear" =? "")%string with false. change ("clear" =? "add")%string with false.
    cbv iota. mrun.
    rewrite Hp. mrun. unfold env_is_defined, env_get_value. mrun.
    rewrite (get_value_defined _ _ _ _ Hget). mrun. rewrite Hget. mrun.
    unfold update_list, env_set_value, mark_assigned. mrun. simpl envs. simpl env.
    rewrite Hset. mrun. mfin. eexists. split; [reflexivity|]. simpl. split_and!; auto.
    + unfold list_at. simpl. by rewrite list_lookup_insert_eq.
    + intros r' Hne. unfold list_at. simpl. by rewrite list_lookup_insert_ne.
  - intros arg Hm. unfold visit_list_method_call. mrun. rewrite Hm. reflexivity.
  - intros fuel i arg s0 s' -> Hrun. unfold run_statement. rewrite bind_modify.
    unfold try_except.
    change (v_statement (visitors_at (S (S fuel))) (SListMethodCall name arg))
      with (visit (visit (visit_list_method_call (visitors_at fuel) name arg))).
    unfold visit. by rewrite Hrun.
Qed.

(** *** Calls *)

(** X14.  A call with another number of arguments than the function has
    parameters: the arguments are evaluated, the error "expects ... arguments
    but got ..." is recorded, the body is not run and the call yields no
    value. *)
Theorem call_with_wrong_arity V name args s f vals s1 :
  is_poisoned s name = false ->
  get_func (envs s) (env s) name = Some f ->
  visit_all (v_expr V) args (set_used_variables ({[name]} ∪ used_variables s) s)
    = (Ok vals, s1) ->
  List.length vals <> List.length (f_params f) ->
  visit_func_call V name args s
  = (Ok VNone,
     record_error ("Function '" +:+ name +:+ "' expects "
                   +:+ pretty (Z.of_nat (List.length (f_params f)))
                   +:+ " arguments but got " +:+ pretty (Z.of_nat (List.length vals))) 0 s1).
Proof.
  intros Hp Hf Hargs Hlen. unfold visit_func_call, mark_used. mrun.
  revert Hargs. set (s0 := set_used_variables ({[name]} ∪ used_variables s) s). intros Hargs.
  change (is_poisoned s0 name) with (is_poisoned s name). rewrite Hp. mrun.
  change (envs s0) with (envs s). change (env s0) with (env s).
  unfold is_function. rewrite Hf. mrun.
  change (envs s0) with (envs s). change (env s0) with (env s). rewrite Hf. mrun.
  rewrite (bind_run _ _ _ _ _ Hargs). rewrite length_map.
  destruct (Nat.eqb_spec (List.length vals) (List.length (f_params f))) as [|_]; [done|].
  simpl negb. cbv iota. unfold _add_error. mrun. mfin. reflexivity.
Qed.

(** X15.  A call of a name that is no function records "is not defined"
    and poisons the name, without evaluating an argument; from then on a call
    of that name yields no value and does nothing but note the use. *)
Theorem call_of_unknown_function V name args s :
  is_poisoned s name = false ->
  is_function (envs s) (env s) name = false ->
  visit_func_call V name args s
  = (Ok VNone,
     rejected ("Function '" +:+ name +:+ "' is not defined") name
       (set_used_variables ({[name]} ∪ used_variables s) s))
  /\ forall s2 V' args',
       later (rejected ("Function '" +:+ name +:+ "' is not defined") name
                (set_used_variables ({[name]} ∪ used_variables s) s)) s2 ->
       visit_func_call V' name args' s2
       = (Ok VNone, set_used_variables ({[name]} ∪ used_variables s2) s2).
Proof.
  intros Hp Hf. split.
  - unfold visit_func_call, mark_used. mrun.
    set (s0 := set_used_variables ({[name]} ∪ used_variables s) s).
    change (is_poisoned s0 name) with (is_poisoned s name). rewrite Hp. mrun.
    change (envs s0) with (envs s). change (env s0) with (env s).
    rewrite Hf. mrun. unfold _add_error, poison. mrun. mfin.
    reflexivity.
  - intros s2 V' args' Hl.
    assert (Hp2 : is_poisoned s2 name = true).
    { apply (is_poisoned_later _ _ _ Hl). unfold is_poisoned. apply bool_decide_eq_true.
      simpl. apply elem_of_app. right. by apply list_elem_of_singleton. }
    unfold visit_func_call, mark_used. mrun.
    change (is_poisoned (set_used_variables ({[name]} ∪ used_variables s2) s2) name)
      with (is_poisoned s2 name). rewrite Hp2. reflexivity.
Qed.

(** X30.  A call whose first argument cannot be cast to the type of its
    parameter records the error and yields no value, and it disables the
    function: [cast_type] poisons the name ["f argument 1"], and from then
    on every call of [f] yields no value without running the body, whatever
    its first argument is. *)
Theorem bad_argument_disables_function V name args s f p ty rest v vs s1 :
  is_poisoned s name = false ->
  get_func (envs s) (env s) name = Some f ->
  f_params f = (p, ty) :: rest ->
  visit_all (v_expr V) args (set_used_variables ({[name]} ∪ used_variables s) s)
    = (Ok (v :: vs), s1) ->
  List.length vs = List.length rest ->
  let arg1 := name +:+ " argument 1" in
  let refused :=
    "Argument 1 of function '" +:+ name +:+ "' cannot be cast to type '"
    +:+ param_type (f_params f) p +:+ "'" in
  (forall e,
     is_poisoned s1 arg1 = false ->
     cast_attempt s1 v (param_type (f_params f) p) = CastError e ->
     exists s', visit_func_call V name args s = (Ok VNone, s')
       /\ is_poisoned s' arg1 = true
       /\ full_error_msg s1 refused 0 ∈ errors s')
  /\ (is_poisoned s1 arg1 = true ->
      visit_func_call V name args s = (Ok VNone, record_error refused 0 s1)).
Proof.
  intros Hp Hf Hparams Hargs Hlen arg1 refused.
  assert (Hcall : visit_func_call V name args s
                  = bind (cast_args name (f_params f) 0 (p :: map fst rest) (v :: vs))
                      (fun casted => match casted with
                                     | None => ret VNone
                                     | Some bound => call_function V f bound
                                     end) s1).
  { unfold visit_func_call, mark_used. mrun.
    revert Hargs. set (s0 := set_used_variables ({[name]} ∪ used_variables s) s). intros Hargs.
    change (is_poisoned s0 name) with (is_poisoned s name). rewrite Hp. mrun.
    change (envs s0) with (envs s). change (env s0) with (env s).
    unfold is_function. rewrite Hf. mrun.
    change (envs s0) with (envs s). change (env s0) with (env s). rewrite Hf. mrun.
    rewrite (bind_run _ _ _ _ _ Hargs). rewrite length_map, Hparams.
    cbn [List.length map fst]. rewrite Hlen, Nat.eqb_refl. reflexivity. }
  rewrite Hcall. cbn [cast_args].
  set (a := name +:+ " argument " +:+ pretty (0 + 1)).
  assert (Ha : a = arg1) by reflexivity. clearbody a. rewrite Ha. clear a Ha.
  set (msg := "Argument " +:+ pretty (0 + 1) +:+ " of function '" +:+ name
              +:+ "' cannot be cast to type '" +:+ param_type (f_params f) p +:+ "'").
  assert (Hmsg : msg = refused) by reflexivity. clearbody msg. rewrite Hmsg. clear msg Hmsg.
  assert (Hne : String.eqb arg1 "" = false) by (unfold arg1; by destruct name).
  unfold cast_type. split.
  - intros e Hp1 He. mrun. rewrite Hp1, andb_false_r. mrun. rewrite He. mrun.
    rewrite Hne. mrun. mfin. eexists. split; [reflexivity|]. split.
    + unfold is_poisoned. apply bool_decide_eq_true. unfold record_error.
      repeat case_bool_decide; simpl; apply elem_of_app; right;
        by apply list_elem_of_singleton.
    + match goal with |- _ ∈ errors (record_error _ _ ?x) => set (s2 := x) end.
      replace (full_error_msg s1 refused 0) with (full_error_msg s2 refused 0).
      * apply record_error_recorded.
      * unfold s2, full_error_msg, line_content, record_error.
        by case_bool_decide.
  - intros Hp1. mrun. rewrite Hp1, Hne. mrun. mfin. reflexivity.
Qed.

(** *** Output *)

Lemma py_str_plain s s' v : plain v = true -> py_str s v = py_str s' v.
Proof. by destruct v. Qed.

Lemma output_parts_all V args : forall s vals s1 i,
  visit_all (v_expr V) args s = (Ok vals, s1) ->
  forallb plain vals = true ->
  output_parts V i args s = (Ok (Some (map (py_str s1) vals)), s1).
Proof.
  induction args as [|arg args IH]; intros s vals s1 i; simpl.
  { by intros [= <- <-] _. }
  rewrite !(bind_case (v_expr V arg)).
  destruct (v_expr V arg s) as [[v|e|r] sa]; try discriminate.
  rewrite (bind_case (visit_all (v_expr V) args)).
  destruct (visit_all (v_expr V) args sa) as [[vs|e|r] sb] eqn:Hrest; try discriminate.
  intros [= <- <-]. simpl. intros Hall. apply andb_prop in Hall as [Hv Hvs].
  assert (Hparts := IH _ _ _ (i + 1) Hrest Hvs).
  destruct v; try discriminate; mrun; rewrite (bind_run _ _ _ _ _ Hparts); reflexivity.
Qed.

(** X16.  An output statement whose arguments all evaluate to numbers or
    texts prints one line, made of their texts joined without separator:
    [out.Info] on the standard output, [out.Warn] and [out.Error] on the
    standard error; it notes that the program has had output and records no
    error. *)
Theorem output_prints_one_line V attr args s members vals s1 :
  get_value (envs s) (env s) "out" = Some (VObj members) ->
  has_key members attr = true ->
  attr = "Info" \/ attr = "Warn" \/ attr = "Error" ->
  visit_all (v_expr V) (default [] args) s = (Ok vals, s1) ->
  forallb plain vals = true ->
  visit_output_stmt V "out" attr args s
  = (Ok tt,
     set_printed (printed s1 ++ [output_line attr (join (map (py_str s1) vals))])
       (set_has_output true s1)).
Proof.
  intros Hout Hkey Hattr Hargs Hplain.
  assert (Hname : visit (visit_member_access "out" attr) s = (Ok ("out." +:+ attr), s)).
  { unfold visit, visit_member_access, env_is_defined, env_get_value. mrun.
    rewrite (get_value_defined _ _ _ _ Hout). mrun. rewrite Hout. mrun.
    simpl py_contains. mrun. rewrite Hkey. reflexivity. }
  unfold visit_output_stmt. rewrite (bind_run _ _ _ _ _ Hname).
  pose proof (output_parts_all V _ _ _ _ 0 Hargs Hplain) as Hparts.
  destruct Hattr as [->|[->| ->]].
  all: match goal with |- context [String.eqb ?a ""] =>
         change (String.eqb a "") with false end.
  all: match goal with |- context [contains "." ?a] =>
         change (contains "." a) with true end.
  all: match goal with |- context [bool_decide ?P] =>
         rewrite (bool_decide_eq_true_2 P) by set_solver end.
  all: change (false || negb true) with false; change (negb true) with false; cbv iota.
  all: rewrite (bind_run _ _ _ _ _ Hparts); reflexivity.
Qed.

(** *** Conditions *)

(** X17.  [?] and [!] are each other's opposite: on the same operands, in
    the same state, the one holds exactly when the other does not, and both
    leave the same state. *)
Theorem equals_and_differs V l r s b s' :
  visit_condition V (Condition l "?" r) s = (Ok b, s') ->
  visit_condition V (Condition l "!" r) s = (Ok (negb b), s').
Proof.
  unfold visit_condition. simpl c_left. simpl c_right. simpl c_op.
  rewrite !(bind_case (v_expr V l)).
  destruct (v_expr V l s) as [[lv|e|x] s1]; try discriminate.
  rewrite !(bind_case (v_expr V r)).
  destruct (v_expr V r s1) as [[rv|e|x] s2]; try discriminate.
  change (String.eqb "?" "?") with true. change (String.eqb "!" "?") with false.
  change (String.eqb "!" "!") with true. cbv iota.
  destruct (py_eq lv rv); [|discriminate]. by intros [= <- <-].
Qed.

(** X18.  An order between values that Python does not order (a text and
    a number, a list and a number, no value): [>], [<], [>=] and [<=] record
    the error "Comparison failed" and the condition counts as false; between
    values of different types [?] is false and [!] true, without any
    error. *)
Theorem order_of_unordered_values V l op r s lv s1 rv s2 :
  v_expr V l s = (Ok lv, s1) ->
  v_expr V r s1 = (Ok rv, s2) ->
  py_order lv rv = OrderTypeError ->
  op ∈ [">"; "<"; ">="; "<="] ->
  visit_condition V (Condition l op r) s
  = (Ok false,
     record_error ("Comparison failed between " +:+ type_name_of lv +:+ " and "
                   +:+ type_name_of rv +:+ ": '" +:+ op
                   +:+ "' not supported between instances of '" +:+ type_name_of lv
                   +:+ "' and '" +:+ type_name_of rv +:+ "'") 0 s2)
  /\ (type_name_of lv <> type_name_of rv ->
      visit_condition V (Condition l "?" r) s = (Ok false, s2)
      /\ visit_condition V (Condition l "!" r) s = (Ok true, s2)).
Proof.
  intros Hl Hr Hord Hop.
  unfold visit_condition. simpl c_left. simpl c_right. simpl c_op.
  rewrite !(bind_run _ _ _ _ _ Hl), !(bind_run _ _ _ _ _ Hr).
  change (String.eqb "?" "?") with true. change (String.eqb "!" "?") with false.
  change (String.eqb "!" "!") with true. cbv iota.
  split.
  - rewrite (bool_decide_eq_true_2 _ Hop), Hord.
    assert (Hq : String.eqb op "?" = false /\ String.eqb op "!" = false).
    { set_unfold in Hop. destruct Hop as [->|[->|[->|[->|[]]]]]; done. }
    destruct Hq as [-> ->]. unfold _add_error. mrun. mfin. reflexivity.
  - intros Hty.
    assert (Heq : py_eq lv rv = Some false).
    { destruct lv, rv; try discriminate; try reflexivity; done. }
    by rewrite Heq.
Qed.

(** *** Built-in mathematics *)


(** X20.  [rootFor] asked for the square root of a negative integer
    records "Cannot calculate square root of negative number" and yields 0;
    asked for a root that is neither 2 nor 3 it records "Unsupported root
    type" and yields 0. *)
Theorem rootFor_refuses V value_expr kind_expr more s z s1 k s2 :
  v_expr V value_expr (set_used_variables ({["rootFor"]} ∪ used_variables s) s)
    = (Ok (VInt z), s1) ->
  v_expr V kind_expr s1 = (Ok (VInt k), s2) ->
  (k = 2 -> z < 0 ->
   visit_math_func_call V "rootFor" (value_expr :: kind_expr :: more) s
   = (Ok (VInt 0), record_error "Cannot calculate square root of negative number" 0 s2))
  /\ (k <> 2 -> k <> 3 ->
      visit_math_func_call V "rootFor" (value_expr :: kind_expr :: more) s
      = (Ok (VInt 0),
         record_error ("Unsupported root type: " +:+ pretty k
                       +:+ ". Use 2 for square root or 3 for cube root.") 0 s2)).
Proof.
  intros Hv Hk. unfold visit_math_func_call, mark_used.
  change (String.eqb "rootFor" "squFor") with false.
  change (String.eqb "rootFor" "rootFor") with true. cbv iota. rewrite !bind_modify.
  unfold _handle_rootFor. rewrite (bind_run _ _ _ _ _ Hv), (bind_run _ _ _ _ _ Hk).
  change (is_none (VInt z) || is_none (VInt k)) with false. cbv iota.
  change (default false (py_eq (VInt k) (VInt 2))) with (k =? 2).
  change (default false (py_eq (VInt k) (VInt 3))) with (k =? 3).
  split.
  - intros -> Hz. change (2 =? 2) with true. cbv iota.
    unfold below_zero. change (py_order (VInt z) (VInt 0)) with (Ordered (Some (z ?= 0))).
    cbv iota. destruct (Z.compare_spec z 0) as [| |]; try lia. reflexivity.
  - intros H2 H3.
    destruct (Z.eqb_spec k 2) as [|_]; [done|].
    destruct (Z.eqb_spec k 3) as [|_]; [done|]. reflexivity.
Qed.

(** *** What a definition binds *)

(** X21.  The type a [New] declares plays no part for a number, and counts
    as ['int'] for anything else, the tree of a type keeping no token under
    it: an integer or a float is bound as it is, a text is bound as the
    integer it spells, and a text that spells none ([New str s -> "abc"]) is
    a cast error that binds nothing and poisons the name, like any other
    value. *)
Theorem new_binds_a_number V ty name init s v s1 :
  tn_children ty = [] ->
  name <> "" ->
  is_poisoned s name = false ->
  is_defined (envs s) (env s) name = false ->
  v_expr V init s = (Ok v, s1) ->
  is_poisoned s1 name = false ->
  exists s', visit_var_def V ty name (Some init) s = (Ok tt, s')
    /\ match v with
       | VInt _ | VFloat _ =>
           envs s' = define_var (envs s1) (env s1) name v /\ errors s' = errors s1
       | VStr t =>
           match parse_int t with
           | Some z =>
               envs s' = define_var (envs s1) (env s1) name (VInt z)
               /\ errors s' = errors s1
           | None =>
               s' = rejected ("Cannot cast '" +:+ t +:+ "' to type 'int'"
                              +:+ for_variable name +:+ " - String '" +:+ t
                              +:+ "' cannot be converted to int") name s1
           end
       | _ => envs s' = envs s1 /\ is_poisoned s' name = true
       end.
Proof.
  intros Hty Hname Hp Hd Hv Hp1.
  assert (Hne : String.eqb name "" = false) by by apply String.eqb_neq.
  unfold visit_var_def, declared_type. rewrite Hty.
  change (negb (is_type_name "int")) with false. cbv iota. mrun. rewrite Hp. mrun.
  unfold env_is_defined. mrun. rewrite Hd. mrun.
  rewrite (bind_run _ _ _ _ _ Hv).
  destruct v as [|z|x|t|r|m|f]; unfold cast_initial, cast_type; mrun;
    rewrite Hp1, andb_false_r; mrun.
  - (* no value *)
    simpl cast_attempt. unfold _add_error, when, poison. mrun. rewrite Hne. simpl negb.
    mrun. mfin. eexists. split; [reflexivity|]. simpl. split; [apply record_error_envs|].
    unfold is_poisoned. apply bool_decide_eq_true. simpl.
    apply elem_of_app. right. by apply list_elem_of_singleton.
  - simpl cast_attempt. mrun. unfold env_define_var, mark_assigned, mark_defined. mrun. mfin.
    eexists. split; [reflexivity|]. simpl. auto.
  - simpl cast_attempt. mrun. unfold env_define_var, mark_assigned, mark_defined. mrun. mfin.
    eexists. split; [reflexivity|]. simpl. auto.
  - (* a text *)
    unfold cast_attempt. change (String.eqb "int" "int") with true. cbv iota.
    unfold parse_int at 2.
    destruct (isdigit t) eqn:Hdig; simpl orb.
    + unfold parse_int. rewrite Hdig. mrun.
      unfold env_define_var, mark_assigned, mark_defined. mrun. mfin.
      eexists. split; [reflexivity|]. simpl. auto.
    + destruct (startswith "-" t && isdigit (tail_str t)) eqn:Hneg.
      * unfold parse_int. rewrite Hdig, Hneg. mrun.
        unfold env_define_var, mark_assigned, mark_defined. mrun. mfin.
        eexists. split; [reflexivity|]. simpl. auto.
      * unfold _add_error, when, poison. mrun. rewrite Hne. simpl negb. mrun. mfin.
        eexists. split; [reflexivity|]. reflexivity.
  - simpl cast_attempt. unfold _add_error, when, poison. mrun. rewrite Hne. simpl negb.
    mrun. mfin. eexists. split; [reflexivity|]. simpl. split; [apply record_error_envs|].
    unfold is_poisoned. apply bool_decide_eq_true. simpl.
    apply elem_of_app. right. by apply list_elem_of_singleton.
  - simpl cast_attempt. unfold _add_error, when, poison. mrun. rewrite Hne. simpl negb.
    mrun. mfin. eexists. split; [reflexivity|]. simpl. split; [apply record_error_envs|].
    unfold is_poisoned. apply bool_decide_eq_true. simpl.
    apply elem_of_app. right. by apply list_elem_of_singleton.
  - simpl cast_attempt. unfold _add_error, when, poison. mrun. rewrite Hne. simpl negb.
    mrun. mfin. eexists. split; [reflexivity|]. simpl. split; [apply record_error_envs|].
    unfold is_poisoned. apply bool_decide_eq_true. simpl.
    apply elem_of_app. right. by apply list_elem_of_singleton.
Qed.

(** *** Reading a name *)

Lemma set_used_variables_same X s : X = used_variables s -> set_used_variables X s = s.
Proof. intros ->. by destruct s. Qed.

(** What [visit_IDENT] returns, spelled out. *)
Lemma visit_IDENT_run name s :
  visit_IDENT name s
  = let s0 := set_used_variables ({[name]} ∪ used_variables s) s in
    if is_defined (envs s0) (env s0) name then
      match get_value (envs s0) (env s0) name with
      | Some w =>
          (Ok w,
           if bool_decide (name ∈ defined_vars s0)
              && negb (bool_decide (name ∈ assigned_vars s0))
              && negb (is_constant (envs s0) (env s0) name)
              && negb (bool_decide (name ∈ warned_vars s0))
              && negb (is_poisoned s0 name)
           then set_warned_vars ({[name]} ∪ warned_vars s0)
                  (if negb (debug_mode s0 || debug_plus_mode s0)
                   then set_printed
                          (printed s0
                           ++ [(Stderr, warn_line ("Variable '" +:+ name
                                  +:+ "' used without assignment, using default value: "
                                  +:+ py_str s0 w))]) s0
                   else s0)
           else s0)
      | None => (Raise ("Variable not defined: " +:+ name), s0)
      end
    else
      (Ok VNone,
       let s' := record_error ("Variable '" +:+ name +:+ "' not defined") 0 s0 in
       if is_poisoned s' name then s'
       else set_error_vars_list (error_vars_list s' ++ [name]) s').
Proof.
  unfold visit_IDENT, mark_used, env_is_defined, env_get_value. mrun. cbv zeta.
  set (s0 := set_used_variables ({[name]} ∪ used_variables s) s). clearbody s0.
  destruct (is_defined (envs s0) (env s0) name); simpl negb; cbv iota.
  - mrun. destruct (get_value (envs s0) (env s0) name) as [w|]; [|by mrun]. mrun.
    destruct (_ && _); unfold when, print, mark_warned; mrun; [|reflexivity].
    destruct (negb _); mrun; reflexivity.
  - unfold _add_error, when, poison. mrun.
    destruct (is_poisoned _ name); simpl negb; cbv iota; mrun; reflexivity.
Qed.

(** X22.  Reading a name a second time, right after the first, changes
    nothing any more: it yields the same value, records no further error and
    prints no further warning of a use without assignment. *)
Theorem read_twice V name s v s1 :
  visit_IDENT name s = (Ok v, s1) ->
  visit_IDENT name s1 = (Ok v, s1)
  /\ visit_factor V (FIdent name) s1 = (Ok v, s1).
Proof.
  intros Hfirst.
  assert (Hagain : visit_IDENT name s1 = (Ok v, s1)).
  { revert Hfirst. rewrite !visit_IDENT_run. cbv zeta.
    assert (Hused : forall s', used_variables s' = {[name]} ∪ used_variables s ->
              set_used_variables ({[name]} ∪ used_variables s') s' = s').
    { intros s' Hs'. apply set_used_variables_same. rewrite Hs'.
      by rewrite (assoc_L (∪)), (idemp_L (∪)). }
    assert (Hs0 : used_variables (set_used_variables ({[name]} ∪ used_variables s) s)
                  = {[name]} ∪ used_variables s) by reflexivity.
    revert Hs0. generalize (set_used_variables ({[name]} ∪ used_variables s) s).
    intros s0 Hs0.
    destruct (is_defined (envs s0) (env s0) name) eqn:Hd.
    - destruct (get_value (envs s0) (env s0) name) as [w|] eqn:Hw; [|discriminate].
      destruct (bool_decide (name ∈ defined_vars s0)
                && negb (bool_decide (name ∈ assigned_vars s0))
                && negb (is_constant (envs s0) (env s0) name)
                && negb (bool_decide (name ∈ warned_vars s0))
                && negb (is_poisoned s0 name)) eqn:Hc.
      + intros [= <- <-].
        destruct (negb (debug_mode s0 || debug_plus_mode s0));
          rewrite Hused by exact Hs0; simpl envs; simpl env;
          rewrite Hd, Hw; simpl warned_vars;
          rewrite (bool_decide_eq_true_2 (name ∈ {[name]} ∪ warned_vars s0))
            by (apply elem_of_union; left; by apply elem_of_singleton);
          simpl negb; rewrite !andb_false_r; reflexivity.
      + intros [= <- <-]. rewrite Hused by done. by rewrite Hd, Hw, Hc.
    - intros [= <- <-].
      set (msg := "Variable '" +:+ name +:+ "' not defined").
      assert (Hfields : debug_mode (record_error msg 0 s0) = debug_mode s0
                /\ debug_plus_mode (record_error msg 0 s0) = debug_plus_mode s0
                /\ original_lines (record_error msg 0 s0) = original_lines s0
                /\ used_variables (record_error msg 0 s0) = used_variables s0
                /\ envs (record_error msg 0 s0) = envs s0
                /\ env (record_error msg 0 s0) = env s0).
      { unfold record_error. by case_bool_decide. }
      destruct Hfields as (H1 & H2 & H3 & H4 & H5 & H6).
      assert (Hrec : forall s', errors s' = errors (record_error msg 0 s0) ->
                debug_mode s' = debug_mode s0 -> debug_plus_mode s' = debug_plus_mode s0 ->
                original_lines s' = original_lines s0 ->
                record_error msg 0 s' = s').
      { intros s' He Hdm Hdp Hol. unfold record_error at 1.
        rewrite bool_decide_eq_true_2; [done|]. rewrite He.
        replace (full_error_msg s' msg 0) with (full_error_msg s0 msg 0).
        - apply record_error_recorded.
        - unfold full_error_msg, line_content. by rewrite Hdm, Hdp, Hol. }
      destruct (is_poisoned (record_error msg 0 s0) name) eqn:Hp.
      + rewrite Hused by congruence. rewrite H5, H6, Hd.
        rewrite Hrec by done. by rewrite Hp.
      + rewrite Hused by (simpl; congruence). simpl envs. simpl env. rewrite H5, H6, Hd.
        rewrite Hrec by (simpl; done).
        unfold is_poisoned at 1. rewrite bool_decide_eq_true_2; [reflexivity|].
        simpl. apply elem_of_app. right. by apply list_elem_of_singleton. }
  split; [done|]. simpl. unfold visit. by rewrite Hagain.
Qed.

End Properties.

(** ** Properties of the driver and the preprocessor *)

(** *** Lines of text *)

Lemma split_lines_cons s : exists line lines, split_lines s = line :: lines.
Proof.
  induction s as [|c s (line & lines & IH)]; simpl; [by eauto|].
  destruct (Ascii.eqb c newline); [by eauto|]. rewrite IH. by eauto.
Qed.

Lemma join_split s : join_lines (split_lines s) = s.
Proof.
  induction s as [|c s IH]; [done|]. simpl split_lines.
  destruct (Ascii.eqb_spec c newline) as [->|_].
  - destruct (split_lines_cons s) as (line & lines & Hs). rewrite Hs in *.
    change (join_lines ("" :: line :: lines))
      with (String newline (join_lines (line :: lines))). by rewrite IH.
  - destruct (split_lines_cons s) as (line & lines & Hs). rewrite Hs in *.
    rewrite <- IH. by destruct lines.
Qed.

Lemma split_lines_no_newline s : Forall (fun line => no_newline line = true) (split_lines s).
Proof.
  induction s as [|c s IH]; simpl; [by repeat constructor|].
  destruct (Ascii.eqb c newline) eqn:Hc; [by constructor|].
  destruct (split_lines s) as [|line lines]; [by repeat constructor; simpl; rewrite Hc|].
  inversion_clear IH. constructor; [|done]. simpl. by rewrite Hc.
Qed.

Lemma split_lines_app a b :
  split_lines (a +:+ String newline b) = split_lines a ++ split_lines b.
Proof.
  induction a as [|c a IH]; simpl.
  - done.
  - destruct (Ascii.eqb c newline); [by rewrite IH|]. rewrite IH.
    destruct (split_lines_cons a) as (line & lines & ->). done.
Qed.

Lemma split_lines_line s : no_newline s = true -> split_lines s = [s].
Proof.
  induction s as [|c s IH]; [done|]. simpl. intros [Hc Hs]%andb_true_iff.
  apply negb_true_iff in Hc. rewrite Hc, IH; done.
Qed.

Lemma split_join lines :
  lines <> [] -> Forall (fun line => no_newline line = true) lines ->
  split_lines (join_lines lines) = lines.
Proof.
  induction lines as [|line lines IH]; [done|]. intros _ Hall.
  inversion_clear Hall as [|? ? Hline Hlines]. destruct lines as [|line' lines].
  - by apply split_lines_line.
  - change (join_lines (line :: line' :: lines))
      with (line +:+ String newline (join_lines (line' :: lines))).
    rewrite split_lines_app, split_lines_line, IH; done.
Qed.

(** *** Stripping blanks *)

Lemma rev_app_rev_app s1 s2 s3 :
  String.rev_app (String.rev_app s1 s2) s3 = String.rev_app s2 (s1 +:+ s3).
Proof.
  revert s2 s3. induction s1 as [|c s1 IH]; intros s2 s3; [done|].
  change (String.rev_app (String.rev_app s1 (String c s2)) s3
          = String.rev_app s2 (String c (s1 +:+ s3))).
  by rewrite IH.
Qed.

Lemma append_empty_r s : s +:+ "" = s.
Proof.
  induction s as [|c s IH]; [done|]. change (String c (s +:+ "") = String c s).
  by rewrite IH.
Qed.

Lemma rev_rev s : String.rev (String.rev s) = s.
Proof. unfold String.rev. rewrite rev_app_rev_app. simpl. apply append_empty_r. Qed.

Lemma lstrip_lstrip s : lstrip (lstrip s) = lstrip s.
Proof.
  induction s as [|c s IH]; [done|]. simpl. destruct (is_space_char c) eqn:Hc; [done|].
  simpl. by rewrite Hc.
Qed.

Lemma rstrip_rstrip s : rstrip (rstrip s) = rstrip s.
Proof. unfold rstrip. by rewrite rev_rev, lstrip_lstrip. Qed.

Lemma strip_rstrip s : strip (rstrip s) = strip s.
Proof. unfold strip. by rewrite rstrip_rstrip. Qed.

Lemma no_newline_rev_app s1 s2 :
  no_newline (String.rev_app s1 s2) = no_newline s1 && no_newline s2.
Proof.
  revert s2. induction s1 as [|c s1 IH]; intros s2; [done|]. simpl. rewrite IH. simpl.
  destruct (Ascii.eqb c newline), (no_newline s1), (no_newline s2); done.
Qed.

Lemma no_newline_lstrip s : no_newline s = true -> no_newline (lstrip s) = true.
Proof.
  induction s as [|c s IH]; [done|]. simpl. intros [Hc Hs]%andb_true_iff.
  destruct (is_space_char c); [auto|]. simpl. by rewrite Hc, Hs.
Qed.

Lemma no_newline_rstrip s : no_newline s = true -> no_newline (rstrip s) = true.
Proof.
  intros Hs. unfold rstrip, String.rev. rewrite no_newline_rev_app, andb_true_r.
  apply no_newline_lstrip. by rewrite no_newline_rev_app, andb_true_r.
Qed.

(** *** Directives *)

Lemma directive_step_kept d dp cl line :
  is_directive line = false -> directive_step (d, dp, cl) line = (d, dp, cl ++ [line]).
Proof.
  unfold is_directive, directive_step. intros H%bool_decide_eq_false.
  repeat match goal with
         | |- context [String.eqb (strip line) ?x] =>
             destruct (String.eqb_spec (strip line) x) as [Heq|_];
             [exfalso; apply H; rewrite Heq, !elem_of_cons; auto 10|]
         end.
  done.
Qed.

Lemma directive_step_dropped acc line :
  is_directive line = true -> (directive_step acc line).2 = acc.2.
Proof.
  unfold is_directive, directive_step. intros H%bool_decide_eq_true.
  destruct acc as [[d dp] cl].
  repeat match goal with
         | |- context [String.eqb (strip line) ?x] =>
             destruct (String.eqb_spec (strip line) x) as [?|?]; [done|]
         end.
  exfalso. rewrite !elem_of_cons, elem_of_nil in H. tauto.
Qed.

Lemma fold_directives lines acc :
  (fold_left directive_step lines acc).2
  = acc.2 ++ List.filter (fun line => negb (is_directive line)) lines.
Proof.
  revert acc. induction lines as [|line lines IH]; intros acc; cbn [fold_left List.filter].
  - by rewrite app_nil_r.
  - rewrite IH. destruct (is_directive line) eqn:Hd.
    + by rewrite directive_step_dropped.
    + destruct acc as [[d dp] cl]. rewrite directive_step_kept by done. simpl.
      by rewrite <- app_assoc.
Qed.

Lemma fold_no_directive lines d dp cl :
  Forall (fun line => is_directive line = false) lines ->
  fold_left directive_step lines (d, dp, cl) = (d, dp, cl ++ lines).
Proof.
  revert cl. induction lines as [|line lines IH]; intros cl Hall; cbn [fold_left].
  - by rewrite app_nil_r.
  - inversion_clear Hall. rewrite directive_step_kept, IH by done.
    by rewrite <- app_assoc.
Qed.

Lemma extract_cleaned code :
  (extract_debug_directives_and_clean_code code).2
  = join_lines (List.filter (fun line => negb (is_directive line)) (split_lines code)).
Proof.
  unfold extract_debug_directives_and_clean_code.
  pose proof (fold_directives (split_lines code) (false, false, [])) as H.
  destruct (fold_left _ _ _) as [[d dp] cl]. simpl in *. by rewrite H.
Qed.

(** X23.  [extract_debug_directives_and_clean_code] returns the lines of
    the code that are no directive (whatever blanks surround it), in their
    order and unchanged, joined again; code without any directive line comes
    back as it is, with both modes off. *)
Theorem directive_lines_removed code :
  (extract_debug_directives_and_clean_code code).2
  = join_lines (List.filter (fun line => negb (is_directive line)) (split_lines code))
  /\ (Forall (fun line => is_directive line = false) (split_lines code) ->
      extract_debug_directives_and_clean_code code = (false, false, code)).
Proof.
  split; [apply extract_cleaned|]. intros Hall.
  unfold extract_debug_directives_and_clean_code.
  rewrite fold_no_directive by done. simpl. by rewrite join_split.
Qed.

(** X24.  The cleaned code holds no directive any more: extracting the
    directives of the cleaned code finds both modes off and returns the
    cleaned code itself. *)
Theorem directives_extracted_once code :
  extract_debug_directives_and_clean_code (extract_debug_directives_and_clean_code code).2
  = (false, false, (extract_debug_directives_and_clean_code code).2).
Proof.
  rewrite extract_cleaned.
  assert (Hall : Forall (fun line => no_newline line = true /\ is_directive line = false)
                   (List.filter (fun line => negb (is_directive line)) (split_lines code))).
  { apply Forall_forall. intros line [Hin Hk]%list_elem_of_In%filter_In. split.
    - pose proof (split_lines_no_newline code) as H. rewrite Forall_forall in H.
      apply H. by apply list_elem_of_In.
    - by apply negb_true_iff. }
  destruct (List.filter _ _) as [|line lines] eqn:Hl; [reflexivity|]. 
  unfold extract_debug_directives_and_clean_code at 1.
  rewrite split_join; [|done|by eapply Forall_impl; [exact Hall|]; intros ? []].
  rewrite fold_no_directive; [done|]. by eapply Forall_impl; [exact Hall|]; intros ? [].
Qed.

(** X25.  A directive on the last line decides its mode, whatever the
    lines before it set; it leaves the other mode and the cleaned code as
    they are without it. *)
Theorem last_directive_decides code :
  let debug_mode := (extract_debug_directives_and_clean_code code).1.1 in
  let debug_plus_mode := (extract_debug_directives_and_clean_code code).1.2 in
  let cleaned := (extract_debug_directives_and_clean_code code).2 in
  extract_debug_directives_and_clean_code (code +:+ String newline "@debug=true")
  = (true, debug_plus_mode, cleaned)
  /\ extract_debug_directives_and_clean_code (code +:+ String newline "@debug=false")
     = (false, debug_plus_mode, cleaned)
  /\ extract_debug_directives_and_clean_code (code +:+ String newline "@debugPL=true")
     = (debug_mode, true, cleaned)
  /\ extract_debug_directives_and_clean_code (code +:+ String newline "@debugPL=false")
     = (debug_mode, false, cleaned).
Proof.
  unfold extract_debug_directives_and_clean_code. rewrite !split_lines_app, !fold_left_app.
  destruct (fold_left directive_step (split_lines code) (false, false, [])) as [[d dp] cl].
  repeat split; reflexivity.
Qed.

(** *** The preprocessor *)

Lemma enumerate_app {A} n (a b : list A) :
  enumerate n (a ++ b) = enumerate n a ++ enumerate (n + Z.of_nat (List.length a)) b.
Proof.
  revert n. induction a as [|x a IH]; intros n; simpl.
  - by rewrite Z.add_0_r.
  - rewrite IH. do 3 f_equal. lia.
Qed.

Lemma startswith_head c p s : startswith (String c p) s = true -> exists s', s = String c s'.
Proof.
  unfold startswith. destruct s as [|c' s]; simpl; [done|].
  destruct (ascii_dec c c') as [->|]; [by eauto|done].
Qed.

Lemma code_line_rstrip line :
  code_line (rstrip line)
  = negb (String.eqb (strip line) "") && negb (startswith "@None" (strip line))
    && negb (startswith "#X" (strip line)) && negb (startswith "#Y" (strip line)).
Proof. unfold code_line. by rewrite strip_rstrip. Qed.

Lemma plain_line z pl c n line :
  comment_mark line = false ->
  SyntaxChecker.preprocess_line
    {| SyntaxChecker.in_block_comment := false;
       SyntaxChecker.block_comment_start_line := z;
       SyntaxChecker.processed_lines := pl; SyntaxChecker.self := c |} (n, line)
  = {| SyntaxChecker.in_block_comment := false;
       SyntaxChecker.block_comment_start_line := z;
       SyntaxChecker.processed_lines :=
         pl ++ List.filter code_line [rstrip line];
       SyntaxChecker.self := c |}.
Proof.
  unfold comment_mark. intros [HX HY]%orb_false_iff.
  unfold SyntaxChecker.preprocess_line. cbn [List.filter].
  rewrite code_line_rstrip, strip_rstrip, HX, HY.
  destruct (String.eqb (strip line) ""); [by rewrite app_nil_r|].
  destruct (startswith "@None" (strip line)); [by rewrite app_nil_r|]. done.
Qed.

Lemma plain_lines z pl c n lines :
  Forall (fun line => comment_mark line = false) lines ->
  fold_left SyntaxChecker.preprocess_line (enumerate n lines)
    {| SyntaxChecker.in_block_comment := false;
       SyntaxChecker.block_comment_start_line := z;
       SyntaxChecker.processed_lines := pl; SyntaxChecker.self := c |}
  = {| SyntaxChecker.in_block_comment := false;
       SyntaxChecker.block_comment_start_line := z;
       SyntaxChecker.processed_lines := pl ++ List.filter code_line (map rstrip lines);
       SyntaxChecker.self := c |}.
Proof.
  revert n pl. induction lines as [|line lines IH]; intros n pl Hall.
  - simpl. by rewrite app_nil_r.
  - inversion_clear Hall. cbn [enumerate fold_left]. rewrite plain_line, IH by done.
    rewrite <- app_assoc. do 2 f_equal. cbn [map List.filter].
    by destruct (code_line (rstrip line)).
Qed.

Lemma commented_lines z pl c n lines :
  Forall (fun line => startswith "#Y" (strip line) = false) lines ->
  fold_left SyntaxChecker.preprocess_line (enumerate n lines)
    {| SyntaxChecker.in_block_comment := true;
       SyntaxChecker.block_comment_start_line := z;
       SyntaxChecker.processed_lines := pl; SyntaxChecker.self := c |}
  = {| SyntaxChecker.in_block_comment := true;
       SyntaxChecker.block_comment_start_line := z;
       SyntaxChecker.processed_lines := pl; SyntaxChecker.self := c |}.
Proof.
  revert n. induction lines as [|line lines IH]; intros n Hall; [done|].
  inversion_clear Hall as [|? ? HY]. cbn [enumerate fold_left]. rewrite <- (IH (n + 1)) at 2 by done.
  f_equal. unfold SyntaxChecker.preprocess_line. rewrite strip_rstrip, HY.
  cbn [SyntaxChecker.in_block_comment negb]. rewrite andb_false_r.
  destruct (String.eqb (strip line) ""); [done|].
  by destruct (startswith "@None" (strip line)).
Qed.

Lemma preprocess_line_processed acc n line :
  SyntaxChecker.processed_lines (SyntaxChecker.preprocess_line acc (n, line))
  = SyntaxChecker.processed_lines acc
  \/ SyntaxChecker.processed_lines (SyntaxChecker.preprocess_line acc (n, line))
     = SyntaxChecker.processed_lines acc ++ [rstrip line]
     /\ code_line (rstrip line) = true.
Proof.
  unfold SyntaxChecker.preprocess_line. rewrite code_line_rstrip, strip_rstrip.
  destruct (String.eqb (strip line) ""); [by left|].
  destruct (startswith "@None" (strip line)); [by left|].
  destruct (startswith "#X" (strip line)) eqn:HX.
  { destruct (SyntaxChecker.in_block_comment acc); simpl; [|by left].
    destruct (startswith "#Y" (strip line)); by left. }
  simpl. destruct (startswith "#Y" (strip line)).
  { destruct (SyntaxChecker.in_block_comment acc); by left. }
  destruct (SyntaxChecker.in_block_comment acc); [by left|by right].
Qed.

Lemma processed_grows lines n acc :
  exists L,
    SyntaxChecker.processed_lines
      (fold_left SyntaxChecker.preprocess_line (enumerate n lines) acc)
    = SyntaxChecker.processed_lines acc ++ L
    /\ sublist L (map rstrip lines)
    /\ Forall (fun line => code_line line = true) L.
Proof.
  revert n acc. induction lines as [|line lines IH]; intros n acc.
  - exists []. simpl. rewrite app_nil_r. repeat split; constructor.
  - cbn [enumerate fold_left map].
    destruct (IH (n + 1) (SyntaxChecker.preprocess_line acc (n, line)))
      as (L & -> & Hsub & Hall).
    destruct (preprocess_line_processed acc n line) as [->|[-> Hline]].
    + exists L. split; [done|]. split; [by apply sublist_cons|done].
    + exists (rstrip line :: L). rewrite <- app_assoc. split; [done|].
      split; [by apply sublist_skip|by constructor].
Qed.

(** The lines [preprocess_code] keeps, taken again, are all kept. *)
Lemma kept_lines_again L lines :
  sublist L (map rstrip lines) ->
  Forall (fun line => no_newline line = true) lines ->
  Forall (fun line => code_line line = true) L ->
  Forall (fun line => no_newline line = true) L
  /\ Forall (fun line => comment_mark line = false) L
  /\ List.filter code_line (map rstrip L) = L.
Proof.
  intros Hsub Hlines Hall.
  assert (Hfrom : Forall (fun line => code_line line = true /\ exists line', line' ∈ lines /\ line = rstrip line') L).
  { apply Forall_forall. intros line Hin. split.
    - rewrite Forall_forall in Hall. by apply Hall.
    - eapply elem_of_submseteq in Hin; [|by apply sublist_submseteq].
      apply list_elem_of_In, in_map_iff in Hin as (line' & <- & Hin).
      exists line'. split; [by apply list_elem_of_In|done]. }
  clear Hsub Hall. rewrite Forall_forall in Hlines.
  induction Hfrom as [|line L (Hcode & line' & Hin & ->) _ (IH1 & IH2 & IH3)];
    [by repeat constructor|].
  split; [constructor; [apply no_newline_rstrip; auto|done]|].
  split.
  - constructor; [|done]. unfold code_line in Hcode. unfold comment_mark.
    destruct (startswith "#X" (strip (rstrip line'))), (startswith "#Y" (strip (rstrip line')));
      try done; by rewrite ?andb_false_r in Hcode.
  - cbn [map List.filter]. by rewrite rstrip_rstrip, Hcode, IH3.
Qed.

(** X26.  [preprocess_code] on its own result changes nothing: the code
    comes back as it is and no error is added to those of the first pass. *)
Theorem preprocess_idempotent code c :
  SyntaxChecker.preprocess_code (SyntaxChecker.preprocess_code code c).1
    (SyntaxChecker.preprocess_code code c).2
  = SyntaxChecker.preprocess_code code c.
Proof.
  unfold SyntaxChecker.preprocess_code at 2 3 4.
  destruct (processed_grows (split_lines code) 1
              {| SyntaxChecker.in_block_comment := false;
                 SyntaxChecker.block_comment_start_line := 0;
                 SyntaxChecker.processed_lines := []; SyntaxChecker.self := c |})
    as (L & HL & Hsub & Hall).
  cbn [fst snd]. rewrite HL. cbn [SyntaxChecker.processed_lines app].
  match goal with |- SyntaxChecker.preprocess_code _ ?c1 = _ => generalize c1 end.
  intros c1. destruct (kept_lines_again L (split_lines code))
    as (Hnl & Hmark & Hfilter); [done|apply split_lines_no_newline|done|].
  destruct L as [|line L]; [reflexivity|].
  unfold SyntaxChecker.preprocess_code. rewrite split_join by done.
  rewrite plain_lines by done. cbn [SyntaxChecker.in_block_comment SyntaxChecker.processed_lines SyntaxChecker.self app].
  by rewrite Hfilter.
Qed.

(** X27.  The lines of the preprocessed code, when there are any, are
    lines of the code, in their order, without the blanks at their end; none
    of them is blank, an [@None] line or the start or the end of a block
    comment. *)
Theorem preprocess_keeps_code_lines code c :
  (SyntaxChecker.preprocess_code code c).1 <> "" ->
  let lines := split_lines (SyntaxChecker.preprocess_code code c).1 in
  Forall (fun line => rstrip line = line /\ code_line line = true) lines
  /\ sublist lines (map rstrip (split_lines code)).
Proof.
  unfold SyntaxChecker.preprocess_code.
  destruct (processed_grows (split_lines code) 1
              {| SyntaxChecker.in_block_comment := false;
                 SyntaxChecker.block_comment_start_line := 0;
                 SyntaxChecker.processed_lines := []; SyntaxChecker.self := c |})
    as (L & HL & Hsub & Hall).
  cbn [fst]. rewrite HL. cbn [SyntaxChecker.processed_lines app]. intros Hne.
  destruct (kept_lines_again L (split_lines code))
    as (Hnl & Hmark & Hfilter); [done|apply split_lines_no_newline|done|].
  assert (HL' : L <> []) by (by intros ->). rewrite split_join by done.
  split; [|done]. apply Forall_forall. intros line Hin. split.
  - eapply elem_of_submseteq in Hin; [|by apply sublist_submseteq].
    apply list_elem_of_In, in_map_iff in Hin as (line' & <- & _). apply rstrip_rstrip.
  - rewrite Forall_forall in Hall. by apply Hall.
Qed.

(** X28.  In code without a line that starts or ends a block comment,
    [preprocess_code] drops the blank lines and the [@None] lines, takes the
    blanks off the end of the others, and records no error. *)
Theorem preprocess_without_comments code c :
  Forall (fun line => comment_mark line = false) (split_lines code) ->
  SyntaxChecker.preprocess_code code c
  = (join_lines (List.filter code_line (map rstrip (split_lines code))), c).
Proof.
  intros Hall. unfold SyntaxChecker.preprocess_code. by rewrite plain_lines.
Qed.

(** X29.  A block comment that is never closed: every line from the [#X]
    on is dropped, a later [#X] too, and the error "Unclosed block comment"
    is recorded with the number of the line of the [#X]. *)
Theorem unclosed_comment_drops_the_rest code c before line after :
  split_lines code = before ++ line :: after ->
  Forall (fun line => comment_mark line = false) before ->
  startswith "#X" (strip line) = true ->
  Forall (fun line => startswith "#Y" (strip line) = false) after ->
  let n := Z.of_nat (List.length before) + 1 in
  SyntaxChecker.preprocess_code code c
  = (join_lines (List.filter code_line (map rstrip before)),
     SyntaxChecker._add_error
       ("Unclosed block comment starting at line " +:+ pretty n) n c).
Proof.
  intros Hcode Hbefore HX Hafter n. unfold SyntaxChecker.preprocess_code.
  rewrite Hcode, enumerate_app, fold_left_app, plain_lines by done.
  cbn [enumerate fold_left app].
  assert (Hstep : forall pl,
            SyntaxChecker.preprocess_line
              {| SyntaxChecker.in_block_comment := false;
                 SyntaxChecker.block_comment_start_line := 0;
                 SyntaxChecker.processed_lines := pl; SyntaxChecker.self := c |}
              (1 + Z.of_nat (List.length before), line)
            = {| SyntaxChecker.in_block_comment := true;
                 SyntaxChecker.block_comment_start_line := n;
                 SyntaxChecker.processed_lines := pl; SyntaxChecker.self := c |}).
  { intros pl. unfold SyntaxChecker.preprocess_line. rewrite strip_rstrip, HX.
    destruct (startswith_head _ _ _ HX) as (s' & ->). cbn. f_equal. unfold n. lia. }
  rewrite Hstep, commented_lines by done. reflexivity.
Qed.

(** ** Closed instances *)

(** A run and its result: [m s = (o, snd (m s))], the outcome evaluated. *)
Ltac run_pair :=
  match goal with
  | |- ?X = (_, _) =>
      etransitivity; [apply (surjective_pairing X)|]; apply (f_equal2 pair); reflexivity
  end.

(** C9: the theorem at a loop [Again(0, i)] over an empty block. *)
Lemma again_zero_iterations_witness :
  visit_again_stmt (visitors_at 5) (lit (FNumber "0")) (Some "i") []
      (run_program define_i_lines define_i)
    = (Ok tt, loop_exit (Some "i") (run_program define_i_lines define_i)).
Proof.
  apply (again_zero_iterations (visitors_at 5) (lit (FNumber "0")) (Some "i") []
           (run_program define_i_lines define_i) (VInt 0)
           (run_program define_i_lines define_i)).
  - reflexivity.
  - reflexivity.
Defined.

(** C9 as stated fails: [i] is bound to 5 before [Again(0, i)] and to
    nothing after it. *)
Lemma again_zero_removes_binding :
  get_value (envs (run_program define_i_lines define_i)) 0 "i" = Some (VInt 5)
  /\ get_value (envs (run_program zero_loop_lines zero_loop)) 0 "i" = None.
Proof. split; reflexivity. Qed.

(** C1: the theorem at [x -> "7"] where [x] holds the integer 1. *)
Lemma assignment_keeps_type_witness :
  type_name_of (VInt 7) = type_name_of (VInt 1)
  /\ exists s', assign "x" (VStr "7") (run_program typed_x_lines typed_x) = (Ok tt, s')
       /\ envs s' = <[0%nat := put_var "x" (VInt 7)
                                 (current_scope (run_program typed_x_lines typed_x))]>
                    (envs (run_program typed_x_lines typed_x))
       /\ errors s' = errors (run_program typed_x_lines typed_x).
Proof.
  apply (assignment_keeps_type "x" (VStr "7") (VInt 1) (run_program typed_x_lines typed_x)
           0%nat (current_scope (run_program typed_x_lines typed_x))).
  - discriminate.
  - reflexivity.
  - reflexivity.
  - reflexivity.
Defined.

(** C1 as stated fails: after [x -> "abc"] the assignment [x -> "def"],
    whose cast fails as well, records no error. *)
Lemma failed_cast_unreported :
  cast_attempt (run_program cast_once_lines cast_once) (VStr "def") "int"
    = CastError "String 'def' cannot be converted to int"
  /\ errors (run_program cast_twice_lines cast_twice)
     = [error_line "Cannot cast 'abc' to type 'int' for variable 'x' - String 'abc' cannot be converted to int"].
Proof. split; reflexivity. Qed.

(** C2: the theorem at the constant [c] of [Const int c -> 1] and the
    assignment [c -> 5]. *)
Lemma constants_are_immutable_witness :
  visit_assignment (visitors_at 5) "c" (lit (FNumber "5")) (run_program const_c_lines const_c)
  = (Ok tt,
     if is_poisoned (run_program const_c_lines const_c) "c"
     then run_program const_c_lines const_c
     else record_error ("Cannot assign values to constants afterward: '" +:+ "c" +:+ "'") 0
            (run_program const_c_lines const_c)).
Proof.
  destruct (constants_are_immutable (run_program const_c_lines const_c) 0%nat
              (current_scope (run_program const_c_lines const_c)) "c" (VInt 1))
    as (_ & _ & Hassign & _).
  - reflexivity.
  - reflexivity.
  - destruct (Hassign 5%nat (lit (FNumber "5")) (VInt 5) (run_program const_c_lines const_c))
      as (Hrun & _).
    + reflexivity.
    + reflexivity.
    + exact Hrun.
Defined.

(** C2 as stated fails: [c] is a constant, poisoned by [New int c -> 2];
    the assignment [c -> 5] that follows records no error. *)
Lemma poisoned_constant_unreported :
  errors (run_program poisoned_const_lines poisoned_const)
    = [error_line "Variable 'c' is already defined"]
  /\ is_constant (envs (run_program poisoned_const_lines poisoned_const)) 0 "c" = true.
Proof. split; reflexivity. Qed.

(** C3: the theorem in the third iteration of [Again(3, repeat)
    [ out.Info(now.repeat) ]]; the run of that program prints 1, 2 and 3. *)
Lemma now_repeat_is_the_name_repeat_witness :
  visit_member_access_expr "now" "repeat"
    (bind_index (Some "repeat") (Z.of_nat 2)
       (again_loop (visitors_at 9) (Some "repeat") print_repeat_body 2 0
          (set_should_break false (new_checker false false print_repeat_lines []))).2).2
  = (Ok (VInt (Z.of_nat 2 + 1)),
     (bind_index (Some "repeat") (Z.of_nat 2)
        (again_loop (visitors_at 9) (Some "repeat") print_repeat_body 2 0
           (set_should_break false (new_checker false false print_repeat_lines []))).2).2)
  /\ printed (run_program print_repeat_lines print_repeat)
     = [output_line "Info" "1"; output_line "Info" "2"; output_line "Info" "3"].
Proof.
  destruct (now_repeat_is_the_name_repeat
              (again_loop (visitors_at 9) (Some "repeat") print_repeat_body 2 0
                 (set_should_break false (new_checker false false print_repeat_lines []))).2
              (<["repeat" := "now.repeat"]> ∅)
              (current_scope
                 (again_loop (visitors_at 9) (Some "repeat") print_repeat_body 2 0
                    (set_should_break false
                       (new_checker false false print_repeat_lines []))).2))
    as (_ & _ & _ & Hloop).
  - reflexivity.
  - reflexivity.
  - reflexivity.
  - destruct (Hloop (visitors_at 9) (Some "repeat") print_repeat_body 3%nat 2%nat
                (set_should_break false (new_checker false false print_repeat_lines [])))
      as (_ & Hrepeat & _).
    + lia.
    + run_pair.
    + reflexivity.
    + destruct Hrepeat as (Hentry & _); [reflexivity|reflexivity|].
      split; [exact Hentry|reflexivity].
Defined.

(** C3 as stated fails: in the first iteration of [Again(1, i)], which
    bound the index name [i], [now.repeat] records an error and yields no
    value. *)
Lemma now_repeat_ignores_index_name :
  errors (run_program loop_i_lines loop_i) = [error_line now_repeat_error]
  /\ get_value (envs (run_program loop_i_lines loop_i)) 0 "x" = Some VNone.
Proof. split; reflexivity. Qed.



(** C5: the theorem at [New int x -> 2] where [x] is defined. *)
Lemma redefinition_poisons_witness :
  visit_var_def (visitors_at 5) int_type "x" (Some (lit (FNumber "2")))
      (run_program typed_x_lines typed_x)
  = (Ok tt, rejected ("Variable '" +:+ "x" +:+ "' is already defined") "x"
              (run_program typed_x_lines typed_x)).
Proof.
  destruct (redefinition_poisons "x" (run_program typed_x_lines typed_x)) as (Hnew & _).
  - reflexivity.
  - reflexivity.
  - apply Hnew. reflexivity.
Defined.

(** C5 as stated fails: [x] is redefined and poisoned on line 2; the
    assignment [y -> x] on line 5, after a loop took [x] for its index,
    records a second error about [x]. *)
Lemma poisoned_name_reported_again :
  errors (run_program redefined_x_lines redefined_x)
    = [error_line "Variable 'x' is already defined"; error_line "Variable 'x' not defined"].
Proof. reflexivity. Qed.

(** C6: the theorem at [5 / 0]. *)
Lemma division_by_zero_witness :
  visit_term (visitors_at 5) (Term (FNumber "5") [("/", FNumber "0")])
      (new_checker false false [] [])
  = (Ok (VInt 0), record_error "Division by zero" 0 (new_checker false false [] [])).
Proof.
  destruct (division_by_zero (visitors_at 5) (FNumber "0") [] (VInt 5)
              (new_checker false false [] []) (VInt 0) (new_checker false false [] []))
    as (_ & _ & Hterm).
  - reflexivity.
  - reflexivity.
  - apply Hterm. reflexivity.
Defined.

(** C7 as stated fails: [*] applied to a text and an integer is no error;
    [x -> "ab" * 2] binds [x] to the text repeated. *)
Lemma text_times_integer :
  errors (run_program repeated_text_lines repeated_text) = []
  /\ get_value (envs (run_program repeated_text_lines repeated_text)) 0 "x"
     = Some (VStr "abab").
Proof. split; reflexivity. Qed.

(** C8: the theorem at [Again(100, i) [ x -> i  rep.stop  y -> 1 ]],
    stopped in its first iteration; in the run of that program [x] is bound
    to 1 and [y] to nothing. *)
Lemma rep_stop_ends_loop_witness :
  visit_block (visitors_at 9) (before_stop ++ SRepStop :: after_stop)
      (bind_index (Some "i") (Z.of_nat 0)
         (set_should_break false (new_checker false false stopped_loop_lines []))).2
  = (Ok tt,
     set_should_break true
       (visit_block (visitors_at 9) before_stop
          (bind_index (Some "i") (Z.of_nat 0)
             (set_should_break false (new_checker false false stopped_loop_lines []))).2).2)
  /\ visit_again_stmt (visitors_at 9) (lit (FNumber "100")) (Some "i")
       (before_stop ++ SRepStop :: after_stop) (new_checker false false stopped_loop_lines [])
     = (Ok tt,
        loop_exit (Some "i")
          (set_should_break true
             (visit_block (visitors_at 9) before_stop
                (bind_index (Some "i") (Z.of_nat 0)
                   (set_should_break false
                      (new_checker false false stopped_loop_lines []))).2).2))
  /\ get_value (envs (run_program stopped_loop_lines stopped_loop)) 0 "x" = Some (VInt 1)
  /\ get_value (envs (run_program stopped_loop_lines stopped_loop)) 0 "y" = None
  /\ errors (run_program stopped_loop_lines stopped_loop) = [].
Proof.
  destruct (rep_stop_ends_loop (visitors_at 9) (lit (FNumber "100")) (Some "i")
              before_stop SRepStop after_stop
              (new_checker false false stopped_loop_lines []) (VInt 100)
              (new_checker false false stopped_loop_lines []) 100 0%nat
              (set_should_break false (new_checker false false stopped_loop_lines []))
              (bind_index (Some "i") (Z.of_nat 0)
                 (set_should_break false (new_checker false false stopped_loop_lines []))).2
              (visit_block (visitors_at 9) before_stop
                 (bind_index (Some "i") (Z.of_nat 0)
                    (set_should_break false
                       (new_checker false false stopped_loop_lines []))).2).2
              (set_should_break true
                 (visit_block (visitors_at 9) before_stop
                    (bind_index (Some "i") (Z.of_nat 0)
                       (set_should_break false
                          (new_checker false false stopped_loop_lines []))).2).2))
    as (_ & _ & Hblock & _ & _ & Hstmt & _).
  - reflexivity.
  - reflexivity.
  - simpl. lia.
  - reflexivity.
  - reflexivity.
  - run_pair.
  - run_pair.
  - reflexivity.
  - reflexivity.
  - reflexivity.
  - split; [exact Hblock|]. split; [exact Hstmt|]. repeat split; reflexivity.
Defined.

(** C10: the theorem at [x -> 1], the child 2 of a program that starts
    with [back.value()]; in the run of that program [x] is bound to 1, the
    block of the [Cause] that follows binds nothing, and the flag is set at
    the end. *)
Lemma return_at_top_level_witness :
  run_statement 20 2 (TopStatement None assign_x_1)
    (run_statements 20 1 [TopNewline]
       (visit_back_stmt (visitors_at 19) None
          (set_current_line_num 1 (new_checker false false return_then_lines []))).2).2
  = (Ok tt,
     (v_statement (visitors_at 20) assign_x_1
        (set_current_line_num (default (2 + 1) None)
           (run_statements 20 1 [TopNewline]
              (visit_back_stmt (visitors_at 19) None
                 (set_current_line_num 1
                    (new_checker false false return_then_lines []))).2).2)).2)
  /\ get_value
       (envs (v_statement (visitors_at 20) assign_x_1
                (set_current_line_num (default (2 + 1) None)
                   (run_statements 20 1 [TopNewline]
                      (visit_back_stmt (visitors_at 19) None
                         (set_current_line_num 1
                            (new_checker false false return_then_lines []))).2).2)).2)
       0 "x" = Some (VInt 1)
  /\ should_return (run_program return_then_lines return_then) = true
  /\ get_value (envs (run_program return_then_lines return_then)) 0 "x" = Some (VInt 1)
  /\ get_value (envs (run_program return_then_lines return_then)) 0 "y" = None.
Proof.
  destruct (return_at_top_level (visitors_at 19) None
              (set_current_line_num 1 (new_checker false false return_then_lines []))
              (visit_back_stmt (visitors_at 19) None
                 (set_current_line_num 1 (new_checker false false return_then_lines []))).2)
    as (_ & Hlater).
  - run_pair.
  - destruct (Hlater 20%nat 1 [TopNewline] (Ok tt)
                (run_statements 20 1 [TopNewline]
                   (visit_back_stmt (visitors_at 19) None
                      (set_current_line_num 1
                         (new_checker false false return_then_lines []))).2).2)
      as (_ & _ & Hvisited & _).
    + run_pair.
    + destruct (Hvisited None assign_x_1 [] 2
                  (v_statement (visitors_at 20) assign_x_1
                     (set_current_line_num (default (2 + 1) None)
                        (run_statements 20 1 [TopNewline]
                           (visit_back_stmt (visitors_at 19) None
                              (set_current_line_num 1
                                 (new_checker false false return_then_lines []))).2).2)).2)
        as (Hturn & _).
      * run_pair.
      * split; [exact Hturn|]. repeat split; reflexivity.
Defined.

(** *** Instances of the further properties *)

(** X1: a run from a state that holds an error already. *)
Lemma errors_accumulate_witness :
  errors (record_error "earlier" 0 (new_checker false false [] []))
    `prefix_of`
    errors (execute 20 (Some cast_once)
              (record_error "earlier" 0 (new_checker false false [] []))).2
  /\ error_vars_list (record_error "earlier" 0 (new_checker false false [] []))
      `prefix_of`
      error_vars_list (execute 20 (Some cast_once)
                         (record_error "earlier" 0 (new_checker false false [] []))).2.
Proof.
  apply (errors_accumulate 20 (Some cast_once)
           (record_error "earlier" 0 (new_checker false false [] [])) (Ok tt)).
  run_pair.
Defined.

(** X4: the theorem at [x -> 1 - "a"], first statement of a program. *)
Lemma exception_is_recorded_witness :
  run_statement 5 0 (TopStatement None int_minus_text) (new_checker false false [] [])
  = (Ok tt,
     if has_marker "unsupported operand type(s) for -: 'int' and 'str'"
     then (v_statement (visitors_at 5) int_minus_text
             (set_current_line_num 1 (new_checker false false [] []))).2
     else record_error "unsupported operand type(s) for -: 'int' and 'str'"
            (current_line_num
               (v_statement (visitors_at 5) int_minus_text
                  (set_current_line_num 1 (new_checker false false [] []))).2)
            (v_statement (visitors_at 5) int_minus_text
               (set_current_line_num 1 (new_checker false false [] []))).2).
Proof.
  destruct (exception_is_recorded 5 0 None int_minus_text [] (new_checker false false [] [])
              "unsupported operand type(s) for -: 'int' and 'str'"
              (v_statement (visitors_at 5) int_minus_text
                 (set_current_line_num 1 (new_checker false false [] []))).2) as [Hrun _].
  - run_pair.
  - exact Hrun.
Defined.

(** X6: the theorem at a call [f()] whose body defines a variable of its
    own, and the scope of the caller. *)
Lemma calls_keep_scopes_witness :
  exists sc',
    envs (v_expr (visitors_at 12) (lit (FCall "f" None))
            (run_program local_y_lines local_y)).2 !! 0%nat = Some sc'
    /\ parent sc' = parent (current_scope (run_program local_y_lines local_y))
    /\ dom (variables sc') = dom (variables (current_scope (run_program local_y_lines local_y)))
    /\ constants sc' = constants (current_scope (run_program local_y_lines local_y))
    /\ functions sc' = functions (current_scope (run_program local_y_lines local_y)).
Proof.
  apply (calls_keep_scopes 12 (lit (FCall "f" None)) (run_program local_y_lines local_y)
           (Ok (VInt 1))).
  - run_pair.
  - reflexivity.
Defined.

(** X8: the theorem at [x] bound to 1 in the scope of a fresh checker. *)
Lemma define_var_then_lookup_witness :
  get_value (define_var (envs (new_checker false false [] [])) 0 "x" (VInt 1)) 0 "x"
  = Some (VInt 1)
  /\ is_defined (define_var (envs (new_checker false false [] [])) 0 "x" (VInt 1)) 0 "x" = true.
Proof.
  destruct (define_var_then_lookup (envs (new_checker false false [] [])) 0%nat
              (current_scope (new_checker false false [] [])) "x" (VInt 1))
    as (Hget & Hdef & _).
  - reflexivity.
  - split; [exact Hget|exact Hdef].
Defined.

(** X10: the theorem at the cast of the text ["7"] to [int]. *)
Lemma cast_type_result_witness :
  envs (cast_type (VStr "7") "int" "x" (new_checker false false [] [])).2
  = envs (new_checker false false [] [])
  /\ type_name_of (VInt 7) = "int"
  /\ (cast_type (VStr "7") "int" "x" (new_checker false false [] [])).2
     = new_checker false false [] [].
Proof.
  apply (cast_type_result (VStr "7") "int" "x" (new_checker false false [] []) (Ok (VInt 7))).
  run_pair.
Defined.

(** X12: the theorem at [x[1]] where [x] is the list [[1, 2]]. *)
Lemma list_access_in_bounds_witness :
  visit_list_access (visitors_at 5) "x" (lit (FNumber "1")) (run_program list_x_lines list_x)
  = (Ok (VInt 2), run_program list_x_lines list_x).
Proof.
  etransitivity.
  - apply (list_access_in_bounds (visitors_at 5) "x" (lit (FNumber "1"))
             (run_program list_x_lines list_x) 1 (run_program list_x_lines list_x) 0%nat).
    + reflexivity.
    + reflexivity.
    + reflexivity.
  - reflexivity.
Defined.

(** X13: the theorem at [x.add(3)], the child 2 of [list_add], in the
    state in which [execute] comes to it: the current line is 3, the line of
    the [add] in the file.  The run of the program ends with [[1, 2, 3]]. *)
Lemma list_methods_update_in_place_witness :
  (exists s',
     run_statement 20 2 (TopStatement None add_3) before_add = (Ok tt, s')
     /\ list_at s' 0 = list_at (set_current_line_num (2 + 1) before_add) 0 ++ [VInt 3])
  /\ list_at (run_program list_add_lines list_add) 0 = [VInt 1; VInt 2; VInt 3]
  /\ errors (run_program list_add_lines list_add) = [].
Proof.
  split; [|split; reflexivity].
  destruct (list_methods_update_in_place (visitors_at 18) "x"
              (set_current_line_num (2 + 1) before_add) 0%nat)
    as (Hadd & _ & _ & Hturn).
  - reflexivity.
  - reflexivity.
  - destruct (Hadd (lit (FNumber "3")) (VInt 3)
                (set_current_line_num (2 + 1) before_add) (envs before_add))
      as (s' & Hrun & Hlist & _).
    + reflexivity.
    + reflexivity.
    + reflexivity.
    + apply Nat.ltb_lt. reflexivity.
    + exists s'. split; [|exact Hlist].
      exact (Hturn 18%nat 2 (Some (lit (FNumber "3"))) before_add s' eq_refl Hrun).
Defined.

(** X14: the theorem at [f(1)], where [f] has no parameter. *)
Lemma call_with_wrong_arity_witness :
  visit_func_call (visitors_at 5) "f" [lit (FNumber "1")] (run_program local_y_lines local_y)
  = (Ok VNone,
     record_error ("Function '" +:+ "f" +:+ "' expects "
                   +:+ pretty (Z.of_nat (List.length (f_params (FuncInfo [] f_body_y 0))))
                   +:+ " arguments but got "
                   +:+ pretty (Z.of_nat (List.length [VInt 1]))) 0
       (visit_all (v_expr (visitors_at 5)) [lit (FNumber "1")]
          (set_used_variables ({["f"]} ∪ used_variables (run_program local_y_lines local_y))
             (run_program local_y_lines local_y))).2).
Proof.
  apply (call_with_wrong_arity (visitors_at 5) "f" [lit (FNumber "1")]
           (run_program local_y_lines local_y) (FuncInfo [] f_body_y 0) [VInt 1]).
  - reflexivity.
  - reflexivity.
  - run_pair.
  - discriminate.
Defined.

(** X15: the theorem at [g()] in a fresh checker. *)
Lemma call_of_unknown_function_witness :
  visit_func_call (visitors_at 5) "g" [] (new_checker false false [] [])
  = (Ok VNone,
     rejected ("Function '" +:+ "g" +:+ "' is not defined") "g"
       (set_used_variables ({["g"]} ∪ used_variables (new_checker false false [] []))
          (new_checker false false [] []))).
Proof.
  destruct (call_of_unknown_function (visitors_at 5) "g" [] (new_checker false false [] []))
    as (Hcall & _).
  - reflexivity.
  - reflexivity.
  - exact Hcall.
Defined.

(** X16: the theorem at [out.Info(1)]. *)
Lemma output_prints_one_line_witness :
  visit_output_stmt (visitors_at 5) "out" "Info" (Some [lit (FNumber "1")])
    (new_checker false false [] [])
  = (Ok tt,
     set_printed (printed (new_checker false false [] [])
                  ++ [output_line "Info"
                        (join (map (py_str (new_checker false false [] [])) [VInt 1]))])
       (set_has_output true (new_checker false false [] []))).
Proof.
  apply (output_prints_one_line (visitors_at 5) "Info" (Some [lit (FNumber "1")])
           (new_checker false false [] [])
           (<["Info" := "out.Info"]> (<["Warn" := "out.Warn"]> (<["Error" := "out.Error"]> ∅)))
           [VInt 1] (new_checker false false [] [])).
  - reflexivity.
  - reflexivity.
  - by left.
  - reflexivity.
  - reflexivity.
Defined.

(** X17: the theorem at [1 ? 2] and [1 ! 2]. *)
Lemma equals_and_differs_witness :
  visit_condition (visitors_at 5) (Condition (lit (FNumber "1")) "!" (lit (FNumber "2")))
    (new_checker false false [] [])
  = (Ok (negb false), new_checker false false [] []).
Proof.
  apply (equals_and_differs (visitors_at 5) (lit (FNumber "1")) (lit (FNumber "2"))
           (new_checker false false [] []) false (new_checker false false [] [])).
  reflexivity.
Defined.

(** X18: the theorem at ["a" > 1]. *)
Lemma order_of_unordered_values_witness :
  visit_condition (visitors_at 5) (Condition (lit (text "a")) ">" (lit (FNumber "1")))
    (new_checker false false [] [])
  = (Ok false,
     record_error ("Comparison failed between " +:+ type_name_of (VStr "a") +:+ " and "
                   +:+ type_name_of (VInt 1) +:+ ": '" +:+ ">"
                   +:+ "' not supported between instances of '" +:+ type_name_of (VStr "a")
                   +:+ "' and '" +:+ type_name_of (VInt 1) +:+ "'") 0
       (new_checker false false [] [])).
Proof.
  destruct (order_of_unordered_values (visitors_at 5) (lit (text "a")) ">" (lit (FNumber "1"))
              (new_checker false false [] []) (VStr "a") (new_checker false false [] [])
              (VInt 1) (new_checker false false [] [])) as (Horder & _).
  - reflexivity.
  - reflexivity.
  - reflexivity.
  - constructor.
  - exact Horder.
Defined.


(** X20: the theorem at [rootFor(-4, 2)]. *)
Lemma rootFor_refuses_witness :
  visit_math_func_call (visitors_at 5) "rootFor" [lit (FNumber "-4"); lit (FNumber "2")]
    (new_checker false false [] [])
  = (Ok (VInt 0),
     record_error "Cannot calculate square root of negative number" 0
       (set_used_variables ({["rootFor"]} ∪ used_variables (new_checker false false [] []))
          (new_checker false false [] []))).
Proof.
  destruct (rootFor_refuses (visitors_at 5) (lit (FNumber "-4")) (lit (FNumber "2")) []
              (new_checker false false [] []) (-4)
              (set_used_variables ({["rootFor"]} ∪ used_variables (new_checker false false [] []))
                 (new_checker false false [] []))
              2
              (set_used_variables ({["rootFor"]} ∪ used_variables (new_checker false false [] []))
                 (new_checker false false [] []))) as (Hsqrt & _).
  - reflexivity.
  - reflexivity.
  - apply Hsqrt; [reflexivity|lia].
Defined.

(** X21: the theorem at [New str s -> "12"]: [s] is bound to the integer
    12. *)
Lemma new_binds_a_number_witness :
  exists s',
    visit_var_def (visitors_at 5) (TypeNode "type_str" []) "s" (Some (lit (text "12")))
      (new_checker false false [] []) = (Ok tt, s')
    /\ envs s' = define_var (envs (new_checker false false [] []))
                   (env (new_checker false false [] [])) "s" (VInt 12)
    /\ errors s' = errors (new_checker false false [] []).
Proof.
  apply (new_binds_a_number (visitors_at 5) (TypeNode "type_str" []) "s" (lit (text "12"))
           (new_checker false false [] []) (VStr "12") (new_checker false false [] [])).
  - reflexivity.
  - discriminate.
  - reflexivity.
  - reflexivity.
  - reflexivity.
  - reflexivity.
Defined.

(** X22: the theorem at [x], defined and assigned. *)
Lemma read_twice_witness :
  visit_IDENT "x" (visit_IDENT "x" (run_program typed_x_lines typed_x)).2
  = (Ok (VInt 1), (visit_IDENT "x" (run_program typed_x_lines typed_x)).2).
Proof.
  destruct (read_twice (visitors_at 5) "x" (run_program typed_x_lines typed_x) (VInt 1)
              (visit_IDENT "x" (run_program typed_x_lines typed_x)).2) as (Hagain & _).
  - run_pair.
  - exact Hagain.
Defined.

(** X30: the theorem at [g(1)], after [g("abc")]. *)
Lemma bad_argument_disables_function_witness :
  visit_func_call (visitors_at 5) "g" [lit (FNumber "1")]
    (run_program bad_argument_lines bad_argument)
  = (Ok VNone,
     record_error ("Argument 1 of function '" +:+ "g" +:+ "' cannot be cast to type '"
                   +:+ param_type (f_params (FuncInfo [("a", "int")] g_body 0)) "a" +:+ "'") 0
       (visit_all (v_expr (visitors_at 5)) [lit (FNumber "1")]
          (set_used_variables
             ({["g"]} ∪ used_variables (run_program bad_argument_lines bad_argument))
             (run_program bad_argument_lines bad_argument))).2).
Proof.
  destruct (bad_argument_disables_function (visitors_at 5) "g" [lit (FNumber "1")]
              (run_program bad_argument_lines bad_argument)
              (FuncInfo [("a", "int")] g_body 0) "a" "int" [] (VInt 1) []
              (visit_all (v_expr (visitors_at 5)) [lit (FNumber "1")]
                 (set_used_variables
                    ({["g"]} ∪ used_variables (run_program bad_argument_lines bad_argument))
                    (run_program bad_argument_lines bad_argument))).2) as (_ & Hagain).
  - reflexivity.
  - reflexivity.
  - reflexivity.
  - run_pair.
  - reflexivity.
  - apply Hagain. reflexivity.
Defined.

(** X27: the theorem at four lines, a blank one and an [@None] line among
    them. *)
Lemma preprocess_keeps_code_lines_witness :
  Forall (fun line => rstrip line = line /\ code_line line = true)
    (split_lines (SyntaxChecker.preprocess_code spaced_code SyntaxChecker.new).1)
  /\ sublist (split_lines (SyntaxChecker.preprocess_code spaced_code SyntaxChecker.new).1)
       (map rstrip (split_lines spaced_code)).
Proof.
  apply (preprocess_keeps_code_lines spaced_code SyntaxChecker.new).
  vm_compute. discriminate.
Defined.

(** X28: the theorem at the same four lines. *)
Lemma preprocess_without_comments_witness :
  SyntaxChecker.preprocess_code spaced_code SyntaxChecker.new
  = (join_lines (List.filter code_line (map rstrip (split_lines spaced_code))),
     SyntaxChecker.new).
Proof.
  apply (preprocess_without_comments spaced_code SyntaxChecker.new).
  repeat (constructor; [reflexivity|]). constructor.
Defined.

(** X29: the theorem at a [#X] on line 2 that no [#Y] closes. *)
Lemma unclosed_comment_drops_the_rest_witness :
  SyntaxChecker.preprocess_code unclosed_code SyntaxChecker.new
  = (join_lines (List.filter code_line (map rstrip ["x -> 1"])),
     SyntaxChecker._add_error
       ("Unclosed block comment starting at line "
        +:+ pretty (Z.of_nat (List.length ["x -> 1"]) + 1))
       (Z.of_nat (List.length ["x -> 1"]) + 1) SyntaxChecker.new).
Proof.
  apply (unclosed_comment_drops_the_rest unclosed_code SyntaxChecker.new
           ["x -> 1"] "#X a note" ["x -> 2"]).
  - reflexivity.
  - repeat (constructor; [reflexivity|]). constructor.
  - reflexivity.
  - repeat (constructor; [reflexivity|]). constructor.
Defined.
